(** * Bootstrap of the CSI external-provisioner: [cmd/csi-provisioner/csi-provisioner.go]

    The program is one long [main]: it reads flags and environment
    variables, talks to the CSI driver, assembles listers and controllers
    and finally starts them, directly or behind leader election.

    The embedding follows [main] statement by statement.
    - Parsed flags are a record [Flags]; the process environment is [Env].
    - Every collaborator that lives outside the file (the kube client, the
      gRPC connection, the translation library, the election primitive, the
      clock) is a field of [World]: an oracle that fixes what each call
      returns in one run.
    - [main] runs in a small state-and-abort monad [M].  The state holds the
      log of the calls made so far, in program order, and the informers
      that the informer factories have registered and started.
    - [os.Exit], [klog.Fatal], a nil dereference and a panic of the
      standard library end the run: they are the four constructors of
      [Halt].
    - A [go f()] statement is logged where it is executed; what the spawned
      goroutine does afterwards is not followed: the run that is modelled
      is the one of the goroutine of [main].  In particular the
      [klog.Fatalf] of line 522, in the goroutine of the diagnostics
      server, is not part of it; what is proved about how a run ends holds
      for the goroutine of [main], and the one theorem that says that a
      run gets to its last statement (X19) is stated for runs without a
      diagnostics server.  Calls that block in the real program (the run
      loop of the provision controller, [le.Run()]) are logged and passed.
      Info-level logging is left out, error-level logging is kept.

    The file has four parts: the model of the program; the vocabulary in
    which the properties are stated; a few concrete runs; and the proofs,
    with one theorem for each of the properties C1 to C10 and for each of
    the further properties X1 to X21. *)

From Stdlib Require Import ZArith List Bool Ascii Lia.
From stdpp Require Import base gmap strings pretty.

Import ListNotations.
Open Scope Z_scope.
Open Scope string_scope.

(** ** Data *)

(** [flag.Uint] values converted with [int(...)]: a 64-bit wrap-around. *)
Definition int_of_uint (u : Z) : Z := (u + 2 ^ 63) `mod` 2 ^ 64 - 2 ^ 63.

(** The package-level flag variables, after [flag.Parse]. *)
Record Flags := {
  master : string;
  kubeconfig : string;
  csiEndpoint : string;
  volumeNamePrefix : string;
  volumeNameUUIDLength : Z;
  showVersion : bool;
  retryIntervalStart : Z;
  retryIntervalMax : Z;
  workerThreads : Z;
  finalizerThreads : Z;
  capacityThreads : Z;
  operationTimeout : Z;
  enableLeaderElection : bool;
  leaderElectionNamespace : string;
  strictTopology : bool;
  immediateTopology : bool;
  extraCreateMetadata : bool;
  metricsAddress : string;
  httpEndpoint : string;
  metricsPath : string;
  defaultFSType : string;
  kubeAPIQPS : string;  (* a float32: carried as its text, never computed on *)
  kubeAPIBurst : Z;
  enableCapacity : bool;
  capacityImmediateBinding : bool;
  capacityPollInterval : Z;
  capacityOwnerrefLevel : Z;
  enableNodeDeployment : bool;
  nodeDeploymentImmediateBinding : bool;
  nodeDeploymentBaseDelay : Z;
  nodeDeploymentMaxDelay : Z;
  featureGates : gmap string bool
}.

(** [os.Getenv]: an unset variable reads as the empty string. *)
Definition Env := gmap string string.

Definition getenv_value (e : Env) (name : string) : string :=
  default "" (e !! name).

(** The flag defaults of the [var ( ... )] block. *)
Definition default_flags : Flags := {|
  master := "";
  kubeconfig := "";
  csiEndpoint := "/run/csi/socket";
  volumeNamePrefix := "pvc";
  volumeNameUUIDLength := -1;
  showVersion := false;
  retryIntervalStart := 1000000000;
  retryIntervalMax := 300000000000;
  workerThreads := 100;
  finalizerThreads := 1;
  capacityThreads := 1;
  operationTimeout := 10000000000;
  enableLeaderElection := false;
  leaderElectionNamespace := "";
  strictTopology := false;
  immediateTopology := true;
  extraCreateMetadata := false;
  metricsAddress := "";
  httpEndpoint := "";
  metricsPath := "/metrics";
  defaultFSType := "";
  kubeAPIQPS := "5";
  kubeAPIBurst := 10;
  enableCapacity := false;
  capacityImmediateBinding := false;
  capacityPollInterval := 60000000000;
  capacityOwnerrefLevel := 1;
  enableNodeDeployment := false;
  nodeDeploymentImmediateBinding := true;
  nodeDeploymentBaseDelay := 20000000000;
  nodeDeploymentMaxDelay := 60000000000;
  featureGates := ∅
|}.

(** Go's [(value, error)] results whose value is only used when the error
    is nil. *)
Inductive res (A : Type) : Type :=
  | Ok (a : A)
  | Err (msg : string).
Arguments Ok {A} a.
Arguments Err {A} msg.

(** [rpc.PluginCapabilitySet] and [rpc.ControllerCapabilitySet] are
    [map[enum]bool]; the enums are protobuf [int32] values.  Indexing a
    missing key yields [false]. *)
Definition has_capability (caps : gmap Z bool) (c : Z) : bool :=
  default false (caps !! c).

Definition ControllerServiceCapability_RPC_PUBLISH_UNPUBLISH_VOLUME : Z := 2.

(** The three informer factories of [main] and the resources asked of them. *)
Inductive Factory := SharedFactory | NamespaceFactory | StoppedFactory.
Inductive Resource :=
  | StorageClasses | PersistentVolumeClaims | VolumeAttachments
  | CSINodes | Nodes | CSIStorageCapacities.

#[global] Instance Factory_eq_dec : EqDecision Factory.
Proof. solve_decision. Defined.
#[global] Instance Resource_eq_dec : EqDecision Resource.
Proof. solve_decision. Defined.

(** A lister or informer handle: which factory, which resource.  A nil
    interface value is [None]. *)
Definition Handle : Type := Factory * Resource.

(** The two metrics managers [main] may create, and the connection made
    with each. *)
Inductive MetricsManager := SidecarManager | MigratedManager.
Definition Conn : Type := MetricsManager.

Inductive ConfigSource :=
  | FromFlags (master_url kubeconfig_path : string)
  | InCluster.

Record RestConfig := {
  cfg_source : ConfigSource;
  cfg_QPS : string;
  cfg_Burst : Z
}.

(** [csi.NodeGetInfoResponse]; [AccessibleTopology] may be nil. *)
Record NodeInfo := {
  NodeId : string;
  MaxVolumesPerNode : Z;
  AccessibleTopology : option (gmap string string)
}.

Record NodeDeployment := {
  nd_NodeName : string;
  nd_ClaimInformer : Handle;
  nd_ImmediateBinding : bool;
  nd_BaseDelay : Z;
  nd_MaxDelay : Z;
  nd_NodeInfo : NodeInfo
}.

Record OwnerReference := {
  APIVersion : string;
  Kind : string;
  Name : string
}.

(** The static objects put into the never-started factory's stores. *)
Record CSINodeDriver := {
  drv_Name : string;
  drv_NodeID : string;
  drv_TopologyKeys : list string
}.
Inductive FakeObject :=
  | FakeCSINode (name : string) (drivers : list CSINodeDriver)
  | FakeNode (name : string) (labels : option (gmap string string)).

Inductive RateLimiter :=
  | ItemExponentialFailureRateLimiter (base max : Z)
  | DefaultControllerRateLimiter.

Inductive ProvisionerOption :=
  | LeaderElection (enabled : bool)
  | FailedProvisionThreshold (n : Z)
  | FailedDeleteThreshold (n : Z)
  | RateLimiterOpt (rl : RateLimiter)
  | Threadiness (n : Z)
  | CreateProvisionedPVLimiter (rl : RateLimiter)
  | ClaimsInformer (inf : Handle)
  | NodesLister (l : option Handle)
  | AdditionalProvisionerNames (names : list string).

(** The arguments of [ctrl.NewCSIProvisioner], in call order. *)
Record ProvisionerArgs := {
  pa_timeout : Z;
  pa_identity : string;
  pa_volumeNamePrefix : string;
  pa_volumeNameUUIDLength : Z;
  pa_grpcClient : Conn;
  pa_driverName : string;
  pa_pluginCapabilities : gmap Z bool;
  pa_controllerCapabilities : gmap Z bool;
  pa_supportsMigrationFromInTreePluginName : string;
  pa_strictTopology : bool;
  pa_immediateTopology : bool;
  pa_scLister : Handle;
  pa_csiNodeLister : option Handle;
  pa_nodeLister : option Handle;
  pa_claimLister : Handle;
  pa_vaLister : option Handle;
  pa_extraCreateMetadata : bool;
  pa_defaultFSType : string;
  pa_nodeDeployment : option NodeDeployment
}.

(** [topology.Informer]: the live variant over the shared factory's Node
    and CSINode informers, or a fixed segment. *)
Inductive TopologyInformer :=
  | NodeTopology (driver : string) (nodes csiNodes : Handle) (queue : string)
  | FixedNodeTopology (segment : list (string * string)).

(** The arguments of [capacity.NewCentralCapacityController]. *)
Record CapacityArgs := {
  ca_grpcClient : Conn;
  ca_driverName : string;
  ca_queue : string;
  ca_owner : option OwnerReference;
  ca_managedByID : string;
  ca_namespace : string;
  ca_topologyInformer : TopologyInformer;
  ca_scInformer : Handle;
  ca_cInformer : Handle;
  ca_pollInterval : Z;
  ca_immediateBinding : bool
}.

(** The provisioner handed to the provision controller: the CSI
    provisioner, possibly wrapped by [capacity.NewProvisionWrapper]. *)
Inductive Provisioner :=
  | CSIProvisioner (args : ProvisionerArgs)
  | ProvisionWrapper (inner : Provisioner) (controller : CapacityArgs).

(** The label keys of [pkg/capacity] used to select the capacity objects
    of this instance. *)
Inductive LabelKey := DriverNameLabel | ManagedByLabel.

(** ** Log of calls *)

Inductive Event :=
  | EvSetFeatureGates (gates : gmap string bool)
  | EvGetenv (name : string)
  | EvPrintVersion
  | EvLogError (msg : string)
  | EvBuildConfigFromFlags (master_url kubeconfig_path : string)
  | EvInClusterConfig
  | EvNewClientset (cfg : RestConfig)
  | EvNewSnapshotClient (cfg : RestConfig)
  | EvServerVersion
  | EvNewMetricsManager (m : MetricsManager) (driver : string)
  | EvSetDriverName (m : MetricsManager) (driver : string)
  | EvConnect (endpoint : string) (m : MetricsManager)
  | EvCloseConn (c : Conn)
  | EvProbe (c : Conn) (timeout : Z)
  | EvGetDriverName (c : Conn) (timeout : Z)
  | EvGetDriverCapabilities (c : Conn) (timeout : Z)
  | EvGetNodeInfo (c : Conn) (timeout : Z)
  | EvNewInformerFactory (f : Factory)
  | EvNewInformerFactoryWithOptions
      (f : Factory) (namespace : string) (selector : list (LabelKey * string))
  | EvInformerFor (f : Factory) (r : Resource)
  | EvStoreAdd (f : Factory) (r : Resource) (obj : FakeObject)
  | EvNewCSIProvisioner (args : ProvisionerArgs)
  | EvOwnerLookup (namespace podName : string) (levels : Z)
  | EvNewNodeTopology (driver : string) (nodes csiNodes : Handle)
  | EvNewFixedNodeTopology (segment : list (string * string))
  | EvGoRunWorker (t : TopologyInformer)
  | EvNewCentralCapacityController (args : CapacityArgs)
  | EvCustomMustRegister
  | EvNewProvisionWrapper
  | EvNewProvisionController
      (driver : string) (p : Provisioner) (gitVersion : string)
      (options : list ProvisionerOption)
  | EvNewCloningProtectionController (caps : gmap Z bool)
  | EvMuxHandle (path : string)
  | EvGoListenAndServe (addr : string)
  | EvFactoryStart (f : Factory) (started : list Resource)
  | EvWaitForCacheSync (f : Factory) (result : list (Resource * bool))
  | EvGoCapacityControllerRun (threads : Z)
  | EvGoCloningProtectionControllerRun (threads : Z)
  | EvProvisionControllerRun
  | EvNewLeaderElection (lockName : string)
  | EvPrepareHealthCheck
  | EvWithNamespace (namespace : string)
  | EvLeaderElectionRun.

(** The run loops of the three sub-controllers. *)
Definition is_controller_run (ev : Event) : bool :=
  match ev with
  | EvGoCapacityControllerRun _
  | EvGoCloningProtectionControllerRun _
  | EvProvisionControllerRun => true
  | _ => false
  end.

(** The RPCs sent to the CSI driver. *)
Definition is_backend_rpc (ev : Event) : bool :=
  match ev with
  | EvProbe _ _ | EvGetDriverName _ _
  | EvGetDriverCapabilities _ _ | EvGetNodeInfo _ _ => true
  | _ => false
  end.

(** ** The collaborators *)

(** What [le.Run()] of the election primitive does in one run: whether it
    gets the lease and calls the function it was given, and the error it
    returns. *)
Record Election := {
  le_invokes_run : bool;
  le_error : option string
}.

(** What the calls that leave the file return in one run.  An error is
    [Some msg] (or [Err msg]), [None] is a nil error.
    - [ctrl.SupportsTopology] and the constructor of the cloning-protection
      controller belong to [pkg/controller], which is not part of the
      file: the first is kept as a function of the plugin capabilities,
      the second as the fact whether it returned a controller or nil.
    - [OwnerLookup] is the pair that [owner.Lookup] returns: the pointer,
      possibly nil, and the error.
    - [CacheSynced] is the flag that [WaitForCacheSync] reports for the
      informer of a resource. *)
Record World := {
  SetFromMap : gmap string bool -> option string;
  BuildConfigFromFlags : string -> string -> option string;
  InClusterConfig : option string;
  NewClientset : option string;
  NewSnapshotClient : option string;
  ServerVersion : res string;
  Connect : string -> MetricsManager -> option string;
  Probe : Conn -> option string;
  GetDriverName : Conn -> res string;
  IsMigratedCSIDriverByName : string -> bool;
  GetInTreeNameFromCSIName : string -> res string;
  GetDriverCapabilities : Conn -> res (gmap Z bool * gmap Z bool);
  GetNodeInfo : Conn -> res NodeInfo;
  SupportsTopology : gmap Z bool -> bool;
  UnixNano : Z;
  RandIntn : Z;
  OwnerLookup : string -> string -> Z -> option OwnerReference * option string;
  CloningProtectionControllerBuilt : gmap Z bool -> bool;
  CacheSynced : Resource -> bool;
  NewLeaderElectionClientset : option string;
  LeaderElectionRun : Election
}.

(** ** The monad of [main] *)

(** The informers a factory has handed out ([registered]) and the ones its
    [Start] has launched ([started]); [log] is the call log. *)
Record State := {
  log : list Event;
  registered : list Handle;
  started : list Handle
}.

Definition initial_state : State :=
  {| log := []; registered := []; started := [] |}.

(** How a run ends early: [os.Exit code], [klog.Fatal], a nil pointer
    dereference, or a [panic] raised by a library call. *)
Inductive Halt :=
  | Exit (code : Z)
  | KlogFatal (msg : string)
  | NilDereference
  | Panic (msg : string).

(** [klog.Fatal] exits with status 255, a Go panic with status 2. *)
Definition exit_code (h : Halt) : Z :=
  match h with
  | Exit code => code
  | KlogFatal _ => 255
  | NilDereference => 2
  | Panic _ => 2
  end.

Definition M (A : Type) : Type := State -> (A + Halt) * State.

Definition ret {A} (a : A) : M A := fun s => (inl a, s).

Definition bind {A B} (m : M A) (k : A -> M B) : M B :=
  fun s =>
    match m s with
    | (inl a, s') => k a s'
    | (inr h, s') => (inr h, s')
    end.

Notation "x <- m ;; k" := (bind m (fun x => k))
  (at level 100, m at next level, right associativity).
Notation "m ;;; k" := (bind m (fun _ => k))
  (at level 100, right associativity).

Definition halt {A} (h : Halt) : M A := fun s => (inr h, s).

Definition emit (ev : Event) : M unit :=
  fun s =>
    (inl tt,
     {| log := log s ++ [ev]; registered := registered s; started := started s |}).

Definition when (b : bool) (m : M unit) : M unit :=
  if b then m else ret tt.

Definition fatal {A} (msg : string) : M A := halt (KlogFatal msg).

(** [klog.Error(msg); os.Exit(1)]. *)
Definition error_exit {A} (msg : string) : M A :=
  emit (EvLogError msg) ;;; halt (Exit 1).

Definition nonempty (s : string) : bool := negb (String.eqb s "").

Definition getenv (e : Env) (name : string) : M string :=
  emit (EvGetenv name) ;;; ret (getenv_value e name).

(** ** Informer factories *)

Definition add_handle (h : Handle) (l : list Handle) : list Handle :=
  if bool_decide (h ∈ l) then l else l ++ [h].

(** [factory.InformerFor]: the factory keeps one informer per resource. *)
Definition register (h : Handle) : M unit :=
  fun s =>
    (inl tt,
     {| log := log s; registered := add_handle h (registered s);
        started := started s |}).

(** [factory.X().Lister()] and [factory.X().Informer()], called by [main]. *)
Definition informerFor (f : Factory) (r : Resource) : M Handle :=
  emit (EvInformerFor f r) ;;; register (f, r) ;;; ret (f, r).

Definition of_factory (f : Factory) (l : list Handle) : list Handle :=
  List.filter (fun h => bool_decide (h.1 = f)) l.

Definition not_yet (done : list Handle) (l : list Handle) : list Handle :=
  List.filter (fun h => negb (bool_decide (h ∈ done))) l.

(** [factory.Start]: launches every registered informer of the factory
    that is not running yet. *)
Definition factoryStart (f : Factory) : M unit :=
  fun s =>
    let new := not_yet (started s) (of_factory f (registered s)) in
    (inl tt,
     {| log := log s ++ [EvFactoryStart f (map snd new)];
        registered := registered s;
        started := started s ++ new |}).

(** [factory.WaitForCacheSync]: one flag per started informer. *)
Definition waitForCacheSync (w : World) (f : Factory)
  : M (list (Resource * bool)) :=
  fun s =>
    let result :=
      map (fun h => (h.2, CacheSynced w h.2)) (of_factory f (started s)) in
    (inl result,
     {| log := log s ++ [EvWaitForCacheSync f result];
        registered := registered s;
        started := started s |}).

(** [for _, v := range cacheSyncResult { if !v { klog.Fatalf(...) } }] *)
Fixpoint check_synced (result : list (Resource * bool)) : M unit :=
  match result with
  | [] => ret tt
  | (_, v) :: rest =>
      if negb v then fatal "Failed to sync Informers!" else check_synced rest
  end.

(** ** [main], in the order of the source *)

Section Main.

Variable f : Flags.
Variable e : Env.
Variable w : World.

Definition only_one_endpoint : string :=
  "only one of `--metrics-address` and `--http-endpoint` can be set.".
Definition need_NODE_NAME : string :=
  "The NODE_NAME environment variable must be set when using --enable-node-deployment.".
Definition need_NAMESPACE : string :=
  "need NAMESPACE env variable for CSIStorageCapacity objects".
Definition need_POD_NAME : string :=
  "need POD_NAME env variable to determine CSIStorageCapacity owner".
Definition failed_to_sync : string := "Failed to sync Informers!".
(** What [http.ServeMux.Handle] panics with on an empty pattern. *)
Definition invalid_pattern : string := "http: invalid pattern".

(** Lines 144-147: the address of the diagnostics server. *)
Definition addr : string :=
  if String.eqb (metricsAddress f) "" then httpEndpoint f else metricsAddress f.

(** What the first part of [main] leaves behind for the rest. *)
Record Setup := {
  su_node : string;
  su_config : RestConfig;
  su_gitVersion : string
}.

(** Lines 125-187: feature gates, NODE_NAME, --version, the two endpoint
    flags, the kube configuration and clients. *)
Definition configure : M Setup :=
  emit (EvSetFeatureGates (featureGates f)) ;;;
  match SetFromMap w (featureGates f) with
  | Some err => fatal err
  | None => ret tt
  end ;;;
  node <- getenv e "NODE_NAME" ;;
  when (enableNodeDeployment f && String.eqb node "") (fatal need_NODE_NAME) ;;;
  when (showVersion f) (emit EvPrintVersion ;;; halt (Exit 0)) ;;;
  when (nonempty (metricsAddress f) && nonempty (httpEndpoint f))
       (error_exit only_one_endpoint) ;;;
  kubeconfigEnv <- getenv e "KUBECONFIG" ;;
  let kubeconfig' :=
    if nonempty kubeconfigEnv then kubeconfigEnv else kubeconfig f in
  src_err <-
    (if nonempty (master f) || nonempty kubeconfig'
     then emit (EvBuildConfigFromFlags (master f) kubeconfig') ;;;
          ret (FromFlags (master f) kubeconfig',
               BuildConfigFromFlags w (master f) kubeconfig')
     else emit EvInClusterConfig ;;; ret (InCluster, InClusterConfig w)) ;;
  match snd src_err with
  | Some err => fatal ("Failed to create config: " +:+ err)
  | None => ret tt
  end ;;;
  let config :=
    {| cfg_source := fst src_err;
       cfg_QPS := kubeAPIQPS f;
       cfg_Burst := kubeAPIBurst f |} in
  emit (EvNewClientset config) ;;;
  match NewClientset w with
  | Some err => fatal ("Failed to create client: " +:+ err)
  | None => ret tt
  end ;;;
  emit (EvNewSnapshotClient config) ;;;
  match NewSnapshotClient w with
  | Some err => fatal ("Failed to create snapshot client: " +:+ err)
  | None => ret tt
  end ;;;
  emit EvServerVersion ;;;
  match ServerVersion w with
  | Err err => fatal ("Error getting server version: " +:+ err)
  | Ok gitVersion =>
      ret {| su_node := node; su_config := config; su_gitVersion := gitVersion |}
  end.

(** [ctrl.Connect]; on error [klog.Error(err.Error()); os.Exit(1)]. *)
Definition connect (m : MetricsManager) : M Conn :=
  emit (EvConnect (csiEndpoint f) m) ;;;
  match Connect w (csiEndpoint f) m with
  | Some err => error_exit err
  | None => ret m
  end.

(** [ctrl.Probe]; on error [klog.Error(err.Error()); os.Exit(1)]. *)
Definition probe (c : Conn) : M unit :=
  emit (EvProbe c (operationTimeout f)) ;;;
  match Probe w c with
  | Some err => error_exit err
  | None => ret tt
  end.

Record Driver := {
  dr_grpcClient : Conn;
  dr_provisionerName : string;
  dr_supportsMigrationFromInTreePluginName : string
}.

(** Lines 189-242: connect, probe, driver name, and the second connection
    for a migrated driver. *)
Definition identify : M Driver :=
  emit (EvNewMetricsManager SidecarManager "") ;;;
  grpcClient <- connect SidecarManager ;;
  probe grpcClient ;;;
  emit (EvGetDriverName grpcClient (operationTimeout f)) ;;;
  provisionerName <-
    match GetDriverName w grpcClient with
    | Err err => fatal ("Error getting CSI driver name: " +:+ err)
    | Ok name => ret name
    end ;;
  emit (EvSetDriverName SidecarManager provisionerName) ;;;
  if IsMigratedCSIDriverByName w provisionerName
  then
    inTree <-
      match GetInTreeNameFromCSIName w provisionerName with
      | Err err =>
          fatal ("Failed to get InTree plugin name for migrated CSI plugin "
                   +:+ provisionerName +:+ ": " +:+ err)
      | Ok name => ret name
      end ;;
    emit (EvNewMetricsManager MigratedManager provisionerName) ;;;
    migratedGrpcClient <- connect MigratedManager ;;
    emit (EvCloseConn grpcClient) ;;;
    probe migratedGrpcClient ;;;
    ret {| dr_grpcClient := migratedGrpcClient;
           dr_provisionerName := provisionerName;
           dr_supportsMigrationFromInTreePluginName := inTree |}
  else
    ret {| dr_grpcClient := grpcClient;
           dr_provisionerName := provisionerName;
           dr_supportsMigrationFromInTreePluginName := "" |}.

Record Listers := {
  ls_pluginCapabilities : gmap Z bool;
  ls_controllerCapabilities : gmap Z bool;
  ls_identity : string;
  ls_scLister : Handle;
  ls_claimLister : Handle;
  ls_vaLister : option Handle;
  ls_nodeDeployment : option NodeDeployment;
  ls_nodeLister : option Handle;
  ls_csiNodeLister : option Handle
}.

(** [for key := range Segments]: the keys, in the order of the map. *)
Definition segment_keys (segments : gmap string string) : list string :=
  map fst (map_to_list segments).

(** Lines 309-332: the static CSINode and Node objects of a node-local
    deployment. *)
Definition fake_csi_node (provisionerName : string) (nd : NodeDeployment)
  : FakeObject :=
  FakeCSINode (nd_NodeName nd)
    [ {| drv_Name := provisionerName;
         drv_NodeID := NodeId (nd_NodeInfo nd);
         drv_TopologyKeys :=
           match AccessibleTopology (nd_NodeInfo nd) with
           | Some segments => segment_keys segments
           | None => []
           end |} ].

Definition fake_node (nd : NodeDeployment) : FakeObject :=
  FakeNode (nd_NodeName nd) (AccessibleTopology (nd_NodeInfo nd)).

(** Lines 306-343: the static objects are served by a factory that is
    never started. *)
Definition local_topology_listers (provisionerName : string)
    (nd : NodeDeployment) : M (option Handle * option Handle) :=
  emit (EvNewInformerFactory StoppedFactory) ;;;
  informerFor StoppedFactory CSINodes ;;;
  emit (EvStoreAdd StoppedFactory CSINodes (fake_csi_node provisionerName nd)) ;;;
  informerFor StoppedFactory Nodes ;;;
  emit (EvStoreAdd StoppedFactory Nodes (fake_node nd)) ;;;
  csiNodeLister <- informerFor StoppedFactory CSINodes ;;
  nodeLister <- informerFor StoppedFactory Nodes ;;
  ret (Some csiNodeLister, Some nodeLister).

(** Lines 263-268: the identity of this provisioner instance. *)
Definition identity_string (su : Setup) (dr : Driver) : string :=
  let identity :=
    pretty (Z.quot (UnixNano w) 1000000) +:+ "-" +:+ pretty (RandIntn w)
      +:+ "-" +:+ dr_provisionerName dr in
  if enableNodeDeployment f then identity +:+ "-" +:+ su_node su
  else identity.

(** Lines 289-300. *)
Definition node_deployment (su : Setup) (nodeInfo : NodeInfo) : NodeDeployment :=
  {| nd_NodeName := su_node su;
     nd_ClaimInformer := (SharedFactory, PersistentVolumeClaims);
     nd_ImmediateBinding := nodeDeploymentImmediateBinding f;
     nd_BaseDelay := nodeDeploymentBaseDelay f;
     nd_MaxDelay := nodeDeploymentMaxDelay f;
     nd_NodeInfo := nodeInfo |}.

Definition listers_result (su : Setup) (dr : Driver)
    (caps : gmap Z bool * gmap Z bool) (scLister claimLister : Handle)
    (vaLister : option Handle) (nodeDeployment : option NodeDeployment)
    (topo : option Handle * option Handle) : Listers :=
  {| ls_pluginCapabilities := fst caps;
     ls_controllerCapabilities := snd caps;
     ls_identity := identity_string su dr;
     ls_scLister := scLister;
     ls_claimLister := claimLister;
     ls_vaLister := vaLister;
     ls_nodeDeployment := nodeDeployment;
     ls_csiNodeLister := fst topo;
     ls_nodeLister := snd topo |}.

(** Lines 258-349: capabilities, the identity string, the shared factory
    and the capability-dependent listers. *)
Definition listers (su : Setup) (dr : Driver) : M Listers :=
  emit (EvGetDriverCapabilities (dr_grpcClient dr) (operationTimeout f)) ;;;
  caps <-
    match GetDriverCapabilities w (dr_grpcClient dr) with
    | Err err => fatal ("Error getting CSI driver capabilities: " +:+ err)
    | Ok caps => ret caps
    end ;;
  emit (EvNewInformerFactory SharedFactory) ;;;
  scLister <- informerFor SharedFactory StorageClasses ;;
  claimLister <- informerFor SharedFactory PersistentVolumeClaims ;;
  vaLister <-
    (if has_capability (snd caps)
          ControllerServiceCapability_RPC_PUBLISH_UNPUBLISH_VOLUME
     then l <- informerFor SharedFactory VolumeAttachments ;; ret (Some l)
     else ret None) ;;
  nodeDeployment <-
    (if enableNodeDeployment f
     then
       emit (EvGetNodeInfo (dr_grpcClient dr) (operationTimeout f)) ;;;
       match GetNodeInfo w (dr_grpcClient dr) with
       | Err err => fatal ("Failed to get node info from CSI driver: " +:+ err)
       | Ok nodeInfo => ret (Some (node_deployment su nodeInfo))
       end
     else ret None) ;;
  topo <-
    (if SupportsTopology w (fst caps)
     then
       match nodeDeployment with
       | Some nd => local_topology_listers (dr_provisionerName dr) nd
       | None =>
           csiNodeLister <- informerFor SharedFactory CSINodes ;;
           nodeLister <- informerFor SharedFactory Nodes ;;
           ret (Some csiNodeLister, Some nodeLister)
       end
     else ret (None, None)) ;;
  ret (listers_result su dr caps scLister claimLister vaLister
         nodeDeployment topo).

Record Provisioning := {
  pv_rateLimiter : RateLimiter;
  pv_claimInformer : Handle;
  pv_options : list ProvisionerOption;
  pv_csiProvisioner : Provisioner
}.

(** Lines 353 and 358-371: the rate limiter and the options of the
    provision controller. *)
Definition rate_limiter : RateLimiter :=
  ItemExponentialFailureRateLimiter (retryIntervalStart f) (retryIntervalMax f).

Definition provisioner_options (dr : Driver) (ls : Listers)
    (claimInformer : Handle) : list ProvisionerOption :=
  let provisionerOptions :=
    [ LeaderElection false;
      FailedProvisionThreshold 0;
      FailedDeleteThreshold 0;
      RateLimiterOpt rate_limiter;
      Threadiness (int_of_uint (workerThreads f));
      CreateProvisionedPVLimiter DefaultControllerRateLimiter;
      ClaimsInformer claimInformer;
      NodesLister (ls_nodeLister ls) ] in
  if nonempty (dr_supportsMigrationFromInTreePluginName dr)
  then (provisionerOptions ++
          [AdditionalProvisionerNames
             [dr_supportsMigrationFromInTreePluginName dr]])%list
  else provisionerOptions.

(** Lines 375-398: the arguments of [ctrl.NewCSIProvisioner]. *)
Definition provisioner_args (dr : Driver) (ls : Listers) : ProvisionerArgs :=
  {| pa_timeout := operationTimeout f;
     pa_identity := ls_identity ls;
     pa_volumeNamePrefix := volumeNamePrefix f;
     pa_volumeNameUUIDLength := volumeNameUUIDLength f;
     pa_grpcClient := dr_grpcClient dr;
     pa_driverName := dr_provisionerName dr;
     pa_pluginCapabilities := ls_pluginCapabilities ls;
     pa_controllerCapabilities := ls_controllerCapabilities ls;
     pa_supportsMigrationFromInTreePluginName :=
       dr_supportsMigrationFromInTreePluginName dr;
     pa_strictTopology := strictTopology f;
     pa_immediateTopology := immediateTopology f;
     pa_scLister := ls_scLister ls;
     pa_csiNodeLister := ls_csiNodeLister ls;
     pa_nodeLister := ls_nodeLister ls;
     pa_claimLister := ls_claimLister ls;
     pa_vaLister := ls_vaLister ls;
     pa_extraCreateMetadata := extraCreateMetadata f;
     pa_defaultFSType := defaultFSType f;
     pa_nodeDeployment := ls_nodeDeployment ls |}.

(** Lines 353-398: the claim informer, the options of the provision
    controller, and [ctrl.NewCSIProvisioner], which returns the provisioner
    and no error. *)
Definition provisioner (dr : Driver) (ls : Listers) : M Provisioning :=
  claimInformer <- informerFor SharedFactory PersistentVolumeClaims ;;
  emit (EvNewCSIProvisioner (provisioner_args dr ls)) ;;;
  ret {| pv_rateLimiter := rate_limiter;
         pv_claimInformer := claimInformer;
         pv_options := provisioner_options dr ls claimInformer;
         pv_csiProvisioner := CSIProvisioner (provisioner_args dr ls) |}.

(** Lines 406-423: the owner of the CSIStorageCapacity objects.
    [owner.Lookup] returns a pointer and an error; line 422 dereferences
    the pointer. *)
Definition resolve_owner (namespace : string) : M (option OwnerReference) :=
  if (0 <=? capacityOwnerrefLevel f)%Z
  then
    podName <- getenv e "POD_NAME" ;;
    when (String.eqb podName "") (fatal need_POD_NAME) ;;;
    emit (EvOwnerLookup namespace podName (capacityOwnerrefLevel f)) ;;;
    match OwnerLookup w namespace podName (capacityOwnerrefLevel f) with
    | (_, Some err) => fatal ("look up owner(s) of pod: " +:+ err)
    | (None, None) => halt NilDereference
    | (Some controller, None) => ret (Some controller)
    end
  else ret None.

(** Modelled from the spec: [topology.NewNodeTopology] of [pkg/capacity/topology]
    is not part of the file; the live topology "subscribes to two live
    caches (nodes, node-capability records)", so it obtains the informers
    of the two handles it is given. *)
Definition newNodeTopology (driver : string) (nodes csiNodes : Handle)
  : M TopologyInformer :=
  emit (EvNewNodeTopology driver nodes csiNodes) ;;;
  register nodes ;;;
  register csiNodes ;;;
  ret (NodeTopology driver nodes csiNodes "csitopology").

(** Lines 435-442: the fixed segment of a node-local deployment;
    [for key, value := range Segments] in the order of the map. *)
Definition fixed_segment (nd : NodeDeployment) : list (string * string) :=
  match AccessibleTopology (nd_NodeInfo nd) with
  | Some segments => map_to_list segments
  | None => []
  end.

(** Lines 425-444: the topology source of the capacity controller and its
    worker. *)
Definition topology_informer (dr : Driver) (nodeDeployment : option NodeDeployment)
  : M TopologyInformer :=
  topologyInformer <-
    match nodeDeployment with
    | None =>
        newNodeTopology (dr_provisionerName dr)
          (SharedFactory, Nodes) (SharedFactory, CSINodes)
    | Some nd =>
        emit (EvNewFixedNodeTopology (fixed_segment nd)) ;;;
        ret (FixedNodeTopology (fixed_segment nd))
    end ;;
  emit (EvGoRunWorker topologyInformer) ;;;
  ret topologyInformer.

Record Capacity := {
  cp_factoryForNamespace : bool;        (* false: the variable is nil *)
  cp_capacityController : option CapacityArgs;
  cp_csiProvisioner : Provisioner
}.

(** Modelled from the spec: [capacity.NewCentralCapacityController] of
    [pkg/capacity] is not part of the file; it returns the controller built
    from its arguments (never nil) and obtains the informers of the two
    informer handles it is given. *)
Definition newCentralCapacityController (args : CapacityArgs) : M CapacityArgs :=
  emit (EvNewCentralCapacityController args) ;;;
  register (ca_scInformer args) ;;;
  register (ca_cInformer args) ;;;
  ret args.

(** Lines 446-449. *)
Definition managed_by_id (su : Setup) : string :=
  if enableNodeDeployment f
  then "external-provisioner" +:+ "-" +:+ su_node su
  else "external-provisioner".

(** Lines 465-479: the arguments of [capacity.NewCentralCapacityController]. *)
Definition capacity_args (su : Setup) (dr : Driver) (namespace : string)
    (controller : option OwnerReference) (topologyInformer : TopologyInformer)
  : CapacityArgs :=
  {| ca_grpcClient := dr_grpcClient dr;
     ca_driverName := dr_provisionerName dr;
     ca_queue := "csistoragecapacity";
     ca_owner := controller;
     ca_managedByID := managed_by_id su;
     ca_namespace := namespace;
     ca_topologyInformer := topologyInformer;
     ca_scInformer := (SharedFactory, StorageClasses);
     ca_cInformer := (NamespaceFactory, CSIStorageCapacities);
     ca_pollInterval := capacityPollInterval f;
     ca_immediateBinding := capacityImmediateBinding f |}.

(** Lines 400-484: the capacity controller, built only with
    [--enable-capacity]. *)
Definition capacity_controller (su : Setup) (dr : Driver) (ls : Listers)
    (pv : Provisioning) : M Capacity :=
  if enableCapacity f
  then
    namespace <- getenv e "NAMESPACE" ;;
    when (String.eqb namespace "") (fatal need_NAMESPACE) ;;;
    controller <- resolve_owner namespace ;;
    topologyInformer <- topology_informer dr (ls_nodeDeployment ls) ;;
    emit (EvNewInformerFactoryWithOptions NamespaceFactory namespace
            [(DriverNameLabel, dr_provisionerName dr);
             (ManagedByLabel, managed_by_id su)]) ;;;
    capacityController <-
      newCentralCapacityController
        (capacity_args su dr namespace controller topologyInformer) ;;
    emit EvCustomMustRegister ;;;
    emit EvNewProvisionWrapper ;;;
    ret {| cp_factoryForNamespace := true;
           cp_capacityController := Some capacityController;
           cp_csiProvisioner :=
             ProvisionWrapper (pv_csiProvisioner pv) capacityController |}
  else
    ret {| cp_factoryForNamespace := false;
           cp_capacityController := None;
           cp_csiProvisioner := pv_csiProvisioner pv |}.

(** Everything the [run] closure captures. *)
Record Assembly := {
  as_provisionerName : string;
  as_config : RestConfig;
  as_factoryForNamespace : bool;
  as_capacityController : option CapacityArgs;
  as_csiClaimController : bool          (* false: the pointer is nil *)
}.

(** Line 514: [mux.Handle(pattern, handler)] on the mux of line 245.
    [http.ServeMux.Handle] (of the Go releases that this code was written
    for, which take the pattern as a plain path) panics on an empty
    pattern, on a nil handler and on a pattern that is registered already.
    The handler of line 515 is never nil, and nothing is registered on the
    mux between lines 245 and 514, so that here the call panics exactly on
    the empty pattern. *)
Definition muxHandle (pattern : string) : M unit :=
  emit (EvMuxHandle pattern) ;;;
  if String.eqb pattern "" then halt (Panic invalid_pattern) else ret tt.

(** Lines 486-525: the provision controller, the cloning-protection
    controller (its constructor may return nil), and the diagnostics
    server.  The server itself runs in the goroutine of lines 518-524:
    the [go] statement is logged, and neither [http.ListenAndServe] nor
    the [klog.Fatalf] that follows its failure is part of the run of
    [main] that is modelled here. *)
Definition controllers (su : Setup) (dr : Driver) (ls : Listers)
    (pv : Provisioning) (cp : Capacity) : M Assembly :=
  emit (EvNewProvisionController (dr_provisionerName dr) (cp_csiProvisioner cp)
          (su_gitVersion su) (pv_options pv)) ;;;
  emit (EvNewCloningProtectionController (ls_controllerCapabilities ls)) ;;;
  let csiClaimController :=
    CloningProtectionControllerBuilt w (ls_controllerCapabilities ls) in
  when (nonempty addr)
       (muxHandle (metricsPath f) ;;; emit (EvGoListenAndServe addr)) ;;;
  ret {| as_provisionerName := dr_provisionerName dr;
         as_config := su_config su;
         as_factoryForNamespace := cp_factoryForNamespace cp;
         as_capacityController := cp_capacityController cp;
         as_csiClaimController := csiClaimController |}.

(** Lines 125-525: everything before the [run] closure. *)
Definition assemble : M Assembly :=
  su <- configure ;;
  dr <- identify ;;
  ls <- listers su dr ;;
  pv <- provisioner dr ls ;;
  cp <- capacity_controller su dr ls pv ;;
  controllers su dr ls pv cp.

(** Lines 527-548: the [run] closure. *)
Definition run (asm : Assembly) : M unit :=
  factoryStart SharedFactory ;;;
  when (as_factoryForNamespace asm) (factoryStart NamespaceFactory) ;;;
  cacheSyncResult <- waitForCacheSync w SharedFactory ;;
  check_synced cacheSyncResult ;;;
  when (bool_decide (is_Some (as_capacityController asm)))
       (emit (EvGoCapacityControllerRun (int_of_uint (capacityThreads f)))) ;;;
  when (as_csiClaimController asm)
       (emit (EvGoCloningProtectionControllerRun (int_of_uint (finalizerThreads f)))) ;;;
  emit EvProvisionControllerRun.

(** [strings.Replace(provisionerName, "/", "-", -1)]. *)
Fixpoint replace_slash (s : string) : string :=
  match s with
  | EmptyString => EmptyString
  | String c rest =>
      String (if Ascii.eqb c "/"%char then "-"%char else c) (replace_slash rest)
  end.

(** Lines 550-575: run directly, or hand [run] to the election.
    [le.PrepareHealthCheck] is logged as a call: the pattern that it
    registers on the mux is in the election library, not in this file. *)
Definition coordinate (asm : Assembly) : M unit :=
  if negb (enableLeaderElection f)
  then run asm
  else
    let lockName := replace_slash (as_provisionerName asm) in
    emit (EvNewClientset (as_config asm)) ;;;
    match NewLeaderElectionClientset w with
    | Some err => fatal ("Failed to create leaderelection client: " +:+ err)
    | None => ret tt
    end ;;;
    emit (EvNewLeaderElection lockName) ;;;
    when (nonempty (httpEndpoint f)) (emit EvPrepareHealthCheck) ;;;
    when (nonempty (leaderElectionNamespace f))
         (emit (EvWithNamespace (leaderElectionNamespace f))) ;;;
    emit EvLeaderElectionRun ;;;
    when (le_invokes_run (LeaderElectionRun w)) (run asm) ;;;
    match le_error (LeaderElectionRun w) with
    | Some err => fatal ("failed to initialize leader election: " +:+ err)
    | None => ret tt
    end.

Definition main_M : M unit :=
  asm <- assemble ;;
  coordinate asm.

End Main.

(** One run of the program: how it ended and the final state.  [inl tt]
    is the run that no exit and no fatal error ended: [main] got through
    its last statement. *)
Definition main (f : Flags) (e : Env) (w : World) : (unit + Halt) * State :=
  main_M f e w initial_state.

Definition outcome (f : Flags) (e : Env) (w : World) : unit + Halt :=
  fst (main f e w).

Definition calls (f : Flags) (e : Env) (w : World) : list Event :=
  log (snd (main f e w)).

(** * The vocabulary of the properties *)

(** ** Logs and results *)

(** [triple m Q]: from any state, [m] appends some events [t] to the log
    and ends with a result [r] such that [Q t r]. *)
Definition triple {A} (m : M A) (Q : list Event -> A + Halt -> Prop) : Prop :=
  forall s, exists t, log (snd (m s)) = (log s ++ t)%list /\ Q t (fst (m s)).

(** Every event of the log [t] is of kind [p]. *)
Definition only (p : Event -> bool) (t : list Event) : Prop :=
  Forall (fun ev => p ev = true) t.

(** The events that are not of kind [p]. *)
Definition without (p : Event -> bool) (ev : Event) : bool := negb (p ev).

(** The postcondition of [x <- m ;; k x]: the log of [m], then, if [m]
    returned, the log of [k]. *)
Definition seq_post {A B} (Q : list Event -> A + Halt -> Prop)
    (K : A -> list Event -> B + Halt -> Prop)
    (t : list Event) (r : B + Halt) : Prop :=
  exists t1 r1,
    Q t1 r1 /\
    match r1 with
    | inr h => t = t1 /\ r = inr h
    | inl a => exists t2, t = (t1 ++ t2)%list /\ K a t2 r
    end.

(** A footprint [p] and a path description [Q] together. *)
Definition both {A} (p : Event -> bool) (Q : list Event -> A + Halt -> Prop)
    (t : list Event) (r : A + Halt) : Prop :=
  only p t /\ Q t r.

(** How many events of kind [p] the log [l] holds. *)
Definition count_events (p : Event -> bool) (l : list Event) : nat :=
  length (List.filter p l).

(** ** Which events each part of [main] can log *)

(** Lines 125-187. *)
Definition configure_event (ev : Event) : bool :=
  match ev with
  | EvSetFeatureGates _ | EvPrintVersion | EvLogError _
  | EvBuildConfigFromFlags _ _ | EvInClusterConfig
  | EvNewClientset _ | EvNewSnapshotClient _ | EvServerVersion => true
  | EvGetenv name => String.eqb name "NODE_NAME" || String.eqb name "KUBECONFIG"
  | _ => false
  end.

(** Lines 189-242. *)
Definition identify_event (ev : Event) : bool :=
  match ev with
  | EvNewMetricsManager _ _ | EvSetDriverName _ _ | EvConnect _ _
  | EvCloseConn _ | EvProbe _ _ | EvGetDriverName _ _ | EvLogError _ => true
  | _ => false
  end.

(** Lines 258-349. *)
Definition listers_event (ev : Event) : bool :=
  match ev with
  | EvGetDriverCapabilities _ _ | EvGetNodeInfo _ _
  | EvNewInformerFactory _ | EvInformerFor _ _ | EvStoreAdd _ _ _ => true
  | _ => false
  end.

(** Lines 353-398. *)
Definition provisioner_event (ev : Event) : bool :=
  match ev with
  | EvInformerFor SharedFactory PersistentVolumeClaims
  | EvNewCSIProvisioner _ => true
  | _ => false
  end.

(** Lines 400-484. *)
Definition capacity_event (ev : Event) : bool :=
  match ev with
  | EvGetenv name => String.eqb name "NAMESPACE" || String.eqb name "POD_NAME"
  | EvOwnerLookup _ _ _ | EvNewNodeTopology _ _ _ | EvNewFixedNodeTopology _
  | EvGoRunWorker _ | EvNewInformerFactoryWithOptions _ _ _
  | EvNewCentralCapacityController _ | EvCustomMustRegister
  | EvNewProvisionWrapper => true
  | _ => false
  end.

(** Lines 486-525. *)
Definition controllers_event (ev : Event) : bool :=
  match ev with
  | EvNewProvisionController _ _ _ _ | EvNewCloningProtectionController _
  | EvMuxHandle _ | EvGoListenAndServe _ => true
  | _ => false
  end.

(** The events of lines 125-525. *)
Definition assemble_event (ev : Event) : bool :=
  configure_event ev || identify_event ev || listers_event ev
  || provisioner_event ev || capacity_event ev || controllers_event ev.

(** The events of the [run] closure. *)
Definition run_event (ev : Event) : bool :=
  match ev with
  | EvFactoryStart _ _ | EvWaitForCacheSync _ _ => true
  | _ => is_controller_run ev
  end.

(** The events of the election branch of lines 550-575, [run] apart. *)
Definition election_event (ev : Event) : bool :=
  match ev with
  | EvNewClientset _ | EvNewLeaderElection _ | EvPrepareHealthCheck
  | EvWithNamespace _ | EvLeaderElectionRun => true
  | _ => false
  end.

(** The events that only the election branch logs. *)
Definition election_only_event (ev : Event) : bool :=
  match ev with
  | EvNewLeaderElection _ | EvPrepareHealthCheck
  | EvWithNamespace _ | EvLeaderElectionRun => true
  | _ => false
  end.

(** Everything that is logged outside of [run]. *)
Definition before_run (ev : Event) : bool := negb (run_event ev).

(** Everything but the run loops of the sub-controllers. *)
Definition not_loop (ev : Event) : bool := negb (is_controller_run ev).

(** ** Kinds of events that the properties speak of *)

(** What can be logged up to the check of the two endpoint flags. *)
Definition early_event (ev : Event) : bool :=
  match ev with
  | EvSetFeatureGates _ | EvPrintVersion => true
  | EvGetenv name => String.eqb name "NODE_NAME"
  | EvLogError msg => String.eqb msg only_one_endpoint
  | _ => false
  end.

(** The diagnostics server: a path put on the mux, the listener. *)
Definition server_event (ev : Event) : bool :=
  match ev with
  | EvMuxHandle _ | EvGoListenAndServe _ => true
  | _ => false
  end.

(** [ctrl.Connect] and [ctrl.Probe]. *)
Definition is_connect (ev : Event) : bool :=
  match ev with EvConnect _ _ => true | _ => false end.

Definition is_probe (ev : Event) : bool :=
  match ev with EvProbe _ _ => true | _ => false end.

(** [os.Getenv("POD_NAME")] and [owner.Lookup]. *)
Definition is_pod_name_read (ev : Event) : bool :=
  match ev with EvGetenv name => String.eqb name "POD_NAME" | _ => false end.

Definition is_owner_lookup (ev : Event) : bool :=
  match ev with EvOwnerLookup _ _ _ => true | _ => false end.

(** Asking a factory for the Node or CSINode informer, or building the
    live node topology over them. *)
Definition topology_cache_event (ev : Event) : bool :=
  match ev with
  | EvInformerFor _ Nodes | EvInformerFor _ CSINodes
  | EvNewNodeTopology _ _ _ => true
  | _ => false
  end.

(** [ctrl.NewCSIProvisioner]. *)
Definition is_new_provisioner (ev : Event) : bool :=
  match ev with EvNewCSIProvisioner _ => true | _ => false end.

(** ** What each part of [main] logs, path by path *)

Section Paths.

Variable f : Flags.
Variable e : Env.
Variable w : World.

Definition kube_event (ev : Event) : bool :=
  match ev with
  | EvBuildConfigFromFlags _ _ | EvInClusterConfig
  | EvNewClientset _ | EvNewSnapshotClient _ | EvServerVersion => true
  | _ => false
  end.

(** Lines 125-187. *)
Definition configure_post (t : list Event) (r : Setup + Halt) : Prop :=
  let node := getenv_value e "NODE_NAME" in
  match SetFromMap w (featureGates f) with
  | Some err =>
      t = [EvSetFeatureGates (featureGates f)] /\ r = inr (KlogFatal err)
  | None =>
      if enableNodeDeployment f && String.eqb node ""
      then t = [EvSetFeatureGates (featureGates f); EvGetenv "NODE_NAME"] /\
           r = inr (KlogFatal need_NODE_NAME)
      else if showVersion f
      then t = [EvSetFeatureGates (featureGates f); EvGetenv "NODE_NAME";
                EvPrintVersion] /\
           r = inr (Exit 0)
      else if nonempty (metricsAddress f) && nonempty (httpEndpoint f)
      then t = [EvSetFeatureGates (featureGates f); EvGetenv "NODE_NAME";
                EvLogError only_one_endpoint] /\
           r = inr (Exit 1)
      else exists t',
             t = ([EvSetFeatureGates (featureGates f); EvGetenv "NODE_NAME";
                   EvGetenv "KUBECONFIG"] ++ t')%list /\
             only kube_event t' /\
             match r with
             | inl su => su_node su = node
             | inr h => exists msg, h = KlogFatal msg
             end
  end.

Definition identify_base (name : string) : list Event :=
  [ EvNewMetricsManager SidecarManager "";
    EvConnect (csiEndpoint f) SidecarManager;
    EvProbe SidecarManager (operationTimeout f);
    EvGetDriverName SidecarManager (operationTimeout f);
    EvSetDriverName SidecarManager name ].

(** Lines 189-242. *)
Definition identify_post (t : list Event) (r : Driver + Halt) : Prop :=
  match Connect w (csiEndpoint f) SidecarManager with
  | Some err =>
      t = [EvNewMetricsManager SidecarManager "";
           EvConnect (csiEndpoint f) SidecarManager; EvLogError err] /\
      r = inr (Exit 1)
  | None =>
  match Probe w SidecarManager with
  | Some err =>
      t = [EvNewMetricsManager SidecarManager "";
           EvConnect (csiEndpoint f) SidecarManager;
           EvProbe SidecarManager (operationTimeout f); EvLogError err] /\
      r = inr (Exit 1)
  | None =>
  match GetDriverName w SidecarManager with
  | Err err =>
      t = [EvNewMetricsManager SidecarManager "";
           EvConnect (csiEndpoint f) SidecarManager;
           EvProbe SidecarManager (operationTimeout f);
           EvGetDriverName SidecarManager (operationTimeout f)] /\
      r = inr (KlogFatal ("Error getting CSI driver name: " +:+ err))
  | Ok name =>
  if IsMigratedCSIDriverByName w name
  then
    match GetInTreeNameFromCSIName w name with
    | Err err =>
        t = identify_base name /\
        r = inr (KlogFatal
                   ("Failed to get InTree plugin name for migrated CSI plugin "
                      +:+ name +:+ ": " +:+ err))
    | Ok inTree =>
    match Connect w (csiEndpoint f) MigratedManager with
    | Some err =>
        t = (identify_base name ++
             [EvNewMetricsManager MigratedManager name;
              EvConnect (csiEndpoint f) MigratedManager;
              EvLogError err])%list /\
        r = inr (Exit 1)
    | None =>
    match Probe w MigratedManager with
    | Some err =>
        t = (identify_base name ++
             [EvNewMetricsManager MigratedManager name;
              EvConnect (csiEndpoint f) MigratedManager;
              EvCloseConn SidecarManager;
              EvProbe MigratedManager (operationTimeout f);
              EvLogError err])%list /\
        r = inr (Exit 1)
    | None =>
        t = (identify_base name ++
             [EvNewMetricsManager MigratedManager name;
              EvConnect (csiEndpoint f) MigratedManager;
              EvCloseConn SidecarManager;
              EvProbe MigratedManager (operationTimeout f)])%list /\
        r = inl {| dr_grpcClient := MigratedManager;
                   dr_provisionerName := name;
                   dr_supportsMigrationFromInTreePluginName := inTree |}
    end end end
  else
    t = identify_base name /\
    r = inl {| dr_grpcClient := SidecarManager;
               dr_provisionerName := name;
               dr_supportsMigrationFromInTreePluginName := "" |}
  end end end.

Definition va_events (controllerCapabilities : gmap Z bool) : list Event :=
  if has_capability controllerCapabilities
       ControllerServiceCapability_RPC_PUBLISH_UNPUBLISH_VOLUME
  then [EvInformerFor SharedFactory VolumeAttachments]
  else [].

Definition va_lister (controllerCapabilities : gmap Z bool) : option Handle :=
  if has_capability controllerCapabilities
       ControllerServiceCapability_RPC_PUBLISH_UNPUBLISH_VOLUME
  then Some (SharedFactory, VolumeAttachments)
  else None.

Definition listers_head (dr : Driver) (caps : gmap Z bool * gmap Z bool)
  : list Event :=
  ([EvGetDriverCapabilities (dr_grpcClient dr) (operationTimeout f);
    EvNewInformerFactory SharedFactory;
    EvInformerFor SharedFactory StorageClasses;
    EvInformerFor SharedFactory PersistentVolumeClaims] ++
   va_events (snd caps))%list.

Definition local_topology_events (dr : Driver) (nd : NodeDeployment)
  : list Event :=
  [ EvNewInformerFactory StoppedFactory;
    EvInformerFor StoppedFactory CSINodes;
    EvStoreAdd StoppedFactory CSINodes
      (fake_csi_node (dr_provisionerName dr) nd);
    EvInformerFor StoppedFactory Nodes;
    EvStoreAdd StoppedFactory Nodes (fake_node nd);
    EvInformerFor StoppedFactory CSINodes;
    EvInformerFor StoppedFactory Nodes ].

Definition listers_of (su : Setup) (dr : Driver)
    (caps : gmap Z bool * gmap Z bool)
    (nodeDeployment : option NodeDeployment)
    (topo : option Handle * option Handle) : Listers :=
  listers_result f w su dr caps
    (SharedFactory, StorageClasses) (SharedFactory, PersistentVolumeClaims)
    (va_lister (snd caps)) nodeDeployment topo.

(** Lines 258-349. *)
Definition listers_post (su : Setup) (dr : Driver)
    (t : list Event) (r : Listers + Halt) : Prop :=
  match GetDriverCapabilities w (dr_grpcClient dr) with
  | Err err =>
      t = [EvGetDriverCapabilities (dr_grpcClient dr) (operationTimeout f)] /\
      r = inr (KlogFatal ("Error getting CSI driver capabilities: " +:+ err))
  | Ok caps =>
      if enableNodeDeployment f
      then
        match GetNodeInfo w (dr_grpcClient dr) with
        | Err err =>
            t = (listers_head dr caps ++
                 [EvGetNodeInfo (dr_grpcClient dr) (operationTimeout f)])%list /\
            r = inr (KlogFatal
                       ("Failed to get node info from CSI driver: " +:+ err))
        | Ok nodeInfo =>
            let nd := node_deployment f su nodeInfo in
            if SupportsTopology w (fst caps)
            then
              t = (listers_head dr caps ++
                   [EvGetNodeInfo (dr_grpcClient dr) (operationTimeout f)] ++
                   local_topology_events dr nd)%list /\
              r = inl (listers_of su dr caps (Some nd)
                         (Some (StoppedFactory, CSINodes),
                          Some (StoppedFactory, Nodes)))
            else
              t = (listers_head dr caps ++
                   [EvGetNodeInfo (dr_grpcClient dr) (operationTimeout f)])%list /\
              r = inl (listers_of su dr caps (Some nd) (None, None))
        end
      else
        if SupportsTopology w (fst caps)
        then
          t = (listers_head dr caps ++
               [EvInformerFor SharedFactory CSINodes;
                EvInformerFor SharedFactory Nodes])%list /\
          r = inl (listers_of su dr caps None
                     (Some (SharedFactory, CSINodes),
                      Some (SharedFactory, Nodes)))
        else
          t = listers_head dr caps /\
          r = inl (listers_of su dr caps None (None, None))
  end.

(** Lines 353-398: [ctrl.NewCSIProvisioner] is always reached and always
    returns. *)
Definition provisioner_post (dr : Driver) (ls : Listers)
    (t : list Event) (r : Provisioning + Halt) : Prop :=
  t = [EvInformerFor SharedFactory PersistentVolumeClaims;
       EvNewCSIProvisioner (provisioner_args f dr ls)] /\
  r = inl {| pv_rateLimiter := rate_limiter f;
             pv_claimInformer := (SharedFactory, PersistentVolumeClaims);
             pv_options :=
               provisioner_options f dr ls
                 (SharedFactory, PersistentVolumeClaims);
             pv_csiProvisioner := CSIProvisioner (provisioner_args f dr ls) |}.

(** The topology source of the capacity controller: live without node
    deployment, fixed with it. *)
Definition topology_of (dr : Driver) (nodeDeployment : option NodeDeployment)
  : TopologyInformer :=
  match nodeDeployment with
  | None =>
      NodeTopology (dr_provisionerName dr)
        (SharedFactory, Nodes) (SharedFactory, CSINodes) "csitopology"
  | Some nd => FixedNodeTopology (fixed_segment nd)
  end.

Definition topology_events (dr : Driver) (nodeDeployment : option NodeDeployment)
  : list Event :=
  match nodeDeployment with
  | None =>
      [EvNewNodeTopology (dr_provisionerName dr)
         (SharedFactory, Nodes) (SharedFactory, CSINodes)]
  | Some nd => [EvNewFixedNodeTopology (fixed_segment nd)]
  end.

(** Lines 425-484, once the owner is known. *)
Definition capacity_built (su : Setup) (dr : Driver) (ls : Listers)
    (pv : Provisioning) (namespace : string) (owner : option OwnerReference)
    (head t : list Event) (r : Capacity + Halt) : Prop :=
  let topo := topology_of dr (ls_nodeDeployment ls) in
  let args := capacity_args f su dr namespace owner topo in
  t = (head ++ topology_events dr (ls_nodeDeployment ls) ++
       [EvGoRunWorker topo;
        EvNewInformerFactoryWithOptions NamespaceFactory namespace
          [(DriverNameLabel, dr_provisionerName dr);
           (ManagedByLabel, managed_by_id f su)];
        EvNewCentralCapacityController args;
        EvCustomMustRegister;
        EvNewProvisionWrapper])%list /\
  r = inl {| cp_factoryForNamespace := true;
             cp_capacityController := Some args;
             cp_csiProvisioner := ProvisionWrapper (pv_csiProvisioner pv) args |}.

(** Lines 400-484. *)
Definition capacity_post (su : Setup) (dr : Driver) (ls : Listers)
    (pv : Provisioning) (t : list Event) (r : Capacity + Halt) : Prop :=
  let namespace := getenv_value e "NAMESPACE" in
  let podName := getenv_value e "POD_NAME" in
  let level := capacityOwnerrefLevel f in
  if enableCapacity f
  then
    if String.eqb namespace ""
    then t = [EvGetenv "NAMESPACE"] /\ r = inr (KlogFatal need_NAMESPACE)
    else
      if (0 <=? level)%Z
      then
        if String.eqb podName ""
        then t = [EvGetenv "NAMESPACE"; EvGetenv "POD_NAME"] /\
             r = inr (KlogFatal need_POD_NAME)
        else
          match OwnerLookup w namespace podName level with
          | (_, Some err) =>
              t = [EvGetenv "NAMESPACE"; EvGetenv "POD_NAME";
                   EvOwnerLookup namespace podName level] /\
              r = inr (KlogFatal ("look up owner(s) of pod: " +:+ err))
          | (None, None) =>
              t = [EvGetenv "NAMESPACE"; EvGetenv "POD_NAME";
                   EvOwnerLookup namespace podName level] /\
              r = inr NilDereference
          | (Some controller, None) =>
              capacity_built su dr ls pv namespace (Some controller)
                [EvGetenv "NAMESPACE"; EvGetenv "POD_NAME";
                 EvOwnerLookup namespace podName level] t r
          end
      else capacity_built su dr ls pv namespace None [EvGetenv "NAMESPACE"] t r
  else
    t = [] /\
    r = inl {| cp_factoryForNamespace := false;
               cp_capacityController := None;
               cp_csiProvisioner := pv_csiProvisioner pv |}.

Definition server_events : list Event :=
  if nonempty (addr f)
  then [EvMuxHandle (metricsPath f); EvGoListenAndServe (addr f)]
  else [].

(** Lines 486-525, when [mux.Handle] accepts the pattern or is not
    called. *)
Definition controllers_post (su : Setup) (dr : Driver) (ls : Listers)
    (pv : Provisioning) (cp : Capacity)
    (t : list Event) (r : Assembly + Halt) : Prop :=
  t = ([EvNewProvisionController (dr_provisionerName dr) (cp_csiProvisioner cp)
          (su_gitVersion su) (pv_options pv);
        EvNewCloningProtectionController (ls_controllerCapabilities ls)] ++
       server_events)%list /\
  r = inl {| as_provisionerName := dr_provisionerName dr;
             as_config := su_config su;
             as_factoryForNamespace := cp_factoryForNamespace cp;
             as_capacityController := cp_capacityController cp;
             as_csiClaimController :=
               CloningProtectionControllerBuilt w (ls_controllerCapabilities ls) |}.

(** Whether line 514 is reached with a pattern that [mux.Handle] rejects. *)
Definition mux_panics : bool :=
  nonempty (addr f) && String.eqb (metricsPath f) "".

(** Lines 486-514, when [mux.Handle] panics. *)
Definition controllers_panic_post (su : Setup) (dr : Driver) (ls : Listers)
    (pv : Provisioning) (cp : Capacity)
    (t : list Event) (r : Assembly + Halt) : Prop :=
  t = [EvNewProvisionController (dr_provisionerName dr) (cp_csiProvisioner cp)
         (su_gitVersion su) (pv_options pv);
       EvNewCloningProtectionController (ls_controllerCapabilities ls);
       EvMuxHandle (metricsPath f)] /\
  r = inr (Panic invalid_pattern).

(** Lines 486-525, path by path. *)
Definition controllers_paths_post (su : Setup) (dr : Driver) (ls : Listers)
    (pv : Provisioning) (cp : Capacity)
    (t : list Event) (r : Assembly + Halt) : Prop :=
  if mux_panics
  then controllers_panic_post su dr ls pv cp t r
  else controllers_post su dr ls pv cp t r.

End Paths.

(** ** The [run] closure and the election branch *)

Definition run_loops (f : Flags) (asm : Assembly) : list Event :=
  ((if bool_decide (is_Some (as_capacityController asm))
    then [EvGoCapacityControllerRun (int_of_uint (capacityThreads f))]
    else []) ++
   (if as_csiClaimController asm
    then [EvGoCloningProtectionControllerRun (int_of_uint (finalizerThreads f))]
    else []) ++
   [EvProvisionControllerRun])%list.

(** What one call of [run] logs and how it ends: the shared factory starts
    the informers [rs]; every one of them is in the result [res] of the
    wait, with the flag its cache reported; the run loops follow only if
    every flag of [res] is set. *)
Definition run_post (f : Flags) (w : World) (asm : Assembly)
    (t : list Event) (r : unit + Halt) : Prop :=
  exists rs t_ns res t_loops,
    t = ([EvFactoryStart SharedFactory rs] ++ t_ns ++
         [EvWaitForCacheSync SharedFactory res] ++ t_loops)%list /\
    only (fun ev => match ev with
                    | EvFactoryStart NamespaceFactory _ => true
                    | _ => false
                    end) t_ns /\
    (forall x, In x rs -> In (x, CacheSynced w x) res) /\
    (forall x b, In (x, b) res -> b = CacheSynced w x) /\
    (if forallb snd res
     then r = inl tt /\ t_loops = run_loops f asm
     else r = inr (KlogFatal failed_to_sync) /\ t_loops = []).

Definition le_prefix (f : Flags) (asm : Assembly) : list Event :=
  ([EvNewClientset (as_config asm);
    EvNewLeaderElection (replace_slash (as_provisionerName asm))] ++
   (if nonempty (httpEndpoint f) then [EvPrepareHealthCheck] else []) ++
   (if nonempty (leaderElectionNamespace f)
    then [EvWithNamespace (leaderElectionNamespace f)] else []) ++
   [EvLeaderElectionRun])%list.

Definition le_result (w : World) : unit + Halt :=
  match le_error (LeaderElectionRun w) with
  | Some err => inr (KlogFatal ("failed to initialize leader election: " +:+ err))
  | None => inl tt
  end.

(** What lines 550-575 log and how they end. *)
Definition coordinate_post (f : Flags) (w : World) (asm : Assembly)
    (t : list Event) (r : unit + Halt) : Prop :=
  if enableLeaderElection f
  then
    match NewLeaderElectionClientset w with
    | Some err =>
        t = [EvNewClientset (as_config asm)] /\
        r = inr (KlogFatal ("Failed to create leaderelection client: " +:+ err))
    | None =>
        exists t_run,
          t = (le_prefix f asm ++ t_run)%list /\
          if le_invokes_run (LeaderElectionRun w)
          then exists r', run_post f w asm t_run r' /\
                          r = match r' with
                              | inr h => inr h
                              | inl _ => le_result w
                              end
          else t_run = [] /\ r = le_result w
    end
  else run_post f w asm t r.

(** ** The whole of [main] *)

(** The log of lines 125-525, part by part: [Q1] for lines 125-187, [Q2]
    for 189-242, [Q3] for 258-349, [Q4] for 353-398, [Q5] for 400-484 and
    [Q6] for 486-525. *)
Definition chain
    (Q1 : list Event -> Setup + Halt -> Prop)
    (Q2 : Setup -> list Event -> Driver + Halt -> Prop)
    (Q3 : Setup -> Driver -> list Event -> Listers + Halt -> Prop)
    (Q4 : Setup -> Driver -> Listers ->
          list Event -> Provisioning + Halt -> Prop)
    (Q5 : Setup -> Driver -> Listers -> Provisioning ->
          list Event -> Capacity + Halt -> Prop)
    (Q6 : Setup -> Driver -> Listers -> Provisioning -> Capacity ->
          list Event -> Assembly + Halt -> Prop)
  : list Event -> Assembly + Halt -> Prop :=
  seq_post Q1 (fun su =>
  seq_post (Q2 su) (fun dr =>
  seq_post (Q3 su dr) (fun ls =>
  seq_post (Q4 su dr ls) (fun pv =>
  seq_post (Q5 su dr ls pv) (fun cp =>
  Q6 su dr ls pv cp))))).

(** A whole run: for each part of lines 125-525 that was reached, the
    events it may log and the path it took; then lines 550-575. *)
Definition main_facts (f : Flags) (e : Env) (w : World)
  : list Event -> unit + Halt -> Prop :=
  seq_post
    (chain (both configure_event (configure_post f e w))
           (fun _ => both identify_event (identify_post f w))
           (fun su dr => both listers_event (listers_post f w su dr))
           (fun _ dr ls => both provisioner_event (provisioner_post f dr ls))
           (fun su dr ls pv =>
              both capacity_event (capacity_post f e w su dr ls pv))
           (fun su dr ls pv cp =>
              both controllers_event
                   (controllers_paths_post f w su dr ls pv cp)))
    (coordinate_post f w).

(** The runs of [main], by the part in which they stopped: the run
    whose assembly was completed; the runs that stopped in lines 400-484,
    353-398, 258-349, 189-242 and 125-187; and the run in which
    [mux.Handle] panicked.  [Q1] describes lines 125-187 and [R] lines
    550-575. *)
Definition main_cases (f : Flags) (e : Env) (w : World)
    (Q1 : list Event -> Setup + Halt -> Prop)
    (R : Assembly -> list Event -> unit + Halt -> Prop)
    (t : list Event) (r : unit + Halt) : Prop :=
  (exists t_conf su t_id dr t_ls ls t_pv pv t_cap cp t_ctl t_co,
     (only configure_event t_conf /\ Q1 t_conf (inl su)) /\
     (only identify_event t_id /\ identify_post f w t_id (inl dr)) /\
     (only listers_event t_ls /\ listers_post f w su dr t_ls (inl ls)) /\
     (only provisioner_event t_pv /\ provisioner_post f dr ls t_pv (inl pv)) /\
     (only capacity_event t_cap /\ capacity_post f e w su dr ls pv t_cap (inl cp)) /\
     (only controllers_event t_ctl /\
      controllers_post f w su dr ls pv cp t_ctl
        (inl {| as_provisionerName := dr_provisionerName dr;
                as_config := su_config su;
                as_factoryForNamespace := cp_factoryForNamespace cp;
                as_capacityController := cp_capacityController cp;
                as_csiClaimController :=
                  CloningProtectionControllerBuilt w
                    (ls_controllerCapabilities ls) |})) /\
     mux_panics f = false /\
     t = ((t_conf ++ t_id ++ t_ls ++ t_pv ++ t_cap ++ t_ctl) ++ t_co)%list /\
     R {| as_provisionerName := dr_provisionerName dr;
          as_config := su_config su;
          as_factoryForNamespace := cp_factoryForNamespace cp;
          as_capacityController := cp_capacityController cp;
          as_csiClaimController :=
            CloningProtectionControllerBuilt w
              (ls_controllerCapabilities ls) |}
       t_co r) \/
  (exists t_conf su t_id dr t_ls ls t_pv pv t_cap h,
     (only configure_event t_conf /\ Q1 t_conf (inl su)) /\
     (only identify_event t_id /\ identify_post f w t_id (inl dr)) /\
     (only listers_event t_ls /\ listers_post f w su dr t_ls (inl ls)) /\
     (only provisioner_event t_pv /\ provisioner_post f dr ls t_pv (inl pv)) /\
     (only capacity_event t_cap /\ capacity_post f e w su dr ls pv t_cap (inr h)) /\
     t = (t_conf ++ t_id ++ t_ls ++ t_pv ++ t_cap)%list /\
     r = inr h) \/
  (exists t_conf su t_id dr t_ls ls t_pv h,
     (only configure_event t_conf /\ Q1 t_conf (inl su)) /\
     (only identify_event t_id /\ identify_post f w t_id (inl dr)) /\
     (only listers_event t_ls /\ listers_post f w su dr t_ls (inl ls)) /\
     (only provisioner_event t_pv /\ provisioner_post f dr ls t_pv (inr h)) /\
     t = (t_conf ++ t_id ++ t_ls ++ t_pv)%list /\
     r = inr h) \/
  (exists t_conf su t_id dr t_ls h,
     (only configure_event t_conf /\ Q1 t_conf (inl su)) /\
     (only identify_event t_id /\ identify_post f w t_id (inl dr)) /\
     (only listers_event t_ls /\ listers_post f w su dr t_ls (inr h)) /\
     t = (t_conf ++ t_id ++ t_ls)%list /\
     r = inr h) \/
  (exists t_conf su t_id h,
     (only configure_event t_conf /\ Q1 t_conf (inl su)) /\
     (only identify_event t_id /\ identify_post f w t_id (inr h)) /\
     t = (t_conf ++ t_id)%list /\
     r = inr h) \/
  (exists t_conf h,
     (only configure_event t_conf /\ Q1 t_conf (inr h)) /\
     t = t_conf /\
     r = inr h) \/
  (exists t_conf su t_id dr t_ls ls t_pv pv t_cap cp t_ctl,
     (only configure_event t_conf /\ Q1 t_conf (inl su)) /\
     (only identify_event t_id /\ identify_post f w t_id (inl dr)) /\
     (only listers_event t_ls /\ listers_post f w su dr t_ls (inl ls)) /\
     (only provisioner_event t_pv /\ provisioner_post f dr ls t_pv (inl pv)) /\
     (only capacity_event t_cap /\ capacity_post f e w su dr ls pv t_cap (inl cp)) /\
     (only controllers_event t_ctl /\
      controllers_panic_post f su dr ls pv cp t_ctl
        (inr (Panic invalid_pattern))) /\
     mux_panics f = true /\
     t = (t_conf ++ t_id ++ t_ls ++ t_pv ++ t_cap ++ t_ctl)%list /\
     r = inr (Panic invalid_pattern)).

(** ** The statements *)

(** Every run loop in the log [l] comes after the shared factory started
    its informers [rs] and after a wait whose result [res] holds every one
    of them with its flag set. *)
Definition gated (l : list Event) : Prop :=
  forall pre ev post,
    l = (pre ++ ev :: post)%list -> is_controller_run ev = true ->
    exists rs res,
      In (EvFactoryStart SharedFactory rs) pre /\
      In (EvWaitForCacheSync SharedFactory res) pre /\
      (forall x, In x rs -> In (x, true) res) /\
      (forall x b, In (x, b) res -> b = true).

(** A started cache that did not sync ends the run in [klog.Fatalf], with
    no run loop in the log [l]. *)
Definition fails_closed (w : World) (l : list Event) (r : unit + Halt) : Prop :=
  forall rs x,
    In (EvFactoryStart SharedFactory rs) l -> In x rs ->
    CacheSynced w x = false ->
    r = inr (KlogFatal failed_to_sync) /\
    Forall (fun ev => is_controller_run ev = false) l.

(** What a run does once it has the driver name [name], in terms of its
    log [l] and its end [out]. *)
Definition migration_outcome (f : Flags) (w : World) (name : string)
    (l : list Event) (out : unit + Halt) : Prop :=
  if IsMigratedCSIDriverByName w name
  then
    match GetInTreeNameFromCSIName w name with
    | Err err =>
        out = inr (KlogFatal
                     ("Failed to get InTree plugin name for migrated CSI plugin "
                        +:+ name +:+ ": " +:+ err)) /\
        count_events is_connect l = 1%nat /\ count_events is_probe l = 1%nat
    | Ok inTree =>
        match Connect w (csiEndpoint f) MigratedManager with
        | Some err =>
            out = inr (Exit 1) /\
            exists pre,
              l = (pre ++ identify_base f name ++
                   [EvNewMetricsManager MigratedManager name;
                    EvConnect (csiEndpoint f) MigratedManager;
                    EvLogError err])%list
        | None =>
            match Probe w MigratedManager with
            | Some err =>
                out = inr (Exit 1) /\
                exists pre,
                  l = (pre ++ identify_base f name ++
                       [EvNewMetricsManager MigratedManager name;
                        EvConnect (csiEndpoint f) MigratedManager;
                        EvCloseConn SidecarManager;
                        EvProbe MigratedManager (operationTimeout f);
                        EvLogError err])%list
            | None =>
                (exists pre post,
                   l = (pre ++ identify_base f name ++
                        [EvNewMetricsManager MigratedManager name;
                         EvConnect (csiEndpoint f) MigratedManager;
                         EvCloseConn SidecarManager;
                         EvProbe MigratedManager (operationTimeout f)] ++
                        post)%list) /\
                count_events is_connect l = 2%nat /\
                count_events is_probe l = 2%nat
            end
        end
    end
  else
    count_events is_connect l = 1%nat /\ count_events is_probe l = 1%nat.

(** The owner of the capacity objects can be resolved: no owner is asked
    for, or POD_NAME is set and [owner.Lookup] returns an owner. *)
Definition owner_resolves (f : Flags) (e : Env) (w : World) : Prop :=
  (capacityOwnerrefLevel f < 0)%Z \/
  (getenv_value e "POD_NAME" <> "" /\
   exists controller,
     OwnerLookup w (getenv_value e "NAMESPACE") (getenv_value e "POD_NAME")
       (capacityOwnerrefLevel f) = (Some controller, None)).

Definition live_topology (driver : string) : TopologyInformer :=
  NodeTopology driver (SharedFactory, Nodes) (SharedFactory, CSINodes)
    "csitopology".

(** The log [l] holds the construction of the live topology of [driver]
    over the Node and CSINode informers of the shared factory and, right
    after it, the start of its worker; [before] and [after] are the rest
    of the log. *)
Definition starts_live_topology (driver : string)
    (before after l : list Event) : Prop :=
  l = (before ++
       [EvNewNodeTopology driver (SharedFactory, Nodes) (SharedFactory, CSINodes);
        EvGoRunWorker (live_topology driver)] ++
       after)%list.

(** ** The kube configuration and clients, path by path *)

Section Kube.

Variable f : Flags.
Variable e : Env.
Variable w : World.

(** Lines 150-155: the KUBECONFIG variable, when set, replaces the value
    of [--kubeconfig]. *)
Definition kubeconfig_path : string :=
  if nonempty (getenv_value e "KUBECONFIG")
  then getenv_value e "KUBECONFIG" else kubeconfig f.

(** Line 157. *)
Definition out_of_cluster : bool :=
  nonempty (master f) || nonempty kubeconfig_path.

(** Lines 157-169. *)
Definition config_of : RestConfig :=
  {| cfg_source :=
       if out_of_cluster then FromFlags (master f) kubeconfig_path
       else InCluster;
     cfg_QPS := kubeAPIQPS f;
     cfg_Burst := kubeAPIBurst f |}.

Definition config_event : Event :=
  if out_of_cluster then EvBuildConfigFromFlags (master f) kubeconfig_path
  else EvInClusterConfig.

Definition config_error : option string :=
  if out_of_cluster then BuildConfigFromFlags w (master f) kubeconfig_path
  else InClusterConfig w.

(** Lines 157-187, path by path. *)
Definition kube_path (t : list Event) (r : Setup + Halt) : Prop :=
  match config_error with
  | Some err =>
      t = [config_event] /\
      r = inr (KlogFatal ("Failed to create config: " +:+ err))
  | None =>
  match NewClientset w with
  | Some err =>
      t = [config_event; EvNewClientset config_of] /\
      r = inr (KlogFatal ("Failed to create client: " +:+ err))
  | None =>
  match NewSnapshotClient w with
  | Some err =>
      t = [config_event; EvNewClientset config_of;
           EvNewSnapshotClient config_of] /\
      r = inr (KlogFatal ("Failed to create snapshot client: " +:+ err))
  | None =>
  match ServerVersion w with
  | Err err =>
      t = [config_event; EvNewClientset config_of;
           EvNewSnapshotClient config_of; EvServerVersion] /\
      r = inr (KlogFatal ("Error getting server version: " +:+ err))
  | Ok gitVersion =>
      t = [config_event; EvNewClientset config_of;
           EvNewSnapshotClient config_of; EvServerVersion] /\
      r = inl {| su_node := getenv_value e "NODE_NAME";
                 su_config := config_of;
                 su_gitVersion := gitVersion |}
  end end end end.

(** Lines 125-187 in a run that gets past the checks of lines 125-143. *)
Definition configure_kube_post (t : list Event) (r : Setup + Halt) : Prop :=
  SetFromMap w (featureGates f) = None ->
  enableNodeDeployment f && String.eqb (getenv_value e "NODE_NAME") "" = false ->
  showVersion f = false ->
  nonempty (metricsAddress f) && nonempty (httpEndpoint f) = false ->
  exists t',
    t = ([EvSetFeatureGates (featureGates f); EvGetenv "NODE_NAME";
          EvGetenv "KUBECONFIG"] ++ t')%list /\
    kube_path t' r.

End Kube.

(** The order of the calls of [run]: the shared factory is started, then
    the factory of the capacity objects if there is one, then the caches
    of the shared factory are waited for; the run loops come last, if at
    all. *)
Definition run_order (f : Flags) (asm : Assembly) (t : list Event) : Prop :=
  exists rs ns res t_loops,
    t = ([EvFactoryStart SharedFactory rs] ++
         (if as_factoryForNamespace asm
          then [EvFactoryStart NamespaceFactory ns] else []) ++
         [EvWaitForCacheSync SharedFactory res] ++ t_loops)%list /\
    (t_loops = [] \/ t_loops = run_loops f asm).

Definition run_full_post (f : Flags) (w : World) (asm : Assembly)
    (t : list Event) (r : unit + Halt) : Prop :=
  run_post f w asm t r /\ run_order f asm t.

(** What lines 550-575 log and how they end, with the order of the calls
    of [run]. *)
Definition coordinate_full_post (f : Flags) (w : World) (asm : Assembly)
    (t : list Event) (r : unit + Halt) : Prop :=
  if enableLeaderElection f
  then
    match NewLeaderElectionClientset w with
    | Some err =>
        t = [EvNewClientset (as_config asm)] /\
        r = inr (KlogFatal ("Failed to create leaderelection client: " +:+ err))
    | None =>
        exists t_run,
          t = (le_prefix f asm ++ t_run)%list /\
          if le_invokes_run (LeaderElectionRun w)
          then exists r', run_full_post f w asm t_run r' /\
                          r = match r' with
                              | inr h => inr h
                              | inl _ => le_result w
                              end
          else t_run = [] /\ r = le_result w
    end
  else run_full_post f w asm t r.

(** A whole run, with the kube part of lines 125-187 path by path and
    the order of the calls of [run]. *)
Definition main_full_facts (f : Flags) (e : Env) (w : World)
  : list Event -> unit + Halt -> Prop :=
  seq_post
    (chain (both configure_event
              (fun t r => configure_post f e w t r /\
                          configure_kube_post f e w t r))
           (fun _ => both identify_event (identify_post f w))
           (fun su dr => both listers_event (listers_post f w su dr))
           (fun _ dr ls => both provisioner_event (provisioner_post f dr ls))
           (fun su dr ls pv =>
              both capacity_event (capacity_post f e w su dr ls pv))
           (fun su dr ls pv cp =>
              both controllers_event
                   (controllers_paths_post f w su dr ls pv cp)))
    (coordinate_full_post f w).

(** ** Further kinds of events *)

(** [http.ListenAndServe]. *)
Definition is_listen (ev : Event) : bool :=
  match ev with EvGoListenAndServe _ => true | _ => false end.

Definition is_close (ev : Event) : bool :=
  match ev with EvCloseConn _ => true | _ => false end.

Definition is_shared_start (ev : Event) : bool :=
  match ev with EvFactoryStart SharedFactory _ => true | _ => false end.

Definition is_election_run (ev : Event) : bool :=
  match ev with EvLeaderElectionRun => true | _ => false end.

(** [mux.Handle]. *)
Definition is_mux_handle (ev : Event) : bool :=
  match ev with EvMuxHandle _ => true | _ => false end.

(** Watching the Node or CSINode objects of the cluster: asking the shared
    factory for their informers, or building the live node topology. *)
Definition watches_nodes (ev : Event) : bool :=
  match ev with
  | EvInformerFor SharedFactory Nodes | EvInformerFor SharedFactory CSINodes
  | EvNewNodeTopology _ _ _ => true
  | _ => false
  end.

Definition conn_eqb (a b : Conn) : bool :=
  match a, b with
  | SidecarManager, SidecarManager | MigratedManager, MigratedManager => true
  | _, _ => false
  end.

(** The connections that a provisioner sends its RPCs on. *)
Fixpoint provisioner_uses (c : Conn) (p : Provisioner) : bool :=
  match p with
  | CSIProvisioner args => conn_eqb (pa_grpcClient args) c
  | ProvisionWrapper inner controller =>
      provisioner_uses c inner || conn_eqb (ca_grpcClient controller) c
  end.

(** The calls that are made on the connection [c], or hand it to a
    component that will use it. *)
Definition uses_conn (c : Conn) (ev : Event) : bool :=
  match ev with
  | EvProbe c' _ | EvGetDriverName c' _
  | EvGetDriverCapabilities c' _ | EvGetNodeInfo c' _ => conn_eqb c' c
  | EvNewCSIProvisioner args => conn_eqb (pa_grpcClient args) c
  | EvNewCentralCapacityController args => conn_eqb (ca_grpcClient args) c
  | EvNewProvisionController _ p _ _ => provisioner_uses c p
  | _ => false
  end.

(** ** Further statements *)

(** The signed value [n] that an unsigned 64-bit flag value [u] becomes. *)
Definition wraps (u n : Z) : Prop :=
  0 <= u < 2 ^ 64 ->
  (u < 2 ^ 63 -> n = u) /\ (2 ^ 63 <= u -> n = u - 2 ^ 64 /\ n < 0).

(** Every call that leaves the file succeeds, every cache syncs, and the
    election (if there is one) gets the lease. *)
Definition healthy (f : Flags) (e : Env) (w : World) : Prop :=
  SetFromMap w (featureGates f) = None /\
  config_error f e w = None /\
  NewClientset w = None /\
  NewSnapshotClient w = None /\
  (exists gitVersion, ServerVersion w = Ok gitVersion) /\
  (forall m, Connect w (csiEndpoint f) m = None) /\
  (forall c, Probe w c = None) /\
  (exists name, GetDriverName w SidecarManager = Ok name) /\
  (forall name, exists inTree, GetInTreeNameFromCSIName w name = Ok inTree) /\
  (forall c, exists caps, GetDriverCapabilities w c = Ok caps) /\
  (forall c, exists nodeInfo, GetNodeInfo w c = Ok nodeInfo) /\
  (forall x, CacheSynced w x = true) /\
  NewLeaderElectionClientset w = None /\
  le_invokes_run (LeaderElectionRun w) = true /\
  le_error (LeaderElectionRun w) = None.

(** The flags and the environment pass every check of [main], and no
    diagnostics server is asked for: the address of line 144 is empty, so
    that neither lines 503-525 (the registration on the mux and the
    goroutine of the server) nor line 565 are run. *)
Definition well_configured (f : Flags) (e : Env) (w : World) : Prop :=
  showVersion f = false /\
  metricsAddress f = "" /\
  httpEndpoint f = "" /\
  (enableNodeDeployment f = true -> getenv_value e "NODE_NAME" <> "") /\
  (enableCapacity f = true ->
   getenv_value e "NAMESPACE" <> "" /\ owner_resolves f e w).

(** * Concrete runs *)

(** Flags as on a command line: the defaults, with the given values for
    the flags that the properties below depend on. *)
Definition flags_of (leaderElection capacity nodeDeployment version : bool)
    (level : Z) (metricsAddr httpAddr : string) : Flags :=
  {| master := "";
     kubeconfig := "";
     csiEndpoint := "/run/csi/socket";
     volumeNamePrefix := "pvc";
     volumeNameUUIDLength := -1;
     showVersion := version;
     retryIntervalStart := 1000000000;
     retryIntervalMax := 300000000000;
     workerThreads := 100;
     finalizerThreads := 1;
     capacityThreads := 1;
     operationTimeout := 10000000000;
     enableLeaderElection := leaderElection;
     leaderElectionNamespace := "";
     strictTopology := false;
     immediateTopology := true;
     extraCreateMetadata := false;
     metricsAddress := metricsAddr;
     httpEndpoint := httpAddr;
     metricsPath := "/metrics";
     defaultFSType := "";
     kubeAPIQPS := "5";
     kubeAPIBurst := 10;
     enableCapacity := capacity;
     capacityImmediateBinding := false;
     capacityPollInterval := 60000000000;
     capacityOwnerrefLevel := level;
     enableNodeDeployment := nodeDeployment;
     nodeDeploymentImmediateBinding := true;
     nodeDeploymentBaseDelay := 20000000000;
     nodeDeploymentMaxDelay := 60000000000;
     featureGates := ∅ |}.

(** A cluster and a driver where every call succeeds.  The driver is
    [driver], it has the controller capabilities [controllerCaps] and no
    topology support; [migrated] tells whether the translation library
    knows it; [synced] is what the caches report; [election] is what the
    election primitive does. *)
Definition world_of (driver : string) (migrated : bool)
    (controllerCaps : gmap Z bool) (synced : Resource -> bool)
    (election : Election) : World :=
  {| SetFromMap := fun _ => None;
     BuildConfigFromFlags := fun _ _ => None;
     InClusterConfig := None;
     NewClientset := None;
     NewSnapshotClient := None;
     ServerVersion := Ok "v1.19.0";
     Connect := fun _ _ => None;
     Probe := fun _ => None;
     GetDriverName := fun _ => Ok driver;
     IsMigratedCSIDriverByName := fun _ => migrated;
     GetInTreeNameFromCSIName := fun _ => Ok "kubernetes.io/gce-pd";
     GetDriverCapabilities := fun _ => Ok (∅, controllerCaps);
     GetNodeInfo := fun _ =>
       Ok {| NodeId := "node-1"; MaxVolumesPerNode := 0;
             AccessibleTopology := None |};
     SupportsTopology := fun _ => false;
     UnixNano := 1600000000123456789;
     RandIntn := 42;
     OwnerLookup := fun _ _ _ =>
       (Some {| APIVersion := "apps/v1"; Kind := "StatefulSet";
                Name := "csi-provisioner" |}, None);
     CloningProtectionControllerBuilt := fun _ => true;
     CacheSynced := synced;
     NewLeaderElectionClientset := None;
     LeaderElectionRun := election |}.

Definition leads : Election := {| le_invokes_run := true; le_error := None |}.
Definition election_fails : Election :=
  {| le_invokes_run := false; le_error := Some "no lease" |}.

Definition hostpath_world : World :=
  world_of "hostpath.csi.k8s.io" false ∅ (fun _ => true) leads.

Definition attaching_world : World :=
  world_of "hostpath.csi.k8s.io" false
    {[ ControllerServiceCapability_RPC_PUBLISH_UNPUBLISH_VOLUME := true ]}
    (fun _ => true) leads.

Definition gce_pd_world : World :=
  world_of "pd.csi.storage.gke.io" true ∅ (fun _ => true) leads.

Definition unsynced_world : World :=
  world_of "hostpath.csi.k8s.io" false ∅
    (fun r => match r with StorageClasses => false | _ => true end) leads.

Definition no_lease_world : World :=
  world_of "hostpath.csi.k8s.io" false ∅ (fun _ => true) election_fails.

Definition empty_env : Env := ∅.
Definition namespace_env : Env := {[ "NAMESPACE" := "kube-system" ]}.

Definition plain_flags : Flags := flags_of false false false false 1 "" "".
Definition capacity_flags : Flags := flags_of false true false false 1 "" "".
Definition ownerless_flags : Flags := flags_of false true false false (-1) "" "".
Definition both_endpoints_flags : Flags :=
  flags_of false false false false 1 ":8080" ":8081".
Definition metrics_election_flags : Flags :=
  flags_of true false false false 1 ":8080" "".
Definition election_flags : Flags := flags_of true false false false 1 "" "".

(** The call of [ctrl.NewCSIProvisioner] in a log, with what is logged
    before and after it. *)
Fixpoint before_provisioner (l : list Event) : list Event :=
  match l with
  | [] => []
  | ev :: rest =>
      if is_new_provisioner ev then [] else ev :: before_provisioner rest
  end.

Fixpoint after_provisioner (l : list Event) : list Event :=
  match l with
  | [] => []
  | ev :: rest => if is_new_provisioner ev then rest else after_provisioner rest
  end.

Definition hostpath_driver : Driver :=
  {| dr_grpcClient := SidecarManager;
     dr_provisionerName := "hostpath.csi.k8s.io";
     dr_supportsMigrationFromInTreePluginName := "" |}.

Definition hostpath_setup : Setup :=
  {| su_node := "";
     su_config := {| cfg_source := InCluster; cfg_QPS := "5"; cfg_Burst := 10 |};
     su_gitVersion := "v1.19.0" |}.

(** The arguments of [ctrl.NewCSIProvisioner] in the run of
    [plain_flags] against [hostpath_world]. *)
Definition hostpath_args : ProvisionerArgs :=
  provisioner_args plain_flags hostpath_driver
    (listers_of plain_flags hostpath_world hostpath_setup hostpath_driver
       (∅, ∅) None (None, None)).

(** Further runs. *)

Definition slash_world : World :=
  world_of "example.com/hostpath" false ∅ (fun _ => true) leads.

Definition kubeconfig_env : Env :=
  {[ "KUBECONFIG" := "/home/dev/.kube/config" ]}.

Definition node_env : Env :=
  {[ "NODE_NAME" := "node-1"; "NAMESPACE" := "kube-system" ]}.

Definition version_flags : Flags := flags_of false false false true 1 "" "".
Definition node_flags : Flags := flags_of false false true false 1 "" "".
Definition node_capacity_flags : Flags :=
  flags_of false true true false (-1) "" "".

(** The defaults, with the largest value that [--worker-threads] takes. *)
Definition wide_threads_flags : Flags :=
  {| master := "";
     kubeconfig := "";
     csiEndpoint := "/run/csi/socket";
     volumeNamePrefix := "pvc";
     volumeNameUUIDLength := -1;
     showVersion := false;
     retryIntervalStart := 1000000000;
     retryIntervalMax := 300000000000;
     workerThreads := 18446744073709551615;
     finalizerThreads := 1;
     capacityThreads := 1;
     operationTimeout := 10000000000;
     enableLeaderElection := false;
     leaderElectionNamespace := "";
     strictTopology := false;
     immediateTopology := true;
     extraCreateMetadata := false;
     metricsAddress := "";
     httpEndpoint := "";
     metricsPath := "/metrics";
     defaultFSType := "";
     kubeAPIQPS := "5";
     kubeAPIBurst := 10;
     enableCapacity := false;
     capacityImmediateBinding := false;
     capacityPollInterval := 60000000000;
     capacityOwnerrefLevel := 1;
     enableNodeDeployment := false;
     nodeDeploymentImmediateBinding := true;
     nodeDeploymentBaseDelay := 20000000000;
     nodeDeploymentMaxDelay := 60000000000;
     featureGates := ∅ |}.

(** The defaults, with [--http-endpoint=:8080] and an empty
    [--metrics-path]. *)
Definition empty_path_flags : Flags :=
  {| master := "";
     kubeconfig := "";
     csiEndpoint := "/run/csi/socket";
     volumeNamePrefix := "pvc";
     volumeNameUUIDLength := -1;
     showVersion := false;
     retryIntervalStart := 1000000000;
     retryIntervalMax := 300000000000;
     workerThreads := 100;
     finalizerThreads := 1;
     capacityThreads := 1;
     operationTimeout := 10000000000;
     enableLeaderElection := false;
     leaderElectionNamespace := "";
     strictTopology := false;
     immediateTopology := true;
     extraCreateMetadata := false;
     metricsAddress := "";
     httpEndpoint := ":8080";
     metricsPath := "";
     defaultFSType := "";
     kubeAPIQPS := "5";
     kubeAPIBurst := 10;
     enableCapacity := false;
     capacityImmediateBinding := false;
     capacityPollInterval := 60000000000;
     capacityOwnerrefLevel := 1;
     enableNodeDeployment := false;
     nodeDeploymentImmediateBinding := true;
     nodeDeploymentBaseDelay := 20000000000;
     nodeDeploymentMaxDelay := 60000000000;
     featureGates := ∅ |}.

Definition local_node_info : NodeInfo :=
  {| NodeId := "node-1";
     MaxVolumesPerNode := 0;
     AccessibleTopology := Some {[ "topology.hostpath.csi/node" := "node-1" ]} |}.

(** A driver with topology support, deployed on a node for which it
    reports one topology segment; every call succeeds. *)
Definition local_world : World :=
  {| SetFromMap := fun _ => None;
     BuildConfigFromFlags := fun _ _ => None;
     InClusterConfig := None;
     NewClientset := None;
     NewSnapshotClient := None;
     ServerVersion := Ok "v1.19.0";
     Connect := fun _ _ => None;
     Probe := fun _ => None;
     GetDriverName := fun _ => Ok "hostpath.csi.k8s.io";
     IsMigratedCSIDriverByName := fun _ => false;
     GetInTreeNameFromCSIName := fun _ => Err "not migrated";
     GetDriverCapabilities := fun _ => Ok (∅, ∅);
     GetNodeInfo := fun _ => Ok local_node_info;
     SupportsTopology := fun _ => true;
     UnixNano := 1600000000123456789;
     RandIntn := 42;
     OwnerLookup := fun _ _ _ => (None, Some "no such pod");
     CloningProtectionControllerBuilt := fun _ => true;
     CacheSynced := fun _ => true;
     NewLeaderElectionClientset := None;
     LeaderElectionRun := leads |}.

Definition local_setup : Setup :=
  {| su_node := "node-1";
     su_config := {| cfg_source := InCluster; cfg_QPS := "5"; cfg_Burst := 10 |};
     su_gitVersion := "v1.19.0" |}.

(** The arguments of [capacity.NewCentralCapacityController] in the run of
    [node_capacity_flags] against [local_world]. *)
Definition local_capacity_args : CapacityArgs :=
  capacity_args node_capacity_flags local_setup hostpath_driver "kube-system"
    None (FixedNodeTopology [("topology.hostpath.csi/node", "node-1")]).

(** The options of the provision controller in the run of [plain_flags]
    against [hostpath_world]. *)
Definition hostpath_options : list ProvisionerOption :=
  [ LeaderElection false;
    FailedProvisionThreshold 0;
    FailedDeleteThreshold 0;
    RateLimiterOpt (ItemExponentialFailureRateLimiter 1000000000 300000000000);
    Threadiness 100;
    CreateProvisionedPVLimiter DefaultControllerRateLimiter;
    ClaimsInformer (SharedFactory, PersistentVolumeClaims);
    NodesLister None ].

(** The same in the run of [wide_threads_flags]. *)
Definition wide_options : list ProvisionerOption :=
  [ LeaderElection false;
    FailedProvisionThreshold 0;
    FailedDeleteThreshold 0;
    RateLimiterOpt (ItemExponentialFailureRateLimiter 1000000000 300000000000);
    Threadiness (-1);
    CreateProvisionedPVLimiter DefaultControllerRateLimiter;
    ClaimsInformer (SharedFactory, PersistentVolumeClaims);
    NodesLister None ].

(** * Proofs *)

(** ** Reasoning about runs *)

Lemma triple_ret {A} (a : A) Q : Q [] (inl a) -> triple (ret a) Q.
Proof. intros H s. exists []. simpl. by rewrite app_nil_r. Qed.

Lemma triple_halt {A} (h : Halt) (Q : list Event -> A + Halt -> Prop) :
  Q [] (inr h) -> triple (halt h) Q.
Proof. intros H s. exists []. simpl. by rewrite app_nil_r. Qed.

Lemma triple_emit ev Q : Q [ev] (inl tt) -> triple (emit ev) Q.
Proof. intros H s. by exists [ev]. Qed.

Lemma triple_register h Q : Q [] (inl tt) -> triple (register h) Q.
Proof. intros H s. exists []. simpl. by rewrite app_nil_r. Qed.

Lemma triple_bind {A B} (m : M A) (k : A -> M B) Q :
  triple m (fun t1 r1 =>
              match r1 with
              | inl a => triple (k a) (fun t2 r => Q (t1 ++ t2)%list r)
              | inr h => Q t1 (inr h)
              end) ->
  triple (bind m k) Q.
Proof.
  intros Hm s. destruct (Hm s) as (t1 & Hlog & H1).
  unfold bind. destruct (m s) as [[a|h] s1]; simpl in *.
  - destruct (H1 s1) as (t2 & Hlog2 & H2).
    exists (t1 ++ t2)%list. rewrite Hlog2, Hlog, app_assoc. by split.
  - by exists t1.
Qed.

Lemma triple_conseq {A} (m : M A) (Q1 Q2 : list Event -> A + Halt -> Prop) :
  triple m Q1 -> (forall t r, Q1 t r -> Q2 t r) -> triple m Q2.
Proof.
  intros H HQ s. destruct (H s) as (t & Hlog & Ht). exists t. eauto.
Qed.

Lemma triple_and {A} (m : M A) (Q1 Q2 : list Event -> A + Halt -> Prop) :
  triple m Q1 -> triple m Q2 -> triple m (fun t r => Q1 t r /\ Q2 t r).
Proof.
  intros H1 H2 s. destruct (H1 s) as (t1 & Hl1 & Ht1).
  destruct (H2 s) as (t2 & Hl2 & Ht2).
  rewrite Hl1 in Hl2. apply app_inv_head in Hl2. subst t2.
  exists t1. auto.
Qed.

(** From a triple on [main_M] to the run from the initial state. *)
Lemma triple_main f e w (Q : list Event -> unit + Halt -> Prop) :
  triple (main_M f e w) Q -> Q (calls f e w) (outcome f e w).
Proof.
  intros H. destruct (H initial_state) as (t & Hlog & Ht).
  unfold calls, outcome, main. simpl in Hlog. by rewrite Hlog.
Qed.

(** One step of symbolic execution of a monadic program. *)
Ltac step :=
  lazymatch goal with
  | |- triple (bind _ _) _ => apply triple_bind
  | |- triple (ret _) _ => apply triple_ret
  | |- triple (halt _) _ => apply triple_halt
  | |- triple (fatal _) _ => apply triple_halt
  | |- triple (emit _) _ => apply triple_emit
  | |- triple (register _) _ => apply triple_register
  | |- triple (error_exit _) _ => unfold error_exit
  | |- triple (getenv _ _) _ => unfold getenv
  | |- triple (informerFor _ _) _ => unfold informerFor
  | |- triple (connect _ _ _) _ => unfold connect
  | |- triple (probe _ _ _) _ => unfold probe
  | |- triple (newNodeTopology _ _ _) _ => unfold newNodeTopology
  | |- triple (muxHandle _) _ => unfold muxHandle
  | |- triple (newCentralCapacityController _) _ =>
      unfold newCentralCapacityController
  | |- triple (when ?b _) _ => unfold when
  | |- triple (if ?b then _ else _) _ => destruct b eqn:?
  | |- triple (match ?x with _ => _ end) _ => destruct x eqn:?
  | |- triple (let _ := _ in _) _ => cbv zeta
  end; cbv beta iota.

Ltac steps := repeat step.

(** ** Which events each part of [main] can log *)

Lemma only_app p t1 t2 : only p (t1 ++ t2) <-> only p t1 /\ only p t2.
Proof. apply Forall_app. Qed.

Lemma only_impl (p q : Event -> bool) t :
  (forall ev, p ev = true -> q ev = true) -> only p t -> only q t.
Proof. intros H Ht. eapply Forall_impl; [exact Ht | exact H]. Qed.

Lemma only_In p t ev : only p t -> In ev t -> p ev = true.
Proof. intros H Hin. exact (proj1 (List.Forall_forall _ _) H ev Hin). Qed.

Ltac only_tac :=
  unfold only; cbn [app]; repeat (constructor; [reflexivity|]); constructor.

Section Footprints.

Variable f : Flags.
Variable e : Env.
Variable w : World.

Lemma configure_only :
  triple (configure f e w) (fun t _ => only configure_event t).
Proof. unfold configure. steps; only_tac. Qed.

Lemma identify_only :
  triple (identify f w) (fun t _ => only identify_event t).
Proof. unfold identify. steps; only_tac. Qed.

Lemma listers_only su dr :
  triple (listers f w su dr) (fun t _ => only listers_event t).
Proof. unfold listers, local_topology_listers. steps; only_tac. Qed.

Lemma provisioner_only dr ls :
  triple (provisioner f dr ls) (fun t _ => only provisioner_event t).
Proof. unfold provisioner. steps; only_tac. Qed.

Lemma capacity_only su dr ls pv :
  triple (capacity_controller f e w su dr ls pv)
         (fun t _ => only capacity_event t).
Proof.
  unfold capacity_controller, resolve_owner, topology_informer.
  steps; only_tac.
Qed.

Lemma controllers_only su dr ls pv cp :
  triple (controllers f w su dr ls pv cp) (fun t _ => only controllers_event t).
Proof. unfold controllers. steps; only_tac. Qed.

End Footprints.

(** ** Sequencing *)

Lemma triple_seq {A B} (m : M A) (k : A -> M B) Q K :
  triple m Q ->
  (forall a, triple (k a) (K a)) ->
  triple (bind m k) (seq_post Q K).
Proof.
  intros Hm Hk. apply triple_bind.
  eapply triple_conseq; [exact Hm|].
  intros t1 [a|h] H1.
  - eapply triple_conseq; [apply Hk|].
    intros t2 r H2. exists t1, (inl a). split; [exact H1|]. by exists t2.
  - exists t1, (inr h). by split.
Qed.

(** Splitting a log at an event that its first part cannot contain. *)
Lemma split_after (p : Event -> bool) (t1 t2 pre post : list Event) ev :
  only p t1 -> p ev = false ->
  (t1 ++ t2)%list = (pre ++ ev :: post)%list ->
  exists pre', pre = (t1 ++ pre')%list /\ t2 = (pre' ++ ev :: post)%list.
Proof.
  revert pre. induction t1 as [|x t1 IH]; intros pre Ht Hev Heq.
  - by exists pre.
  - inversion Ht as [|? ? Hx Ht1]; subst.
    destruct pre as [|y pre]; simpl in Heq.
    + injection Heq as -> _. congruence.
    + injection Heq as -> Heq.
      destruct (IH pre Ht1 Hev Heq) as (pre' & -> & ->).
      by exists pre'.
Qed.

(** ** The [run] closure *)

Lemma check_synced_run (res : list (Resource * bool)) (s : State) :
  check_synced res s =
  (if forallb snd res then inl tt else inr (KlogFatal failed_to_sync), s).
Proof.
  induction res as [|[r b] res IH]; simpl; [reflexivity|].
  destruct b; simpl; [exact IH | reflexivity].
Qed.

Lemma of_factory_app fac (l1 l2 : list Handle) :
  of_factory fac (l1 ++ l2) = (of_factory fac l1 ++ of_factory fac l2)%list.
Proof. unfold of_factory. apply List.filter_app. Qed.

Lemma of_factory_not_yet fac done (l : list Handle) :
  of_factory fac (not_yet done (of_factory fac l))
  = not_yet done (of_factory fac l).
Proof.
  unfold of_factory, not_yet.
  induction l as [|h l IH]; simpl; [reflexivity|].
  destruct (bool_decide (h.1 = fac)) eqn:Hf; simpl; [|exact IH].
  destruct (negb (bool_decide (h ∈ done))); simpl; [|exact IH].
  rewrite Hf. simpl. by rewrite IH.
Qed.

Lemma run_triple f w asm : triple (run f w asm) (run_post f w asm).
Proof.
  intros s.
  set (new := not_yet (started s) (of_factory SharedFactory (registered s))).
  assert (Hcover : forall s1 : list Handle, forall x, In x (map snd new) ->
            In (x, CacheSynced w x)
               (map (fun h : Handle => (h.2, CacheSynced w h.2))
                    (of_factory SharedFactory ((started s ++ new) ++ s1)))).
  { intros s1 x Hx. apply in_map_iff in Hx as (h & <- & Hh).
    apply in_map_iff. exists h. split; [reflexivity|].
    rewrite !of_factory_app. apply in_or_app. left. apply in_or_app. right.
    unfold new. rewrite of_factory_not_yet. exact Hh. }
  assert (Hflags : forall l : list Handle, forall x b,
            In (x, b) (map (fun h : Handle => (h.2, CacheSynced w h.2)) l) ->
            b = CacheSynced w x).
  { intros l x b Hx. apply in_map_iff in Hx as (h & Heq & _).
    by injection Heq as <- <-. }
  unfold run, bind, when, factoryStart, waitForCacheSync, ret, emit.
  fold new. unfold run_post, run_loops.
  destruct (as_factoryForNamespace asm),
    (bool_decide (is_Some (as_capacityController asm))),
    (as_csiClaimController asm);
    cbn [fst snd log registered started];
    rewrite check_synced_run;
    match goal with |- context [forallb snd ?l] => set (res := l) end;
    destruct (forallb snd res) eqn:Hall;
    cbn [fst snd log];
    (eexists; split; [rewrite <- ?app_assoc; reflexivity|]);
    (eexists _, _, res, _; split; [reflexivity|]);
    (split; [only_tac|]);
    (split;
     [intros x Hx;
      first [ exact (Hcover _ x Hx)
            | specialize (Hcover [] x Hx);
              rewrite app_nil_r in Hcover; exact Hcover ] |]);
    (split; [apply Hflags|]);
    rewrite Hall; split; reflexivity.
Qed.

(** ** The election branch *)

Lemma coordinate_triple f w asm :
  triple (coordinate f w asm) (coordinate_post f w asm).
Proof.
  unfold coordinate, coordinate_post, le_prefix, le_result.
  destruct (enableLeaderElection f); cbn [negb]; [|apply run_triple].
  destruct (NewLeaderElectionClientset w) as [err|].
  { steps. by split. }
  destruct (le_invokes_run (LeaderElectionRun w)).
  - steps.
    all: eapply triple_conseq; [apply run_triple|];
      intros t [[]|h] Hrun; cbv beta iota.
    all: try (destruct (le_error (LeaderElectionRun w)); steps).
    all: eexists; (split; [cbn [app]; reflexivity|]);
      eexists; (split; [rewrite ?app_nil_r; exact Hrun|]); reflexivity.
  - steps.
    all: destruct (le_error (LeaderElectionRun w)); steps.
    all: exists []; by split.
Qed.

(** ** The whole of [main] *)

Section Chain.

Variable f : Flags.
Variable e : Env.
Variable w : World.

Variable Q1 : list Event -> Setup + Halt -> Prop.
Variable Q2 : Setup -> list Event -> Driver + Halt -> Prop.
Variable Q3 : Setup -> Driver -> list Event -> Listers + Halt -> Prop.
Variable Q4 : Setup -> Driver -> Listers -> list Event -> Provisioning + Halt -> Prop.
Variable Q5 : Setup -> Driver -> Listers -> Provisioning ->
              list Event -> Capacity + Halt -> Prop.
Variable Q6 : Setup -> Driver -> Listers -> Provisioning -> Capacity ->
              list Event -> Assembly + Halt -> Prop.

Hypothesis H1 : triple (configure f e w) Q1.
Hypothesis H2 : forall su, triple (identify f w) (Q2 su).
Hypothesis H3 : forall su dr, triple (listers f w su dr) (Q3 su dr).
Hypothesis H4 : forall su dr ls, triple (provisioner f dr ls) (Q4 su dr ls).
Hypothesis H5 : forall su dr ls pv,
  triple (capacity_controller f e w su dr ls pv) (Q5 su dr ls pv).
Hypothesis H6 : forall su dr ls pv cp,
  triple (controllers f w su dr ls pv cp) (Q6 su dr ls pv cp).

Lemma assemble_chain : triple (assemble f e w) (chain Q1 Q2 Q3 Q4 Q5 Q6).
Proof.
  unfold assemble, chain.
  apply triple_seq; [exact H1|]. intros su.
  apply triple_seq; [apply H2|]. intros dr.
  apply triple_seq; [apply H3|]. intros ls.
  apply triple_seq; [apply H4|]. intros pv.
  apply triple_seq; [apply H5|]. intros cp.
  apply H6.
Qed.

Lemma main_chain :
  triple (main_M f e w)
         (seq_post (chain Q1 Q2 Q3 Q4 Q5 Q6) (coordinate_post f w)).
Proof.
  unfold main_M. apply triple_seq; [apply assemble_chain|].
  intros asm. apply coordinate_triple.
Qed.

Lemma main_run_chain :
  seq_post (chain Q1 Q2 Q3 Q4 Q5 Q6) (coordinate_post f w)
    (calls f e w) (outcome f e w).
Proof. apply triple_main, main_chain. Qed.

End Chain.

(** Taking a [seq_post] hypothesis apart, one part at a time. *)
Ltac open_seq H :=
  let t1 := fresh "t" in
  let r1 := fresh "r" in
  let Hq := fresh "Hq" in
  let a := fresh "a" in
  let h := fresh "h" in
  let t2 := fresh "t" in
  let Ht := fresh "Ht" in
  let Hr := fresh "Hr" in
  destruct H as (t1 & [a|h] & Hq & H);
  [ destruct H as (t2 & Ht & H); try rewrite Ht in *
  | destruct H as [Ht Hr]; try rewrite Ht in *; try rewrite Hr in * ].

(** Lines 125-525 log only their own events. *)
Lemma assemble_only f e w :
  triple (assemble f e w) (fun t _ => only assemble_event t).
Proof.
  eapply triple_conseq.
  { apply (assemble_chain f e w
             (fun t _ => only configure_event t)
             (fun _ t _ => only identify_event t)
             (fun _ _ t _ => only listers_event t)
             (fun _ _ _ t _ => only provisioner_event t)
             (fun _ _ _ _ t _ => only capacity_event t)
             (fun _ _ _ _ _ t _ => only controllers_event t));
      intros; first [ apply configure_only | apply identify_only
                    | apply listers_only | apply provisioner_only
                    | apply capacity_only | apply controllers_only ]. }
  intros t r H. unfold chain in H.
  assert (Hsub : forall p t,
            (forall ev, p ev = true -> assemble_event ev = true) ->
            only p t -> only assemble_event t)
    by (intros p t0; apply only_impl).
  repeat (open_seq H; [|rewrite ?only_app; repeat split;
                        (eapply Hsub; [|eassumption]);
                        intros ev Hev; unfold assemble_event; rewrite Hev;
                        by rewrite ?orb_true_r]).
  rewrite ?only_app; repeat split;
    (eapply Hsub; [|eassumption]);
    intros ev Hev; unfold assemble_event; rewrite Hev;
    by rewrite ?orb_true_r.
Qed.

(** The run from the initial state: the log of lines 125-525, then that
    of lines 550-575. *)
Lemma main_shape f e w :
  seq_post (fun t (_ : Assembly + Halt) => only assemble_event t)
           (coordinate_post f w) (calls f e w) (outcome f e w).
Proof.
  apply triple_main. unfold main_M.
  apply triple_seq; [apply assemble_only | apply coordinate_triple].
Qed.

(** ** The readiness check in front of the controllers *)

Lemma assemble_before_run ev : assemble_event ev = true -> before_run ev = true.
Proof. destruct ev; try reflexivity; discriminate. Qed.

Lemma election_before_run ev : election_event ev = true -> before_run ev = true.
Proof. destruct ev; try reflexivity; discriminate. Qed.

Lemma before_run_not_loop ev :
  before_run ev = true -> is_controller_run ev = false.
Proof. destruct ev; try reflexivity; discriminate. Qed.

Lemma before_run_not_loop' ev : before_run ev = true -> not_loop ev = true.
Proof. destruct ev; try reflexivity; discriminate. Qed.

Lemma le_prefix_only f asm : only election_event (le_prefix f asm).
Proof.
  unfold le_prefix.
  destruct (nonempty (httpEndpoint f)), (nonempty (leaderElectionNamespace f));
    only_tac.
Qed.

Lemma gated_before_run l : only before_run l -> gated l.
Proof.
  intros Hl pre ev post -> Hev.
  apply only_app in Hl as [_ Hl]. inversion Hl as [|? ? Hb _]; subst.
  apply before_run_not_loop in Hb. congruence.
Qed.

Lemma fails_closed_before_run w l r : only before_run l -> fails_closed w l r.
Proof.
  intros Hl rs x Hin _ _. by apply (only_In _ _ _ Hl) in Hin.
Qed.

Lemma forallb_snd_true (res : list (Resource * bool)) :
  forallb snd res = true -> forall x b, In (x, b) res -> b = true.
Proof.
  intros H x b Hin.
  exact (proj1 (forallb_forall snd res) H (x, b) Hin).
Qed.

Lemma run_loops_only f asm : only is_controller_run (run_loops f asm).
Proof.
  unfold run_loops.
  destruct (bool_decide _), (as_csiClaimController asm); only_tac.
Qed.

Lemma gated_run f w asm prefix t r :
  only before_run prefix -> run_post f w asm t r -> gated (prefix ++ t).
Proof.
  intros Hp (rs & t_ns & res & t_loops & -> & Hns & Hcover & Hflags & Hend)
         pre ev post Heq Hev.
  assert (Hhead : only not_loop
            (prefix ++ [EvFactoryStart SharedFactory rs] ++ t_ns ++
             [EvWaitForCacheSync SharedFactory res])).
  { apply only_app. split.
    { eapply only_impl; [apply before_run_not_loop' | exact Hp]. }
    apply only_app. split; [only_tac|].
    apply only_app. split; [|only_tac].
    eapply only_impl; [|exact Hns]. by intros []. }
  assert (Hnot : not_loop ev = false)
    by (unfold not_loop; by rewrite Hev).
  replace (prefix ++ [EvFactoryStart SharedFactory rs] ++ t_ns ++
           [EvWaitForCacheSync SharedFactory res] ++ t_loops)%list
    with ((prefix ++ [EvFactoryStart SharedFactory rs] ++ t_ns ++
           [EvWaitForCacheSync SharedFactory res]) ++ t_loops)%list in Heq
    by (by rewrite <- !app_assoc).
  destruct (split_after _ _ _ _ _ _ Hhead Hnot Heq) as (pre' & -> & Hloops).
  destruct (forallb snd res) eqn:Hall.
  - exists rs, res.
    split; [apply in_or_app; left; apply in_or_app; right; by left|].
    split; [apply in_or_app; left; apply in_or_app; right;
            apply in_or_app; right; apply in_or_app; right; by left|].
    split; [|by apply forallb_snd_true].
    intros x Hx. specialize (Hcover x Hx).
    by rewrite (forallb_snd_true _ Hall _ _ Hcover) in Hcover.
  - destruct Hend as [_ ->]. by destruct pre'.
Qed.

Lemma fails_closed_run f w asm prefix t r :
  only before_run prefix -> run_post f w asm t r ->
  fails_closed w (prefix ++ t) r.
Proof.
  intros Hp (rs & t_ns & res & t_loops & -> & Hns & Hcover & Hflags & Hend)
         rs' x Hin Hx Hfalse.
  assert (rs' = rs) as ->.
  { apply in_app_or in Hin as [Hin|Hin].
    { by apply (only_In _ _ _ Hp) in Hin. }
    cbn [app] in Hin.
    destruct Hin as [Hin|Hin]; [by injection Hin|].
    apply in_app_or in Hin as [Hin|Hin].
    { by apply (only_In _ _ _ Hns) in Hin. }
    destruct Hin as [Hin|Hin]; [discriminate|].
    destruct (forallb snd res).
    - destruct Hend as [_ ->].
      by apply (only_In _ _ _ (run_loops_only f asm)) in Hin.
    - by destruct Hend as [_ ->]. }
  specialize (Hcover x Hx). rewrite Hfalse in Hcover.
  destruct (forallb snd res) eqn:Hall.
  { by apply (forallb_snd_true _ Hall) in Hcover. }
  destruct Hend as [-> ->]. split; [reflexivity|].
  rewrite !Forall_app. repeat split.
  - eapply Forall_impl; [exact Hp|]. apply before_run_not_loop.
  - by repeat constructor.
  - eapply Forall_impl; [exact Hns|]. by intros [].
  - by repeat constructor.
  - constructor.
Qed.

(** C1. No run loop of a sub-controller (capacity, cloning protection,
    provision) is invoked before the shared factory has started its
    informers and [WaitForCacheSync] has returned a set flag for every one
    of them; and when a started cache reports that it did not sync, the
    run ends in [klog.Fatalf] and no run loop is invoked at all. *)
Theorem C1_controllers_wait_for_cache_sync (f : Flags) (e : Env) (w : World) :
  gated (calls f e w) /\
  fails_closed w (calls f e w) (outcome f e w).
Proof.
  pose proof (main_shape f e w) as H.
  open_seq H.
  2: { split; [apply gated_before_run | apply fails_closed_before_run];
       (eapply only_impl; [apply assemble_before_run | exact Hq]). }
  assert (Hasm : only before_run t)
    by (eapply only_impl; [apply assemble_before_run | exact Hq]).
  unfold coordinate_post in H.
  destruct (enableLeaderElection f).
  - destruct (NewLeaderElectionClientset w) as [err|].
    + destruct H as [-> ->].
      assert (Hl : only before_run (t ++ [EvNewClientset (as_config a)]))
        by (rewrite only_app; split; [exact Hasm | only_tac]).
      split; [by apply gated_before_run | by apply fails_closed_before_run].
    + destruct H as (t_run & -> & H).
      assert (Hl : only before_run (t ++ le_prefix f a)).
      { rewrite only_app. split; [exact Hasm|].
        eapply only_impl; [apply election_before_run | apply le_prefix_only]. }
      rewrite app_assoc.
      destruct (le_invokes_run (LeaderElectionRun w)).
      * destruct H as (r' & Hrun & ->).
        split; [by eapply gated_run|].
        intros rs x Hin Hx Hfalse.
        destruct (fails_closed_run _ _ _ _ _ _ Hl Hrun rs x Hin Hx Hfalse)
          as [-> Hquiet].
        by split.
      * destruct H as [-> ->]. rewrite app_nil_r.
        split; [by apply gated_before_run | by apply fails_closed_before_run].
  - split; [by eapply gated_run | by eapply fails_closed_run].
Qed.

(** ** Leader election *)

Lemma assemble_not_election ev :
  assemble_event ev = true -> election_only_event ev = false.
Proof. destruct ev; try reflexivity; discriminate. Qed.

Lemma run_post_not_election f w asm t r :
  run_post f w asm t r -> Forall (fun ev => election_only_event ev = false) t.
Proof.
  intros (rs & t_ns & res & t_loops & -> & Hns & _ & _ & Hend).
  rewrite !Forall_app. repeat split.
  - by repeat constructor.
  - eapply Forall_impl; [exact Hns|]. by intros [].
  - by repeat constructor.
  - assert (t_loops = [] \/ t_loops = run_loops f asm) as [->| ->]
      by (destruct (forallb snd res); tauto).
    + constructor.
    + eapply Forall_impl; [apply run_loops_only|]. by intros [].
Qed.

Lemma before_run_absent l pre ev post :
  only before_run l -> l = (pre ++ ev :: post)%list -> run_event ev = true ->
  False.
Proof.
  intros Hl -> Hev. apply only_app in Hl as [_ Hl].
  inversion Hl as [|? ? Hb _]; subst. unfold before_run in Hb.
  by rewrite Hev in Hb.
Qed.

Lemma le_prefix_has_run f asm : In EvLeaderElectionRun (le_prefix f asm).
Proof.
  unfold le_prefix. repeat (apply in_or_app; right). by left.
Qed.

Lemma le_prefix_has_new f asm :
  In (EvNewLeaderElection (replace_slash (as_provisionerName asm)))
     (le_prefix f asm).
Proof. unfold le_prefix. right. by left. Qed.

(** C6. Without leader election, [main] calls [run] itself as soon as the
    assembly is complete, and logs nothing of the election.  With leader
    election, every step of [run] (starting the factories, waiting for the
    caches, the run loops) happens only if the election primitive invoked
    the function it was given, and after [le.Run()] was called on the
    election built by [NewLeaderElection]; an error returned by [le.Run()],
    or a failure to create the election's clientset, ends in
    [klog.Fatalf]. *)
Theorem C6_run_directly_or_under_election (f : Flags) (e : Env) (w : World) :
  (enableLeaderElection f = false ->
     Forall (fun ev => election_only_event ev = false) (calls f e w) /\
     forall asm,
       fst (assemble f e w initial_state) = inl asm ->
       main f e w = run f w asm (snd (assemble f e w initial_state))) /\
  (enableLeaderElection f = true ->
     (forall pre ev post,
        calls f e w = (pre ++ ev :: post)%list -> run_event ev = true ->
        le_invokes_run (LeaderElectionRun w) = true /\
        In EvLeaderElectionRun pre /\
        exists lockName, In (EvNewLeaderElection lockName) pre) /\
     (forall err,
        In EvLeaderElectionRun (calls f e w) ->
        le_error (LeaderElectionRun w) = Some err ->
        exists msg,
          outcome f e w = inr (KlogFatal msg) /\
          (le_invokes_run (LeaderElectionRun w) = false ->
           msg = "failed to initialize leader election: " +:+ err)) /\
     (forall asm err,
        fst (assemble f e w initial_state) = inl asm ->
        NewLeaderElectionClientset w = Some err ->
        outcome f e w
        = inr (KlogFatal ("Failed to create leaderelection client: " +:+ err)))).
Proof.
  split; intros Hle.
  - split.
    + pose proof (main_shape f e w) as H. open_seq H.
      2: { eapply Forall_impl; [exact Hq|]. apply assemble_not_election. }
      unfold coordinate_post in H. rewrite Hle in H.
      apply Forall_app. split.
      * eapply Forall_impl; [exact Hq|]. apply assemble_not_election.
      * by eapply run_post_not_election.
    + intros asm Hasm. unfold main, main_M, bind.
      destruct (assemble f e w initial_state) as [[asm'|h] s1];
        simpl in Hasm; [|discriminate].
      injection Hasm as ->. simpl. unfold coordinate. by rewrite Hle.
  - pose proof (main_shape f e w) as H.
    assert (Hat : forall t, only assemble_event t -> only before_run t)
      by (intros t; apply only_impl, assemble_before_run).
    split; [|split].
    + intros pre ev post Heq Hev. open_seq H.
      2: { destruct (before_run_absent _ _ _ _ (Hat _ Hq) Heq Hev). }
      unfold coordinate_post in H. rewrite Hle in H.
      destruct (NewLeaderElectionClientset w) as [err|].
      { destruct H as [-> _].
        assert (Hl : only before_run (t ++ [EvNewClientset (as_config a)]))
          by (rewrite only_app; split; [by apply Hat | only_tac]).
        destruct (before_run_absent _ _ _ _ Hl Heq Hev). }
      destruct H as (t_run & -> & H).
      assert (Hl : only before_run (t ++ le_prefix f a)).
      { rewrite only_app. split; [by apply Hat|].
        eapply only_impl; [apply election_before_run | apply le_prefix_only]. }
      destruct (le_invokes_run (LeaderElectionRun w)).
      2: { destruct H as [-> _]. rewrite app_nil_r in Heq.
           destruct (before_run_absent _ _ _ _ Hl Heq Hev). }
      rewrite app_assoc in Heq.
      assert (Hnot : before_run ev = false)
        by (unfold before_run; by rewrite Hev).
      destruct (split_after _ _ _ _ _ _ Hl Hnot Heq) as (pre' & -> & _).
      split; [reflexivity|]. split.
      * apply in_or_app. left. apply in_or_app. right. apply le_prefix_has_run.
      * eexists. apply in_or_app. left. apply in_or_app. right.
        apply le_prefix_has_new.
    + intros err Hin Herr. open_seq H.
      { unfold coordinate_post in H. rewrite Hle in H.
        destruct (NewLeaderElectionClientset w) as [err'|].
        { destruct H as [-> ->]. eexists. split; [reflexivity|].
          intros _. exfalso.
          apply in_app_or in Hin as [Hin|[Hin|[]]]; [|discriminate].
          by apply (only_In _ _ _ Hq) in Hin. }
        destruct H as (t_run & -> & H).
        unfold le_result in H. rewrite Herr in H.
        destruct (le_invokes_run (LeaderElectionRun w)).
        - destruct H as (r' & Hrun & ->).
          destruct r' as [[]|h].
          + eexists. split; [reflexivity|]. discriminate.
          + destruct Hrun as (? & ? & res & ? & _ & _ & _ & _ & Hend).
            destruct (forallb snd res); destruct Hend as [Hr _];
              [discriminate|].
            injection Hr as ->. eexists. split; [reflexivity|]. discriminate.
        - destruct H as [-> ->]. eexists. by split. }
      by apply (only_In _ _ _ Hq) in Hin.
    + intros asm err Hasm Herr. unfold outcome, main, main_M, bind.
      destruct (assemble f e w initial_state) as [[asm'|h] s1];
        simpl in Hasm; [|discriminate].
      injection Hasm as ->. unfold coordinate, bind, emit.
      rewrite Hle, Herr. reflexivity.
Qed.

(** ** What each part of [main] logs, path by path *)

Section PathLemmas.

Variable f : Flags.
Variable e : Env.
Variable w : World.

Lemma configure_paths : triple (configure f e w) (configure_post f e w).
Proof.
  unfold configure, configure_post. steps.
  all: try (split; reflexivity).
  all: eexists; (split; [cbn [app]; reflexivity|]);
    (split; [only_tac|]); first [reflexivity | by eexists].
Qed.

Lemma identify_paths : triple (identify f w) (identify_post f w).
Proof.
  unfold identify, identify_post, identify_base. steps.
  all: split; reflexivity.
Qed.

Lemma listers_paths su dr :
  triple (listers f w su dr) (listers_post f w su dr).
Proof.
  unfold listers, listers_post, listers_head, listers_of, local_topology_listers,
    local_topology_events, va_events, va_lister.
  steps.
  all: split; reflexivity.
Qed.

Lemma provisioner_paths dr ls :
  triple (provisioner f dr ls) (provisioner_post f dr ls).
Proof. unfold provisioner, provisioner_post. steps. split; reflexivity. Qed.

Lemma capacity_paths su dr ls pv :
  triple (capacity_controller f e w su dr ls pv)
         (capacity_post f e w su dr ls pv).
Proof.
  unfold capacity_controller, capacity_post, capacity_built, resolve_owner,
    topology_informer, topology_of, topology_events.
  steps.
  all: split; reflexivity.
Qed.

Lemma controllers_paths su dr ls pv cp :
  triple (controllers f w su dr ls pv cp)
         (controllers_paths_post f w su dr ls pv cp).
Proof.
  unfold controllers, controllers_paths_post, controllers_panic_post,
    controllers_post, server_events, mux_panics.
  steps.
  all: split; reflexivity.
Qed.

End PathLemmas.

(** ** Paths and footprints together *)

Lemma triple_both {A} (m : M A) p Q :
  triple m (fun t _ => only p t) -> triple m Q -> triple m (both p Q).
Proof. intros H1 H2. exact (triple_and _ _ _ H1 H2). Qed.

Lemma main_run f e w : main_facts f e w (calls f e w) (outcome f e w).
Proof.
  apply main_run_chain; intros; apply triple_both.
  - apply configure_only.
  - apply configure_paths.
  - apply identify_only.
  - apply identify_paths.
  - apply listers_only.
  - apply listers_paths.
  - apply provisioner_only.
  - apply provisioner_paths.
  - apply capacity_only.
  - apply capacity_paths.
  - apply controllers_only.
  - apply controllers_paths.
Qed.

Lemma configure_returns f e w t su :
  configure_post f e w t (inl su) ->
  SetFromMap w (featureGates f) = None /\
  showVersion f = false /\
  nonempty (metricsAddress f) && nonempty (httpEndpoint f) = false /\
  su_node su = getenv_value e "NODE_NAME" /\
  enableNodeDeployment f && String.eqb (getenv_value e "NODE_NAME") "" = false /\
  In (EvGetenv "KUBECONFIG") t.
Proof.
  unfold configure_post.
  destruct (SetFromMap w (featureGates f)); [by intros [_ ?]|].
  destruct (enableNodeDeployment f && _); [by intros [_ ?]|].
  destruct (showVersion f); [by intros [_ ?]|].
  destruct (nonempty (metricsAddress f) && _); [by intros [_ ?]|].
  intros (t' & -> & _ & Hnode). repeat split; try done.
  right. right. by left.
Qed.

Lemma nonempty_true s : nonempty s = true <-> s <> "".
Proof.
  unfold nonempty. destruct (String.eqb_spec s ""); simpl; split; congruence.
Qed.

Lemma le_prefix_health_check f asm :
  In EvPrepareHealthCheck (le_prefix f asm) <-> nonempty (httpEndpoint f) = true.
Proof.
  unfold le_prefix.
  destruct (nonempty (httpEndpoint f)), (nonempty (leaderElectionNamespace f));
    cbn [app]; split; intros H; try done; try (right; right; by left).
  all: repeat (destruct H as [H|H]; try discriminate H); done.
Qed.

Tactic Notation "open_named" hyp(H) ident(t) ident(a) ident(Ho) ident(Hp)
    ident(rest) :=
  cbv beta in H;
  destruct H as (t & [a|?h] & [Ho Hp] & H);
  [ destruct H as (rest & ?Ht & H) | destruct H as [?Ht ?Hr] ];
  subst.

Lemma main_cases_of f e w Q1 R t r :
  seq_post
    (chain (both configure_event Q1)
           (fun _ => both identify_event (identify_post f w))
           (fun su dr => both listers_event (listers_post f w su dr))
           (fun _ dr ls => both provisioner_event (provisioner_post f dr ls))
           (fun su dr ls pv =>
              both capacity_event (capacity_post f e w su dr ls pv))
           (fun su dr ls pv cp =>
              both controllers_event
                   (controllers_paths_post f w su dr ls pv cp)))
    R t r ->
  main_cases f e w Q1 R t r.
Proof.
  intros H. destruct H as (tasm & rasm & Hasm & H). unfold chain in Hasm.
  open_named Hasm t_conf su O_conf P_conf rest_conf;
    [|destruct H as [-> ->]; do 5 right; left; by exists t_conf, h].
  open_named Hasm t_id dr O_id P_id rest_id;
    [|destruct H as [-> ->]; do 4 right; left; by exists t_conf, su, t_id, h].
  open_named Hasm t_ls ls O_ls P_ls rest_ls;
    [|destruct H as [-> ->]; do 3 right; left;
      by exists t_conf, su, t_id, dr, t_ls, h].
  open_named Hasm t_pv pv O_pv P_pv rest_pv;
    [|destruct H as [-> ->]; do 2 right; left;
      by exists t_conf, su, t_id, dr, t_ls, ls, t_pv, h].
  open_named Hasm t_cap cp O_cap P_cap t_ctl;
    [|destruct H as [-> ->]; right; left;
      by exists t_conf, su, t_id, dr, t_ls, ls, t_pv, pv, t_cap, h].
  destruct Hasm as [O_ctl P_ctl]. unfold controllers_paths_post in P_ctl.
  destruct (mux_panics f) eqn:Hmux.
  - pose proof P_ctl as [_ ->]. destruct H as [-> ->]. do 6 right.
    by exists t_conf, su, t_id, dr, t_ls, ls, t_pv, pv, t_cap, cp, t_ctl.
  - pose proof P_ctl as [_ ->]. destruct H as (t_co & -> & H). left.
    by exists t_conf, su, t_id, dr, t_ls, ls, t_pv, pv, t_cap, cp, t_ctl, t_co.
Qed.

(** Takes [main_run] apart.  The first goal is the run whose assembly was
    completed.  The next five are the runs that stopped in lines 400-484,
    353-398, 258-349, 189-242 and 125-187.  The last goal is the run in
    which [mux.Handle] panicked. *)
Ltac open_run H :=
  try unfold main_facts in H;
  apply main_cases_of in H;
  destruct H as
    [ (t_conf & su & t_id & dr & t_ls & ls & t_pv & pv & t_cap & cp & t_ctl &
       t_co & [O_conf P_conf] & [O_id P_id] & [O_ls P_ls] & [O_pv P_pv] &
       [O_cap P_cap] & [O_ctl P_ctl] & Hmux & Hcalls & H)
    | [ (t_conf & su & t_id & dr & t_ls & ls & t_pv & pv & t_cap & h &
         [O_conf P_conf] & [O_id P_id] & [O_ls P_ls] & [O_pv P_pv] &
         [O_cap P_cap] & Hcalls & Hout)
    | [ (t_conf & su & t_id & dr & t_ls & ls & t_pv & h &
         [O_conf P_conf] & [O_id P_id] & [O_ls P_ls] & [O_pv P_pv] &
         Hcalls & Hout)
    | [ (t_conf & su & t_id & dr & t_ls & h &
         [O_conf P_conf] & [O_id P_id] & [O_ls P_ls] & Hcalls & Hout)
    | [ (t_conf & su & t_id & h &
         [O_conf P_conf] & [O_id P_id] & Hcalls & Hout)
    | [ (t_conf & h & [O_conf P_conf] & Hcalls & Hout)
    | (t_conf & su & t_id & dr & t_ls & ls & t_pv & pv & t_cap & cp & t_ctl &
       [O_conf P_conf] & [O_id P_id] & [O_ls P_ls] & [O_pv P_pv] &
       [O_cap P_cap] & [O_ctl P_ctl] & Hmux & Hcalls & Hout) ]]]]]];
  cbv beta in P_conf.

(** In a run that stopped during the assembly, and in the assembly part of
    any run, only assembly events are logged. *)
Ltac assembly_only :=
  rewrite ?only_app; repeat split;
  (eapply only_impl; [|eassumption]);
  let ev := fresh "ev" in
  let Hev := fresh "Hev" in
  intros ev Hev; unfold assemble_event; rewrite Hev; by rewrite ?orb_true_r.

Lemma coordinate_health_check f w asm t r :
  coordinate_post f w asm t r -> In EvPrepareHealthCheck t ->
  nonempty (httpEndpoint f) = true /\ enableLeaderElection f = true.
Proof.
  unfold coordinate_post. intros H Hin.
  assert (Hrun : forall t' r', run_post f w asm t' r' ->
                               ~ In EvPrepareHealthCheck t').
  { intros t' r' Hr Hi. apply run_post_not_election in Hr.
    by apply (proj1 (List.Forall_forall _ _) Hr) in Hi. }
  destruct (enableLeaderElection f); [|by destruct (Hrun _ _ H)].
  destruct (NewLeaderElectionClientset w).
  { destruct H as [-> _]. destruct Hin as [Hin|[]]. discriminate. }
  destruct H as (t_run & -> & H).
  apply in_app_or in Hin as [Hin|Hin].
  { split; [|reflexivity]. by apply le_prefix_health_check in Hin. }
  destruct (le_invokes_run (LeaderElectionRun w)).
  - destruct H as (r' & Hr & _). by destruct (Hrun _ _ Hr).
  - by destruct H as [-> _].
Qed.

Lemma server_events_metrics f :
  metricsAddress f <> "" ->
  server_events f = [EvMuxHandle (metricsPath f);
                     EvGoListenAndServe (metricsAddress f)].
Proof.
  intros Hm. unfold server_events, addr.
  destruct (String.eqb_spec (metricsAddress f) ""); [done|].
  by rewrite (proj2 (nonempty_true _) Hm).
Qed.

(** C9. The leader-election health check is registered on the mux only
    when [--http-endpoint] is not empty (and leader election is on).  When
    [--metrics-address] is set, no health check is ever registered; yet in
    every such run that gets to the election, the metrics path has been
    put on the mux and the HTTP server has been started on that address. *)
Theorem C9_health_check_needs_http_endpoint (f : Flags) (e : Env) (w : World) :
  (In EvPrepareHealthCheck (calls f e w) ->
     httpEndpoint f <> "" /\ enableLeaderElection f = true) /\
  (metricsAddress f <> "" ->
     ~ In EvPrepareHealthCheck (calls f e w) /\
     (In EvLeaderElectionRun (calls f e w) ->
        In (EvMuxHandle (metricsPath f)) (calls f e w) /\
        In (EvGoListenAndServe (metricsAddress f)) (calls f e w))).
Proof.
  pose proof (main_run f e w) as H. open_run H.
  2-7: assert (Hl : only assemble_event (calls f e w))
         by (rewrite Hcalls; assembly_only);
       (split; [intros Hin | intros _; split; intros Hin];
        by apply (only_In _ _ _ Hl) in Hin).
  assert (Hl : only assemble_event (t_conf ++ t_id ++ t_ls ++ t_pv ++ t_cap ++ t_ctl))
    by assembly_only.
  destruct (configure_returns _ _ _ _ _ P_conf) as (_ & _ & Hboth & _).
  assert (Hhc : In EvPrepareHealthCheck (calls f e w) ->
                nonempty (httpEndpoint f) = true /\
                enableLeaderElection f = true).
  { rewrite Hcalls. intros Hin. apply in_app_or in Hin as [Hin|Hin].
    - by apply (only_In _ _ _ Hl) in Hin.
    - by eapply coordinate_health_check. }
  split.
  - intros Hin. destruct (Hhc Hin) as [Hne ->].
    by apply nonempty_true in Hne.
  - intros Hm. apply nonempty_true in Hm as Hm'. rewrite Hm' in Hboth.
    simpl in Hboth. split.
    + intros Hin. destruct (Hhc Hin) as [Hne _]. congruence.
    + intros _. destruct P_ctl as [-> _]. rewrite Hcalls.
      rewrite (server_events_metrics _ Hm).
      split; apply in_or_app; left; repeat (apply in_or_app; right).
      * by left.
      * right. by left.
Qed.

(** ** The two diagnostics flags *)

Lemma coordinate_only f w asm t r :
  coordinate_post f w asm t r ->
  only (fun ev => election_event ev || run_event ev) t.
Proof.
  assert (Hrun : forall t' r', run_post f w asm t' r' ->
            only (fun ev => election_event ev || run_event ev) t').
  { intros t' r' (rs & t_ns & res & t_loops & -> & Hns & _ & _ & Hend).
    rewrite !only_app. repeat split.
    - only_tac.
    - eapply only_impl; [|exact Hns]. by intros [].
    - only_tac.
    - assert (t_loops = [] \/ t_loops = run_loops f asm) as [->| ->]
        by (destruct (forallb snd res); tauto).
      + constructor.
      + eapply only_impl; [|apply run_loops_only]. by intros []. }
  assert (Hle : only (fun ev => election_event ev || run_event ev)
                     (le_prefix f asm)).
  { eapply only_impl; [|apply le_prefix_only]. by intros ev ->. }
  unfold coordinate_post. intros H.
  destruct (enableLeaderElection f); [|by eapply Hrun].
  destruct (NewLeaderElectionClientset w).
  { destruct H as [-> _]. only_tac. }
  destruct H as (t_run & -> & H). rewrite only_app. split; [exact Hle|].
  destruct (le_invokes_run (LeaderElectionRun w)).
  - destruct H as (r' & Hr & _). by eapply Hrun.
  - destruct H as [-> _]. constructor.
Qed.

(** C8 (as the code has it).  With both [--metrics-address] and
    [--http-endpoint] set the run never gets past the check of line 140:
    nothing but the feature gates, NODE_NAME, the version and the error
    message is logged (no client, no connection, no RPC, no controller),
    and the run ends; the exit status is not zero unless [--version] was
    given, and it is [os.Exit(1)] after the error message when no earlier
    check ended the run.  With neither flag set the check passes: no
    diagnostics server is ever started, and unless an earlier check ended
    the run it goes on to read KUBECONFIG. *)
Theorem C8_both_endpoints_exit_neither_continues
    (f : Flags) (e : Env) (w : World) :
  (metricsAddress f <> "" -> httpEndpoint f <> "" ->
     only early_event (calls f e w) /\
     exists h,
       outcome f e w = inr h /\
       (showVersion f = false -> exit_code h <> 0) /\
       (SetFromMap w (featureGates f) = None ->
        enableNodeDeployment f && String.eqb (getenv_value e "NODE_NAME") ""
        = false ->
        showVersion f = false ->
        h = Exit 1 /\ In (EvLogError only_one_endpoint) (calls f e w))) /\
  (metricsAddress f = "" -> httpEndpoint f = "" ->
     Forall (fun ev => server_event ev = false) (calls f e w) /\
     (SetFromMap w (featureGates f) = None ->
      enableNodeDeployment f && String.eqb (getenv_value e "NODE_NAME") ""
      = false ->
      showVersion f = false ->
      In (EvGetenv "KUBECONFIG") (calls f e w))).
Proof.
  pose proof (main_run f e w) as H. split.
  - intros Hm Hh.
    assert (Hboth : nonempty (metricsAddress f) && nonempty (httpEndpoint f)
                    = true)
      by (by rewrite (proj2 (nonempty_true _) Hm), (proj2 (nonempty_true _) Hh)).
    open_run H.
    1-5, 7: destruct (configure_returns _ _ _ _ _ P_conf) as (_ & _ & Hno & _);
            congruence.
    rewrite Hcalls, Hout. clear Hcalls Hout.
    unfold configure_post in P_conf. rewrite Hboth in P_conf.
    destruct (SetFromMap w (featureGates f)) as [err|].
    { destruct P_conf as [-> [= ->]]. split; [only_tac|].
      eexists. split; [reflexivity|]. split; [done|]. done. }
    destruct (enableNodeDeployment f && _).
    { destruct P_conf as [-> [= ->]]. split; [only_tac|].
      eexists. split; [reflexivity|]. split; [done|]. done. }
    destruct (showVersion f).
    { destruct P_conf as [-> [= ->]]. split; [only_tac|].
      eexists. split; [reflexivity|]. split; [done|]. done. }
    destruct P_conf as [-> [= ->]]. split; [only_tac|].
    eexists. split; [reflexivity|]. split; [done|].
    intros _ _ _. split; [reflexivity|]. right. right. by left.
  - intros Hm Hh.
    assert (Hsrv : server_events f = []).
    { unfold server_events, addr. rewrite Hm, Hh. reflexivity. }
    assert (Hboth : nonempty (metricsAddress f) && nonempty (httpEndpoint f)
                    = false) by (by rewrite Hm).
    assert (Hk : forall t r,
              configure_post f e w t r ->
              SetFromMap w (featureGates f) = None ->
              enableNodeDeployment f && String.eqb (getenv_value e "NODE_NAME") ""
              = false ->
              showVersion f = false ->
              In (EvGetenv "KUBECONFIG") t).
    { intros t r Hp H1 H2 H3. unfold configure_post in Hp.
      rewrite H1, H2, H3, Hboth in Hp. destruct Hp as (t' & -> & _).
      right. right. by left. }
    assert (Hno : forall p t,
              (forall ev, p ev = true -> server_event ev = false) ->
              only p t -> Forall (fun ev => server_event ev = false) t).
    { intros p t Hp Ht. eapply Forall_impl; [exact Ht|]. exact Hp. }
    open_run H.
    7: { unfold mux_panics, addr in Hmux. by rewrite Hm, Hh in Hmux. }
    2-6: split;
      [ rewrite Hcalls, ?Forall_app; repeat split;
        (eapply Hno; [|eassumption]); by intros []
      | intros H1 H2 H3; rewrite Hcalls; repeat (apply in_or_app; left);
        by eapply Hk ].
    split.
    + rewrite Hcalls, !Forall_app. repeat split.
      1-5: (eapply Hno; [|eassumption]); by intros [].
      * destruct P_ctl as [-> _]. rewrite Hsrv. by repeat constructor.
      * eapply Hno; [|by eapply coordinate_only]. by intros [].
    + intros H1 H2 H3. rewrite Hcalls. repeat (apply in_or_app; left).
      by eapply Hk.
Qed.

(** ** The connection of a migrated driver *)

Lemma count_events_app p l1 l2 :
  count_events p (l1 ++ l2) = (count_events p l1 + count_events p l2)%nat.
Proof. unfold count_events. by rewrite List.filter_app, length_app. Qed.

Lemma count_events_none (p q : Event -> bool) l :
  (forall ev, q ev = true -> p ev = false) -> only q l -> count_events p l = 0%nat.
Proof.
  intros Hpq Hl. unfold count_events.
  induction Hl as [|ev l Hev _ IH]; [reflexivity|].
  simpl. by rewrite (Hpq _ Hev).
Qed.

Lemma identify_name f w t r name :
  identify_post f w t r -> In (EvSetDriverName SidecarManager name) t ->
  Connect w (csiEndpoint f) SidecarManager = None /\
  Probe w SidecarManager = None /\
  GetDriverName w SidecarManager = Ok name.
Proof.
  unfold identify_post, identify_base. intros H Hin.
  destruct (Connect w (csiEndpoint f) SidecarManager).
  { destruct H as [-> _]. repeat (destruct Hin as [Hin|Hin]; try done). }
  destruct (Probe w SidecarManager).
  { destruct H as [-> _]. repeat (destruct Hin as [Hin|Hin]; try done). }
  destruct (GetDriverName w SidecarManager) as [name'|].
  2: { destruct H as [-> _]. repeat (destruct Hin as [Hin|Hin]; try done). }
  enough (name' = name) by (by subst).
  destruct (IsMigratedCSIDriverByName w name').
  2: { destruct H as [-> _].
       repeat (destruct Hin as [Hin|Hin]; try done). by injection Hin. }
  destruct (GetInTreeNameFromCSIName w name').
  2: { destruct H as [-> _].
       repeat (destruct Hin as [Hin|Hin]; try done). by injection Hin. }
  destruct (Connect w (csiEndpoint f) MigratedManager).
  { destruct H as [-> _]. cbn [app] in Hin.
    repeat (destruct Hin as [Hin|Hin]; try done). by injection Hin. }
  destruct (Probe w MigratedManager).
  { destruct H as [-> _]. cbn [app] in Hin.
    repeat (destruct Hin as [Hin|Hin]; try done). by injection Hin. }
  destruct H as [-> _]. cbn [app] in Hin.
  repeat (destruct Hin as [Hin|Hin]; try done). by injection Hin.
Qed.

Lemma migration_core f w name pre t post (r : Driver + Halt)
    (out : unit + Halt) :
  identify_post f w t r ->
  count_events is_connect pre = 0%nat -> count_events is_probe pre = 0%nat ->
  count_events is_connect post = 0%nat -> count_events is_probe post = 0%nat ->
  (forall h, r = inr h -> post = [] /\ out = inr h) ->
  In (EvSetDriverName SidecarManager name) t ->
  migration_outcome f w name (pre ++ t ++ post) out.
Proof.
  intros Hid Hc1 Hp1 Hc2 Hp2 Hhalt Hin.
  destruct (identify_name _ _ _ _ _ Hid Hin) as (E1 & E2 & E3).
  unfold identify_post in Hid. rewrite E1, E2, E3 in Hid.
  unfold migration_outcome.
  rewrite !count_events_app, Hc1, Hp1, Hc2, Hp2.
  destruct (IsMigratedCSIDriverByName w name).
  2: { by destruct Hid as [-> _]. }
  destruct (GetInTreeNameFromCSIName w name).
  2: { destruct Hid as [-> ->]. by destruct (Hhalt _ eq_refl) as [-> ->]. }
  destruct (Connect w (csiEndpoint f) MigratedManager).
  { destruct Hid as [-> ->]. destruct (Hhalt _ eq_refl) as [-> ->].
    split; [reflexivity|]. exists pre. by rewrite app_nil_r. }
  destruct (Probe w MigratedManager).
  { destruct Hid as [-> ->]. destruct (Hhalt _ eq_refl) as [-> ->].
    split; [reflexivity|]. exists pre. by rewrite app_nil_r. }
  destruct Hid as [-> _]. split; [|done].
  exists pre, post. by rewrite <- !app_assoc.
Qed.

Lemma count_zero_app p l1 l2 :
  count_events p l1 = 0%nat -> count_events p l2 = 0%nat ->
  count_events p (l1 ++ l2) = 0%nat.
Proof. intros H1 H2. by rewrite count_events_app, H1, H2. Qed.

(** C7. Once the driver name is known: if the translation library knows it
    as a migrated driver, the in-tree name is looked up (failure:
    [klog.Fatalf]), a metrics manager with the migration option is made, a
    second connection is opened with it (failure: exit 1), the first
    connection is closed and the driver is probed again over the new one
    (failure: exit 1), so that the run has connected twice and probed
    twice; otherwise the run connects once and probes once. *)
Theorem C7_migrated_driver_reconnects
    (f : Flags) (e : Env) (w : World) (name : string) :
  In (EvSetDriverName SidecarManager name) (calls f e w) ->
  GetDriverName w SidecarManager = Ok name /\
  migration_outcome f w name (calls f e w) (outcome f e w).
Proof.
  intros Hin. pose proof (main_run f e w) as H. open_run H.
  6: { rewrite Hcalls in Hin. by apply (only_In _ _ _ O_conf) in Hin. }
  all: assert (Hc1 : count_events is_connect t_conf = 0%nat)
         by (eapply count_events_none; [|exact O_conf]; by intros []);
       assert (Hp1 : count_events is_probe t_conf = 0%nat)
         by (eapply count_events_none; [|exact O_conf]; by intros []).
  all: assert (Ht : In (EvSetDriverName SidecarManager name) t_id).
  1: { rewrite Hcalls in Hin.
       apply coordinate_only in H.
       repeat (apply in_app_or in Hin as [Hin|Hin]); try assumption;
         match goal with
         | Hq : only _ ?t, Hi : In _ ?t |- _ =>
             by apply (only_In _ _ _ Hq) in Hi
         end. }
  2,4,6,8,10: rewrite Hcalls in Hin;
       repeat (apply in_app_or in Hin as [Hin|Hin]); try assumption;
         match goal with
         | Hq : only _ ?t, Hi : In _ ?t |- _ =>
             by apply (only_In _ _ _ Hq) in Hi
         end.
  all: split; [by destruct (identify_name _ _ _ _ _ P_id Ht) as (_ & _ & ?)|].
  all: rewrite Hcalls, <- ?app_assoc.
  5: { rewrite Hout. rewrite <- (app_nil_r t_id).
       eapply migration_core; eauto; try reflexivity.
       by intros h0 [= ->]. }
  all: eapply migration_core; eauto; try discriminate;
    repeat apply count_zero_app;
    try (eapply count_events_none; [|eassumption]; by intros []).
  all: apply coordinate_only in H;
    (eapply count_events_none; [|exact H]); by intros [].
Qed.

(** ** Capability-dependent listers *)

(** Splits a membership in a log over the parts of the run and drops the
    parts that cannot log the event. *)
Ltac in_parts Hin :=
  repeat (apply in_app_or in Hin as [Hin|Hin]);
  try (match goal with
       | Hq : only _ ?t, Hi : In _ ?t |- _ =>
           by apply (only_In _ _ _ Hq) in Hi
       end).

Ltac in_calls := repeat rewrite in_app_iff; simpl; tauto.

Lemma listers_capabilities f w su dr t r :
  listers_post f w su dr t r ->
  In (EvGetDriverCapabilities (dr_grpcClient dr) (operationTimeout f)) t /\
  (forall c tmo, In (EvGetDriverCapabilities c tmo) t -> c = dr_grpcClient dr) /\
  (forall ls, r = inl ls ->
     GetDriverCapabilities w (dr_grpcClient dr)
     = Ok (ls_pluginCapabilities ls, ls_controllerCapabilities ls) /\
     ls_vaLister ls = va_lister (ls_controllerCapabilities ls)) /\
  (forall h, r = inr h ->
     (exists err, GetDriverCapabilities w (dr_grpcClient dr) = Err err) \/
     (enableNodeDeployment f = true /\
      exists err, GetNodeInfo w (dr_grpcClient dr) = Err err)) /\
  (forall caps, GetDriverCapabilities w (dr_grpcClient dr) = Ok caps ->
     (In (EvInformerFor SharedFactory VolumeAttachments) t <->
      has_capability (snd caps)
        ControllerServiceCapability_RPC_PUBLISH_UNPUBLISH_VOLUME = true)) /\
  (In (EvInformerFor SharedFactory VolumeAttachments) t ->
   exists caps, GetDriverCapabilities w (dr_grpcClient dr) = Ok caps).
Proof.
  unfold listers_post, listers_head, listers_of, local_topology_events,
    va_events, va_lister, listers_result.
  intros H.
  destruct (GetDriverCapabilities w (dr_grpcClient dr)) as [[pc cc]|err].
  2: { destruct H as [-> ->]. repeat split; try done.
       - by left.
       - intros c tmo [[= -> _]|[]]. reflexivity.
       - intros h _. left. by eexists.
       - intros [[=]|[]]. }
  cbn [fst snd] in *.
  destruct (has_capability cc _) eqn:Hcap;
    destruct (enableNodeDeployment f);
    [ destruct (GetNodeInfo w (dr_grpcClient dr)) as [ni|err]
    | | destruct (GetNodeInfo w (dr_grpcClient dr)) as [ni|err] | ];
    try destruct (SupportsTopology w pc);
    destruct H as [-> ->]; cbn [app].
  all: split; [by left|].
  all: split;
    [ intros c tmo Hin;
      repeat (destruct Hin as [Hin|Hin]; try discriminate Hin);
      first [by injection Hin | done] |].
  all: split; [intros ls0 [= <-]; cbn; by rewrite ?Hcap|].
  all: split;
    [ intros h0 Hh;
      first [ discriminate Hh
            | right; split; [reflexivity | by eexists] ] |].
  all: split; [| intros _; by eexists].
  all: intros caps [= <-]; cbn [snd]; rewrite Hcap; split; try done.
  all: try (intros _; right; right; right; right; by left).
  all: intros Hin;
    repeat (destruct Hin as [Hin|Hin]; try discriminate Hin); done.
Qed.

(** C5. The VolumeAttachment lister is asked of the shared factory exactly
    when the controller capabilities that the driver returned include
    PUBLISH_UNPUBLISH_VOLUME.  The provisioner is constructed with that
    lister, or with nil when the capability is missing; and a run whose
    driver lacks the capability still constructs the provisioner (given
    that the node info, if needed, could be fetched). *)
Theorem C5_attachment_lister_follows_capability
    (f : Flags) (e : Env) (w : World) :
  (forall c tmo pc cc,
     In (EvGetDriverCapabilities c tmo) (calls f e w) ->
     GetDriverCapabilities w c = Ok (pc, cc) ->
     (In (EvInformerFor SharedFactory VolumeAttachments) (calls f e w) <->
      has_capability cc ControllerServiceCapability_RPC_PUBLISH_UNPUBLISH_VOLUME
      = true) /\
     (has_capability cc ControllerServiceCapability_RPC_PUBLISH_UNPUBLISH_VOLUME
      = false ->
      (enableNodeDeployment f = true -> exists ni, GetNodeInfo w c = Ok ni) ->
      exists args,
        In (EvNewCSIProvisioner args) (calls f e w) /\
        pa_vaLister args = None)) /\
  (In (EvInformerFor SharedFactory VolumeAttachments) (calls f e w) ->
   exists c tmo pc cc,
     In (EvGetDriverCapabilities c tmo) (calls f e w) /\
     GetDriverCapabilities w c = Ok (pc, cc) /\
     has_capability cc ControllerServiceCapability_RPC_PUBLISH_UNPUBLISH_VOLUME
     = true) /\
  (forall args,
     In (EvNewCSIProvisioner args) (calls f e w) ->
     pa_vaLister args = va_lister (pa_controllerCapabilities args)).
Proof.
  pose proof (main_run f e w) as H. open_run H.
  (* the run in which [mux.Handle] panicked *)
  7: { destruct (listers_capabilities _ _ _ _ _ _ P_ls)
         as (Hask & Hconn & Hret & Hhalt & Hva & Hva').
       destruct (Hret _ eq_refl) as [Hcaps Hls]. destruct P_pv as [Epv _].
       split; [|split].
       + intros c tmo pc cc Hin Hc. rewrite Hcalls in Hin. in_parts Hin.
         apply Hconn in Hin as ->. rewrite Hcaps in Hc. injection Hc as <- <-.
         split.
         * rewrite <- (Hva _ Hcaps). split; [|rewrite Hcalls; in_calls].
           intros Hin. rewrite Hcalls in Hin. by in_parts Hin.
         * intros Hcap _. exists (provisioner_args f dr ls). split.
           -- rewrite Hcalls, Epv. in_calls.
           -- cbn. rewrite Hls. unfold va_lister. by rewrite Hcap.
       + intros Hin. rewrite Hcalls in Hin. in_parts Hin.
         exists (dr_grpcClient dr), (operationTimeout f), (ls_pluginCapabilities ls),
                (ls_controllerCapabilities ls).
         split; [rewrite Hcalls; in_calls|]. split; [exact Hcaps|].
         by apply (Hva _ Hcaps).
       + intros args Hin. rewrite Hcalls in Hin. in_parts Hin.
         rewrite Epv in Hin. destruct Hin as [[=]|[[= <-]|[]]]. exact Hls. }
  (* the runs that stopped before the capabilities were asked for *)
  5,6: (split; [|split]);
    [ intros c tmo pc cc Hin; rewrite Hcalls in Hin; in_parts Hin
    | intros Hin; rewrite Hcalls in Hin; in_parts Hin
    | intros args Hin; rewrite Hcalls in Hin; in_parts Hin ].
  (* the provisioner part always returns *)
  3: { by destruct P_pv as [_ ?]. }
  1: apply coordinate_only in H.
  all: destruct (listers_capabilities _ _ _ _ _ _ P_ls)
         as (Hask & Hconn & Hret & Hhalt & Hva & Hva').
  all: split; [|split].
  (* the runs that built the provisioner *)
  1-6: destruct (Hret _ eq_refl) as [Hcaps Hls].
  1-6: destruct P_pv as [Epv _].
  - intros c tmo pc cc Hin Hc. rewrite Hcalls in Hin. in_parts Hin.
    apply Hconn in Hin as ->. rewrite Hcaps in Hc. injection Hc as <- <-.
    split.
    + rewrite <- (Hva _ Hcaps). split; [|rewrite Hcalls; in_calls].
      intros Hin. rewrite Hcalls in Hin. by in_parts Hin.
    + intros Hcap _. exists (provisioner_args f dr ls). split.
      * rewrite Hcalls, Epv. in_calls.
      * cbn. rewrite Hls. unfold va_lister. by rewrite Hcap.
  - intros Hin. rewrite Hcalls in Hin. in_parts Hin.
    exists (dr_grpcClient dr), (operationTimeout f), (ls_pluginCapabilities ls),
           (ls_controllerCapabilities ls).
    split; [rewrite Hcalls; in_calls|]. split; [exact Hcaps|].
    by apply (Hva _ Hcaps).
  - intros args Hin. rewrite Hcalls in Hin. in_parts Hin.
    rewrite Epv in Hin. destruct Hin as [[=]|[[= <-]|[]]]. exact Hls.
  - intros c tmo pc cc Hin Hc. rewrite Hcalls in Hin. in_parts Hin.
    apply Hconn in Hin as ->. rewrite Hcaps in Hc. injection Hc as <- <-.
    split.
    + rewrite <- (Hva _ Hcaps). split; [|rewrite Hcalls; in_calls].
      intros Hin. rewrite Hcalls in Hin. by in_parts Hin.
    + intros Hcap _. exists (provisioner_args f dr ls). split.
      * rewrite Hcalls, Epv. in_calls.
      * cbn. rewrite Hls. unfold va_lister. by rewrite Hcap.
  - intros Hin. rewrite Hcalls in Hin. in_parts Hin.
    exists (dr_grpcClient dr), (operationTimeout f), (ls_pluginCapabilities ls),
           (ls_controllerCapabilities ls).
    split; [rewrite Hcalls; in_calls|]. split; [exact Hcaps|].
    by apply (Hva _ Hcaps).
  - intros args Hin. rewrite Hcalls in Hin. in_parts Hin.
    rewrite Epv in Hin. destruct Hin as [[=]|[[= <-]|[]]]. exact Hls.
  (* the run that stopped while fetching capabilities or node info *)
  - intros c tmo pc cc Hin Hc. rewrite Hcalls in Hin. in_parts Hin.
    apply Hconn in Hin as ->.
    split.
    + rewrite <- (Hva _ Hc). split; [|rewrite Hcalls; in_calls].
      intros Hin. rewrite Hcalls in Hin. by in_parts Hin.
    + intros _ Hni. exfalso.
      destruct (Hhalt _ eq_refl) as [[err Herr]|[Hnd [err Herr]]];
        [congruence|].
      destruct (Hni Hnd) as [ni Hni']. congruence.
  - intros Hin. rewrite Hcalls in Hin. in_parts Hin.
    destruct (Hva' Hin) as [[pc cc] Hc].
    exists (dr_grpcClient dr), (operationTimeout f), pc, cc.
    split; [rewrite Hcalls; in_calls|]. split; [exact Hc|].
    by apply (Hva _ Hc).
  - intros args Hin. rewrite Hcalls in Hin. in_parts Hin.
Qed.

(** ** The owner of the capacity objects *)

(** The only place of an event of kind [p] in a log. *)
Lemma split_at_unique (p : Event -> bool) A x B pre ev post :
  only (without p) A -> only (without p) B -> p ev = true ->
  (A ++ x :: B)%list = (pre ++ ev :: post)%list ->
  pre = A /\ ev = x /\ post = B.
Proof.
  intros HA HB Hev. revert pre.
  induction A as [|a A IH]; intros pre Heq.
  - destruct pre as [|y pre]; simpl in Heq.
    + by injection Heq as -> ->.
    + injection Heq as -> ->. apply only_app in HB as [_ HB].
      inversion HB as [|? ? Hb _]; subst. unfold without in Hb.
      by rewrite Hev in Hb.
  - inversion HA as [|? ? Ha HA']; subst.
    destruct pre as [|y pre]; simpl in Heq.
    + injection Heq as -> _. unfold without in Ha. by rewrite Hev in Ha.
    + injection Heq as -> Heq. destruct (IH HA' pre Heq) as (-> & -> & ->).
      done.
Qed.

Lemma only_without (p q : Event -> bool) t :
  (forall ev, q ev = true -> p ev = false) -> only q t -> only (without p) t.
Proof.
  intros H. apply only_impl. intros ev Hev. unfold without. by rewrite (H _ Hev).
Qed.

Lemma configure_not_pod_name ev :
  configure_event ev = true -> is_pod_name_read ev = false.
Proof.
  destruct ev; try done. simpl.
  destruct (String.eqb_spec name "NODE_NAME") as [->|]; [done|].
  destruct (String.eqb_spec name "KUBECONFIG") as [->|]; done.
Qed.

Lemma identify_returns f w t dr :
  identify_post f w t (inl dr) ->
  In (EvProbe SidecarManager (operationTimeout f)) t /\
  In (EvGetDriverName SidecarManager (operationTimeout f)) t.
Proof.
  unfold identify_post, identify_base. intros H.
  destruct (Connect w (csiEndpoint f) SidecarManager); [by destruct H|].
  destruct (Probe w SidecarManager); [by destruct H|].
  destruct (GetDriverName w SidecarManager) as [name|]; [|by destruct H].
  destruct (IsMigratedCSIDriverByName w name).
  2: { destruct H as [-> _]. split; in_calls. }
  destruct (GetInTreeNameFromCSIName w name); [|by destruct H].
  destruct (Connect w (csiEndpoint f) MigratedManager); [by destruct H|].
  destruct (Probe w MigratedManager); [by destruct H|].
  destruct H as [-> _]. split; in_calls.
Qed.

Lemma capacity_without_pod_name f e w su dr ls pv t r :
  capacity_post f e w su dr ls pv t r ->
  enableCapacity f = true -> (0 <= capacityOwnerrefLevel f)%Z ->
  getenv_value e "POD_NAME" = "" ->
  (t = [EvGetenv "NAMESPACE"] /\ r = inr (KlogFatal need_NAMESPACE)) \/
  (t = [EvGetenv "NAMESPACE"; EvGetenv "POD_NAME"] /\
   r = inr (KlogFatal need_POD_NAME)).
Proof.
  unfold capacity_post. intros H Hc Hlevel Hp. rewrite Hc, Hp in H.
  destruct (String.eqb (getenv_value e "NAMESPACE") ""); [by left|].
  destruct (Z.leb_spec 0 (capacityOwnerrefLevel f)); [|lia].
  by right.
Qed.

(** C2 (as the code has it).  With capacity publishing on, an owner level
    of 1 and no POD_NAME, a run never completes, never looks up an owner
    and never starts a controller.  The POD_NAME check is not ahead of the
    backend RPCs, though: when the run reads POD_NAME (and then stops with
    the fatal POD_NAME message, that read being the last entry of the
    log), it has already sent Probe, GetDriverName and
    GetDriverCapabilities to the driver. *)
Theorem C2_pod_name_checked_after_rpcs (f : Flags) (e : Env) (w : World) :
  enableCapacity f = true ->
  capacityOwnerrefLevel f = 1%Z ->
  getenv_value e "POD_NAME" = "" ->
  (exists h, outcome f e w = inr h) /\
  Forall (fun ev => is_controller_run ev = false /\ is_owner_lookup ev = false)
         (calls f e w) /\
  (forall pre post,
     calls f e w = (pre ++ EvGetenv "POD_NAME" :: post)%list ->
     post = [] /\
     outcome f e w = inr (KlogFatal need_POD_NAME) /\
     (exists c tmo, In (EvProbe c tmo) pre) /\
     (exists c tmo, In (EvGetDriverName c tmo) pre) /\
     (exists c tmo, In (EvGetDriverCapabilities c tmo) pre)).
Proof.
  intros Hcap Hlevel Hpod.
  assert (Hl : (0 <= capacityOwnerrefLevel f)%Z) by lia.
  pose proof (main_run f e w) as H. open_run H.
  (* the capacity part cannot return *)
  7: destruct (capacity_without_pod_name _ _ _ _ _ _ _ _ _ P_cap Hcap Hl Hpod)
       as [[_ [=]]|[_ [=]]].
  1: destruct (capacity_without_pod_name _ _ _ _ _ _ _ _ _ P_cap Hcap Hl Hpod)
       as [[_ [=]]|[_ [=]]].
  (* stopped in the capacity part *)
  1: { destruct (capacity_without_pod_name _ _ _ _ _ _ _ _ _ P_cap Hcap Hl Hpod)
         as [[-> [= ->]]|[-> [= ->]]].
       all: split; [by eexists|]; split.
       1,3: rewrite Hcalls, !Forall_app; repeat split;
            try (by repeat constructor);
            (eapply Forall_impl; [eassumption|]); by intros [].
       - intros pre post Heq. exfalso.
         assert (Hin : In (EvGetenv "POD_NAME") (calls f e w))
           by (rewrite Heq; in_calls).
         rewrite Hcalls in Hin. in_parts Hin.
         by destruct Hin as [[=]|[]].
       - intros pre post Heq. rewrite Hcalls in Heq.
         replace (t_conf ++ t_id ++ t_ls ++ t_pv ++
                  [EvGetenv "NAMESPACE"; EvGetenv "POD_NAME"])%list
           with ((t_conf ++ t_id ++ t_ls ++ t_pv ++ [EvGetenv "NAMESPACE"]) ++
                 EvGetenv "POD_NAME" :: [])%list in Heq
           by (by rewrite <- !app_assoc).
         assert (HA : only (without is_pod_name_read)
                   (t_conf ++ t_id ++ t_ls ++ t_pv ++ [EvGetenv "NAMESPACE"])).
         { rewrite !only_app. repeat split; try only_tac.
           - eapply only_without; [|exact O_conf].
             apply configure_not_pod_name.
           - eapply only_without; [|exact O_id]. by intros [].
           - eapply only_without; [|exact O_ls]. by intros [].
           - eapply only_without; [|exact O_pv]. by intros []. }
         assert (HB : only (without is_pod_name_read) []) by constructor.
         destruct (split_at_unique is_pod_name_read _ _ _
                     pre (EvGetenv "POD_NAME") post
                     HA HB eq_refl Heq) as (-> & _ & ->).
         split; [reflexivity|]. split; [by rewrite Hout|].
         destruct (identify_returns _ _ _ _ P_id) as [Hprobe Hname].
         destruct (listers_capabilities _ _ _ _ _ _ P_ls) as (Hask & _).
         split; [exists SidecarManager, (operationTimeout f); in_calls|].
         split; [exists SidecarManager, (operationTimeout f); in_calls|].
         exists (dr_grpcClient dr), (operationTimeout f). in_calls. }
  (* stopped earlier *)
  all: split; [by eexists|]; split;
    [ rewrite Hcalls, ?Forall_app; repeat split;
      (eapply Forall_impl; [eassumption|]); by intros []
    | intros pre post Heq; exfalso;
      assert (Hin : In (EvGetenv "POD_NAME") (calls f e w))
        by (rewrite Heq; in_calls);
      rewrite Hcalls in Hin; in_parts Hin ].
Qed.

(** The paths of the capacity part, one goal each, with the log and the
    result made explicit. *)
Ltac capacity_paths_of H f e w ls :=
  unfold capacity_post, capacity_built, topology_events in H;
  let Hlookup := fresh "Hlookup" in
  let Hpod := fresh "Hpod" in
  let Hlevel := fresh "Hlevel" in
  destruct (enableCapacity f);
  [ destruct (String.eqb (getenv_value e "NAMESPACE") "");
    [ | destruct (Z.leb_spec 0 (capacityOwnerrefLevel f)) as [Hlevel|Hlevel];
        [ destruct (String.eqb_spec (getenv_value e "POD_NAME") "")
            as [Hpod|Hpod];
          [ | destruct (OwnerLookup w (getenv_value e "NAMESPACE")
                          (getenv_value e "POD_NAME") (capacityOwnerrefLevel f))
                as [[?controller|] [?err|]] eqn:Hlookup;
              try destruct (ls_nodeDeployment ls) ]
        | destruct (ls_nodeDeployment ls) ] ]
  | ];
  destruct H as [-> ->]; cbn [app].

(** Decides a membership in an explicit list. *)
Ltac in_list Hin :=
  cbn [app] in Hin;
  repeat (destruct Hin as [Hin|Hin]; try discriminate Hin);
  try done.






(** ** Topology *)

Lemma listers_no_topology f w su dr t ls :
  listers_post f w su dr t (inl ls) ->
  SupportsTopology w (ls_pluginCapabilities ls) = false ->
  ls_csiNodeLister ls = None /\ ls_nodeLister ls = None /\
  only (without topology_cache_event) t.
Proof.
  unfold listers_post, listers_head, listers_of, listers_result,
    local_topology_events, va_events.
  intros H Hno.
  destruct (GetDriverCapabilities w (dr_grpcClient dr)) as [[pc cc]|];
    [|by destruct H].
  cbn [fst snd] in H.
  destruct (enableNodeDeployment f);
    [destruct (GetNodeInfo w (dr_grpcClient dr)); [|by destruct H]|];
    destruct (SupportsTopology w pc) eqn:Hst;
    destruct H as [-> Hr]; injection Hr as Hr; subst ls; cbn in Hno;
    try congruence.
  all: repeat split; destruct (has_capability cc _); only_tac.
Qed.

Lemma capacity_halt_logged f e w su dr ls pv t h :
  capacity_post f e w su dr ls pv t (inr h) -> t <> [].
Proof.
  remember (inr h) as r eqn:Hr. intros H.
  capacity_paths_of H f e w ls; done.
Qed.

Lemma provisioner_options_nodes f dr ls claimInformer :
  In (NodesLister (ls_nodeLister ls))
     (provisioner_options f dr ls claimInformer).
Proof.
  unfold provisioner_options.
  destruct (nonempty _); [apply in_or_app; left|]; simpl; tauto.
Qed.

(** C4 (as the code has it).  When the plugin capabilities of the driver
    do not include topology support, [ctrl.NewCSIProvisioner] is called
    with nil for both the CSINode lister and the node lister; up to that
    call no factory has been asked for a Node or CSINode informer; the
    call returns and [main] goes on to its next statement; and the
    provision controller gets a nil node lister as well.  (What the
    capacity controller builds after that call is a separate matter.) *)
Theorem C4_no_topology_support_nil_listers
    (f : Flags) (e : Env) (w : World) (args : ProvisionerArgs)
    (pre post : list Event) :
  calls f e w = (pre ++ EvNewCSIProvisioner args :: post)%list ->
  SupportsTopology w (pa_pluginCapabilities args) = false ->
  pa_csiNodeLister args = None /\
  pa_nodeLister args = None /\
  only (without topology_cache_event) pre /\
  post <> [] /\
  (forall driver p gitVersion options,
     In (EvNewProvisionController driver p gitVersion options) (calls f e w) ->
     In (NodesLister None) options).
Proof.
  intros Heq Hno.
  assert (Hin : In (EvNewCSIProvisioner args) (calls f e w))
    by (rewrite Heq; in_calls).
  pose proof (main_run f e w) as H. open_run H.
  4-6: rewrite Hcalls in Hin; in_parts Hin.
  3: by destruct P_pv as [_ ?].
  1: pose proof (coordinate_only _ _ _ _ _ H) as O_co.
  all: destruct P_pv as [Epv [= Hpv]]; subst pv.
  all: assert (HA : only (without is_new_provisioner)
                 (t_conf ++ t_id ++ t_ls ++
                  [EvInformerFor SharedFactory PersistentVolumeClaims]))
         by (rewrite !only_app; repeat split; try only_tac;
             (eapply only_without; [|eassumption]); by intros []).
  - assert (HB : only (without is_new_provisioner) (t_cap ++ t_ctl ++ t_co))
      by (rewrite !only_app; repeat split;
          (eapply only_without; [|eassumption]); by intros []).
    rewrite Hcalls, Epv in Heq.
    replace ((t_conf ++ t_id ++ t_ls ++
              [EvInformerFor SharedFactory PersistentVolumeClaims;
               EvNewCSIProvisioner (provisioner_args f dr ls)] ++
              t_cap ++ t_ctl) ++ t_co)%list
      with ((t_conf ++ t_id ++ t_ls ++
             [EvInformerFor SharedFactory PersistentVolumeClaims]) ++
            EvNewCSIProvisioner (provisioner_args f dr ls) ::
            (t_cap ++ t_ctl ++ t_co))%list in Heq
      by (rewrite <- !app_assoc; reflexivity).
    destruct (split_at_unique is_new_provisioner _ _ _
                pre (EvNewCSIProvisioner args) post HA HB eq_refl Heq)
      as (-> & [= ->] & ->).
    cbn in Hno.
    destruct (listers_no_topology _ _ _ _ _ _ P_ls Hno) as (Hc & Hn & Hq).
    split; [exact Hc|]. split; [exact Hn|]. split.
    { rewrite !only_app. repeat split; try only_tac; try exact Hq;
        (eapply only_without; [|eassumption]); by intros []. }
    destruct P_ctl as [Ectl _]. split.
    { rewrite Ectl. by destruct t_cap. }
    intros driver p gitVersion options Hi. rewrite Hcalls in Hi.
    in_parts Hi. rewrite Ectl in Hi.
    apply in_app_or in Hi as [Hi|Hi].
    + destruct Hi as [[= _ _ _ <-]|[[=]|[]]]. cbn.
      rewrite <- Hn. apply provisioner_options_nodes.
    + unfold server_events in Hi. destruct (nonempty (addr f)); in_list Hi.
  - assert (HB : only (without is_new_provisioner) t_cap)
      by ((eapply only_without; [|eassumption]); by intros []).
    rewrite Hcalls, Epv in Heq.
    replace (t_conf ++ t_id ++ t_ls ++
             [EvInformerFor SharedFactory PersistentVolumeClaims;
              EvNewCSIProvisioner (provisioner_args f dr ls)] ++ t_cap)%list
      with ((t_conf ++ t_id ++ t_ls ++
             [EvInformerFor SharedFactory PersistentVolumeClaims]) ++
            EvNewCSIProvisioner (provisioner_args f dr ls) :: t_cap)%list
      in Heq
      by (rewrite <- !app_assoc; reflexivity).
    destruct (split_at_unique is_new_provisioner _ _ _
                pre (EvNewCSIProvisioner args) post HA HB eq_refl Heq)
      as (-> & [= ->] & ->).
    cbn in Hno.
    destruct (listers_no_topology _ _ _ _ _ _ P_ls Hno) as (Hc & Hn & Hq).
    split; [exact Hc|]. split; [exact Hn|]. split.
    { rewrite !only_app. repeat split; try only_tac; try exact Hq;
        (eapply only_without; [|eassumption]); by intros []. }
    split; [by eapply capacity_halt_logged|].
    intros driver p gitVersion options Hi. rewrite Hcalls in Hi.
    in_parts Hi.
  - assert (HB : only (without is_new_provisioner) (t_cap ++ t_ctl))
      by (rewrite !only_app; repeat split;
          (eapply only_without; [|eassumption]); by intros []).
    rewrite Hcalls, Epv in Heq.
    replace (t_conf ++ t_id ++ t_ls ++
             [EvInformerFor SharedFactory PersistentVolumeClaims;
              EvNewCSIProvisioner (provisioner_args f dr ls)] ++
             t_cap ++ t_ctl)%list
      with ((t_conf ++ t_id ++ t_ls ++
             [EvInformerFor SharedFactory PersistentVolumeClaims]) ++
            EvNewCSIProvisioner (provisioner_args f dr ls) ::
            (t_cap ++ t_ctl))%list in Heq
      by (rewrite <- !app_assoc; reflexivity).
    destruct (split_at_unique is_new_provisioner _ _ _
                pre (EvNewCSIProvisioner args) post HA HB eq_refl Heq)
      as (-> & [= ->] & ->).
    cbn in Hno.
    destruct (listers_no_topology _ _ _ _ _ _ P_ls Hno) as (Hc & Hn & Hq).
    split; [exact Hc|]. split; [exact Hn|]. split.
    { rewrite !only_app. repeat split; try only_tac; try exact Hq;
        (eapply only_without; [|eassumption]); by intros []. }
    destruct P_ctl as [Ectl _]. split.
    { rewrite Ectl. by destruct t_cap. }
    intros driver p gitVersion options Hi. rewrite Hcalls in Hi.
    in_parts Hi. rewrite Ectl in Hi.
    destruct Hi as [[= _ _ _ <-]|[[=]|[[=]|[]]]]. cbn.
    rewrite <- Hn. apply provisioner_options_nodes.
Qed.

Lemma listers_without_node_deployment f w su dr t ls :
  listers_post f w su dr t (inl ls) ->
  enableNodeDeployment f = false ->
  ls_nodeDeployment ls = None /\
  ls_nodeLister ls
  = (if SupportsTopology w (ls_pluginCapabilities ls)
     then Some (SharedFactory, Nodes) else None) /\
  ls_csiNodeLister ls
  = (if SupportsTopology w (ls_pluginCapabilities ls)
     then Some (SharedFactory, CSINodes) else None).
Proof.
  unfold listers_post, listers_of, listers_result. intros H Hnd.
  rewrite Hnd in H.
  destruct (GetDriverCapabilities w (dr_grpcClient dr)) as [[pc cc]|];
    [|by destruct H].
  cbn [fst snd] in H.
  destruct (SupportsTopology w pc) eqn:Hst;
    destruct H as [_ Hr]; injection Hr as Hr; subst ls; cbn;
    by rewrite Hst.
Qed.

Lemma capacity_live_topology f e w su dr ls pv t r :
  capacity_post f e w su dr ls pv t r ->
  ls_nodeDeployment ls = None ->
  (forall args,
     In (EvNewCentralCapacityController args) t ->
     ca_topologyInformer args = live_topology (dr_provisionerName dr) /\
     In (EvNewNodeTopology (dr_provisionerName dr)
           (SharedFactory, Nodes) (SharedFactory, CSINodes)) t /\
     In (EvGoRunWorker (live_topology (dr_provisionerName dr))) t) /\
  (enableCapacity f = true ->
   getenv_value e "NAMESPACE" <> "" ->
   owner_resolves f e w ->
   In (EvNewNodeTopology (dr_provisionerName dr)
         (SharedFactory, Nodes) (SharedFactory, CSINodes)) t /\
   In (EvGoRunWorker (live_topology (dr_provisionerName dr))) t).
Proof.
  unfold capacity_post, capacity_built, topology_events, topology_of,
    owner_resolves, live_topology.
  intros H Hnd. rewrite Hnd in H.
  destruct (enableCapacity f).
  2: { destruct H as [-> _]. split; [by intros args []|]. done. }
  destruct (String.eqb_spec (getenv_value e "NAMESPACE") "") as [Hns|Hns].
  { destruct H as [-> _]. split; [|done].
    intros args Hin. in_list Hin. }
  destruct (Z.leb_spec 0 (capacityOwnerrefLevel f)) as [Hlevel|Hlevel].
  2: { destruct H as [-> _]. split.
       - intros args Hin. in_list Hin. injection Hin as <-. cbn.
         split; [reflexivity|]. split; in_calls.
       - intros _ _ _. split; in_calls. }
  destruct (String.eqb_spec (getenv_value e "POD_NAME") "") as [Hpod|Hpod].
  { destruct H as [-> _]. split.
    - intros args Hin. in_list Hin.
    - intros _ _ [Hlt|[Hne _]]; [lia | done]. }
  destruct (OwnerLookup w (getenv_value e "NAMESPACE")
              (getenv_value e "POD_NAME") (capacityOwnerrefLevel f))
    as [[controller|] [err|]] eqn:Hlookup.
  1,3,4: destruct H as [-> _]; split;
    [ intros args Hin; in_list Hin
    | intros _ _ [Hlt|[_ [c Hc]]]; [lia | discriminate Hc] ].
  destruct H as [-> _]. split.
  - intros args Hin. in_list Hin. injection Hin as <-. cbn.
    split; [reflexivity|]. split; in_calls.
  - intros _ _ _. split; in_calls.
Qed.

Lemma capacity_live_built f e w su dr ls pv t r :
  capacity_post f e w su dr ls pv t r ->
  ls_nodeDeployment ls = None ->
  enableCapacity f = true ->
  (getenv_value e "NAMESPACE" <> "" -> owner_resolves f e w ->
   exists cp, r = inl cp) /\
  (forall cp,
     r = inl cp ->
     exists head tail cargs,
       starts_live_topology (dr_provisionerName dr) head tail t /\
       In (EvNewCentralCapacityController cargs) tail /\
       ca_topologyInformer cargs = live_topology (dr_provisionerName dr) /\
       cp_csiProvisioner cp = ProvisionWrapper (pv_csiProvisioner pv) cargs).
Proof.
  unfold capacity_post, capacity_built, topology_events, topology_of,
    owner_resolves, starts_live_topology, live_topology.
  intros H Hnd Hcap. rewrite Hnd, Hcap in H.
  destruct (String.eqb_spec (getenv_value e "NAMESPACE") "") as [Hns|Hns].
  { destruct H as [-> ->]. split; [done|]. by intros cp. }
  destruct (Z.leb_spec 0 (capacityOwnerrefLevel f)) as [Hlevel|Hlevel].
  2: { destruct H as [-> ->]. split; [by eexists|].
       intros cp [= <-]. eexists [EvGetenv "NAMESPACE"], _, _.
       split; [reflexivity|]. split; [right; by left|]. by split. }
  destruct (String.eqb_spec (getenv_value e "POD_NAME") "") as [Hpod|Hpod].
  { destruct H as [-> ->]. split; [|by intros cp].
    intros _ [Hlt|[Hne _]]; [lia | done]. }
  destruct (OwnerLookup w (getenv_value e "NAMESPACE")
              (getenv_value e "POD_NAME") (capacityOwnerrefLevel f))
    as [[controller|] [err|]] eqn:Hlookup.
  1,3,4: destruct H as [-> ->]; split; [|by intros cp];
         intros _ [Hlt|[_ [c Hc]]]; [lia | discriminate Hc].
  destruct H as [-> ->]. split; [by eexists|].
  intros cp [= <-].
  eexists [EvGetenv "NAMESPACE"; EvGetenv "POD_NAME"; EvOwnerLookup _ _ _], _, _.
  split; [reflexivity|]. split; [right; by left|]. by split.
Qed.

(** ** Further properties of [main] *)

(** *** The driver that the rest of [main] works with *)

Lemma identify_driver f w t dr :
  identify_post f w t (inl dr) ->
  GetDriverName w SidecarManager = Ok (dr_provisionerName dr) /\
  ((IsMigratedCSIDriverByName w (dr_provisionerName dr) = false /\
    dr_grpcClient dr = SidecarManager /\
    dr_supportsMigrationFromInTreePluginName dr = "" /\
    ~ In (EvCloseConn SidecarManager) t) \/
   (IsMigratedCSIDriverByName w (dr_provisionerName dr) = true /\
    dr_grpcClient dr = MigratedManager /\
    GetInTreeNameFromCSIName w (dr_provisionerName dr)
    = Ok (dr_supportsMigrationFromInTreePluginName dr))).
Proof.
  unfold identify_post, identify_base. intros H.
  destruct (Connect w (csiEndpoint f) SidecarManager); [by destruct H|].
  destruct (Probe w SidecarManager); [by destruct H|].
  destruct (GetDriverName w SidecarManager) as [name|]; [|by destruct H].
  destruct (IsMigratedCSIDriverByName w name) eqn:Hmig.
  2: { destruct H as [-> [= ->]]. cbn. split; [reflexivity|]. left.
       repeat split; try done. intros Hin. in_list Hin. }
  destruct (GetInTreeNameFromCSIName w name) eqn:Hin; [|by destruct H].
  destruct (Connect w (csiEndpoint f) MigratedManager); [by destruct H|].
  destruct (Probe w MigratedManager); [by destruct H|].
  destruct H as [_ [= ->]]. cbn. split; [reflexivity|]. right. by rewrite Hmig.
Qed.

(** *** The name of the election lock *)

Lemma replace_slash_length s :
  String.length (replace_slash s) = String.length s.
Proof. induction s as [|c s IH]; simpl; [reflexivity | by rewrite IH]. Qed.

Lemma replace_slash_no_slash s :
  ~ In "/"%char (String.list_ascii_of_string (replace_slash s)).
Proof.
  induction s as [|c s IH]; simpl; [tauto|].
  intros [Hc|Hin]; [|by apply IH].
  destruct (Ascii.eqb_spec c "/"%char) as [->|Hne]; [discriminate Hc|].
  by apply Hne.
Qed.

Lemma replace_slash_unchanged s :
  ~ In "/"%char (String.list_ascii_of_string s) -> replace_slash s = s.
Proof.
  induction s as [|c s IH]; simpl; [reflexivity|]. intros Hno.
  destruct (Ascii.eqb_spec c "/"%char) as [->|Hne]; [tauto|].
  rewrite IH; [reflexivity | tauto].
Qed.

Lemma run_post_only f w asm t r : run_post f w asm t r -> only run_event t.
Proof.
  intros (rs & t_ns & res & t_loops & -> & Hns & _ & _ & Hend).
  rewrite !only_app. repeat split.
  - only_tac.
  - eapply only_impl; [|exact Hns]. by intros [].
  - only_tac.
  - assert (t_loops = [] \/ t_loops = run_loops f asm) as [->| ->]
      by (destruct (forallb snd res); tauto).
    + constructor.
    + eapply only_impl; [|apply run_loops_only]. by intros [].
Qed.

(** What lines 550-575 log of the election comes from the election
    branch, up to [le.Run()]. *)
Lemma coordinate_election_events f w asm t r ev :
  coordinate_post f w asm t r -> In ev t -> election_event ev = true ->
  enableLeaderElection f = true /\ In ev (le_prefix f asm).
Proof.
  unfold coordinate_post. intros H Hin Hev.
  assert (Hrun : forall t' r', run_post f w asm t' r' -> ~ In ev t').
  { intros t' r' Hr Hi. apply run_post_only in Hr.
    apply (only_In _ _ _ Hr) in Hi. destruct ev; discriminate. }
  destruct (enableLeaderElection f); [|by destruct (Hrun _ _ H)].
  split; [reflexivity|].
  destruct (NewLeaderElectionClientset w).
  { destruct H as [-> _]. in_list Hin. subst. by left. }
  destruct H as (t_run & -> & H).
  apply in_app_or in Hin as [Hin|Hin]; [exact Hin|].
  destruct (le_invokes_run (LeaderElectionRun w)).
  - destruct H as (r' & Hr & _). by destruct (Hrun _ _ Hr).
  - by destruct H as [-> _].
Qed.

Lemma coordinate_lock_name f w asm t r lockName :
  coordinate_post f w asm t r -> In (EvNewLeaderElection lockName) t ->
  lockName = replace_slash (as_provisionerName asm).
Proof.
  intros H Hin.
  destruct (coordinate_election_events _ _ _ _ _ _ H Hin eq_refl) as [_ Hle].
  unfold le_prefix in Hle.
  destruct (nonempty (httpEndpoint f)), (nonempty (leaderElectionNamespace f));
    in_list Hle; by injection Hle.
Qed.

(** X1. The lock that the election is created with is named after the
    driver, with every slash of the driver name turned into a dash: the
    lock name has the length of the driver name, holds no slash, and is
    the driver name itself when that has no slash. *)
Theorem X1_election_lock_name
    (f : Flags) (e : Env) (w : World) (lockName : string) :
  In (EvNewLeaderElection lockName) (calls f e w) ->
  exists name,
    GetDriverName w SidecarManager = Ok name /\
    lockName = replace_slash name /\
    String.length lockName = String.length name /\
    ~ In "/"%char (String.list_ascii_of_string lockName) /\
    (~ In "/"%char (String.list_ascii_of_string name) -> lockName = name).
Proof.
  intros Hin. pose proof (main_run f e w) as H. open_run H.
  2-7: rewrite Hcalls in Hin; in_parts Hin.
  rewrite Hcalls in Hin. apply in_app_or in Hin as [Hin|Hin].
  { in_parts Hin. }
  apply (coordinate_lock_name _ _ _ _ _ _ H) in Hin. cbn in Hin. subst.
  destruct (identify_driver _ _ _ _ P_id) as [Hname _].
  exists (dr_provisionerName dr). split; [exact Hname|].
  split; [reflexivity|]. split; [apply replace_slash_length|].
  split; [apply replace_slash_no_slash | apply replace_slash_unchanged].
Qed.

(** *** The kube part and the [run] closure in the whole run *)

Lemma configure_kube_paths f e w :
  triple (configure f e w) (configure_kube_post f e w).
Proof.
  unfold configure, configure_kube_post, kube_path, config_error, config_event,
    config_of, out_of_cluster, kubeconfig_path.
  steps.
  all: intros; try discriminate.
  all: cbn [fst snd] in *.
  all: eexists; (split; [cbn [app]; reflexivity|]).
  all: match goal with
       | H : BuildConfigFromFlags _ _ _ = _ |- _ => rewrite H
       | H : InClusterConfig _ = _ |- _ => rewrite H
       end.
  all: split; reflexivity.
Qed.

Lemma run_order_triple f w asm :
  triple (run f w asm) (fun t _ => run_order f asm t).
Proof.
  intros s.
  unfold run, bind, when, factoryStart, waitForCacheSync, ret, emit.
  unfold run_order, run_loops.
  destruct (as_factoryForNamespace asm),
    (bool_decide (is_Some (as_capacityController asm))),
    (as_csiClaimController asm);
    cbn [fst snd log registered started];
    rewrite check_synced_run;
    match goal with |- context [forallb snd ?l] => destruct (forallb snd l) end;
    cbn [fst snd log];
    (eexists; split; [rewrite <- ?app_assoc; reflexivity|]);
    (eexists _, _, _, _; split; [reflexivity|]);
    first [by left | by right].
  Unshelve. all: exact [].
Qed.

Lemma run_full_triple f w asm :
  triple (run f w asm) (run_full_post f w asm).
Proof. apply triple_and; [apply run_triple | apply run_order_triple]. Qed.

Lemma coordinate_full_triple f w asm :
  triple (coordinate f w asm) (coordinate_full_post f w asm).
Proof.
  unfold coordinate, coordinate_full_post, le_prefix, le_result.
  destruct (enableLeaderElection f); cbn [negb]; [|apply run_full_triple].
  destruct (NewLeaderElectionClientset w) as [err|].
  { steps. by split. }
  destruct (le_invokes_run (LeaderElectionRun w)).
  - steps.
    all: eapply triple_conseq; [apply run_full_triple|];
      intros t [[]|h] Hrun; cbv beta iota.
    all: try (destruct (le_error (LeaderElectionRun w)); steps).
    all: eexists; (split; [cbn [app]; reflexivity|]);
      eexists; (split; [rewrite ?app_nil_r; exact Hrun|]); reflexivity.
  - steps.
    all: destruct (le_error (LeaderElectionRun w)); steps.
    all: exists []; by split.
Qed.

Lemma coordinate_full_weaken f w asm t r :
  coordinate_full_post f w asm t r -> coordinate_post f w asm t r.
Proof.
  unfold coordinate_full_post, coordinate_post, run_full_post. intros H.
  destruct (enableLeaderElection f); [|tauto].
  destruct (NewLeaderElectionClientset w); [exact H|].
  destruct H as (t_run & Ht & H). exists t_run. split; [exact Ht|].
  destruct (le_invokes_run (LeaderElectionRun w)); [|exact H].
  destruct H as (r' & [Hr _] & Heq). by exists r'.
Qed.

Lemma main_full_run f e w :
  main_full_facts f e w (calls f e w) (outcome f e w).
Proof.
  apply triple_main. unfold main_M.
  apply triple_seq; [|intros asm; apply coordinate_full_triple].
  apply assemble_chain; intros; apply triple_both.
  - apply configure_only.
  - apply triple_and; [apply configure_paths | apply configure_kube_paths].
  - apply identify_only.
  - apply identify_paths.
  - apply listers_only.
  - apply listers_paths.
  - apply provisioner_only.
  - apply provisioner_paths.
  - apply capacity_only.
  - apply capacity_paths.
  - apply controllers_only.
  - apply controllers_paths.
Qed.

Lemma configure_kube_returns f e w t su :
  configure_post f e w t (inl su) -> configure_kube_post f e w t (inl su) ->
  t = [EvSetFeatureGates (featureGates f); EvGetenv "NODE_NAME";
       EvGetenv "KUBECONFIG"; config_event f e;
       EvNewClientset (config_of f e); EvNewSnapshotClient (config_of f e);
       EvServerVersion] /\
  config_error f e w = None /\
  NewClientset w = None /\
  NewSnapshotClient w = None /\
  ServerVersion w = Ok (su_gitVersion su) /\
  su_config su = config_of f e /\
  su_node su = getenv_value e "NODE_NAME".
Proof.
  intros Hp Hk.
  destruct (configure_returns _ _ _ _ _ Hp) as (H1 & H2 & H3 & _ & H4 & _).
  destruct (Hk H1 H4 H2 H3) as (t' & -> & Hpath). unfold kube_path in Hpath.
  destruct (config_error f e w); [by destruct Hpath|].
  destruct (NewClientset w); [by destruct Hpath|].
  destruct (NewSnapshotClient w); [by destruct Hpath|].
  destruct (ServerVersion w); [|by destruct Hpath].
  destruct Hpath as [-> [= ->]]. by repeat split.
Qed.

(** Takes [main_full_run] apart like [open_run]; in the first goal
    [Hfull] keeps the order of the calls of [run]. *)
Ltac open_full_run H :=
  open_run H;
  [ let Hfull := fresh "Hfull" in
    pose proof H as Hfull; apply coordinate_full_weaken in H
  | .. ].

(** *** The diagnostics server *)

Lemma server_events_listen f :
  server_events f = [] \/
  (addr f <> "" /\
   server_events f = [EvMuxHandle (metricsPath f); EvGoListenAndServe (addr f)]).
Proof.
  unfold server_events. destruct (nonempty (addr f)) eqn:Ha; [right | by left].
  split; [by apply nonempty_true | reflexivity].
Qed.

Lemma coordinate_not_assemble ev :
  election_only_event ev || run_event ev = true -> assemble_event ev = false.
Proof. destruct ev; try reflexivity; try discriminate. Qed.

(** X2. The diagnostics server listens on [--metrics-address], or on
    [--http-endpoint] when that is empty.  A run starts it at most once,
    with the metrics path on the mux, and before it creates the election
    or starts a factory: the server is up whether or not this instance
    becomes the leader. *)
Theorem X2_server_started_before_coordination
    (f : Flags) (e : Env) (w : World) :
  (forall a,
     In (EvGoListenAndServe a) (calls f e w) ->
     a <> "" /\
     a = (if String.eqb (metricsAddress f) "" then httpEndpoint f
          else metricsAddress f) /\
     (metricsAddress f = "" \/ httpEndpoint f = "") /\
     count_events is_listen (calls f e w) = 1%nat) /\
  (forall pre ev post,
     calls f e w = (pre ++ ev :: post)%list ->
     election_only_event ev || run_event ev = true ->
     metricsAddress f <> "" \/ httpEndpoint f <> "" ->
     In (EvMuxHandle (metricsPath f)) pre /\
     exists a, In (EvGoListenAndServe a) pre).
Proof.
  pose proof (main_run f e w) as H. open_run H.
  2-7: assert (Hl : only assemble_event (calls f e w))
         by (rewrite Hcalls; assembly_only);
       (split;
        [ intros a Hin; rewrite Hcalls in Hin; in_parts Hin;
          destruct P_ctl as [Ectl _]; rewrite Ectl in Hin; in_list Hin
        | intros pre ev post Heq Hev _;
          assert (Hin : In ev (calls f e w))
            by (rewrite Heq; apply in_or_app; right; by left);
          apply (only_In _ _ _ Hl) in Hin;
          apply coordinate_not_assemble in Hev; congruence ]).
  assert (Hl : only assemble_event
                 (t_conf ++ t_id ++ t_ls ++ t_pv ++ t_cap ++ t_ctl))
    by assembly_only.
  destruct (configure_returns _ _ _ _ _ P_conf) as (_ & _ & Hboth & _).
  assert (Hone : metricsAddress f = "" \/ httpEndpoint f = "").
  { destruct (String.eqb_spec (metricsAddress f) ""); [by left|].
    destruct (String.eqb_spec (httpEndpoint f) ""); [by right|].
    rewrite (proj2 (nonempty_true (metricsAddress f))),
      (proj2 (nonempty_true (httpEndpoint f))) in Hboth; done. }
  pose proof (coordinate_only _ _ _ _ _ H) as O_co.
  destruct P_ctl as [Hctl _]. split.
  - intros a Hin. rewrite Hcalls in Hin.
    assert (Hin' : In (EvGoListenAndServe a) t_ctl).
    { in_parts Hin. exact Hin. }
    rewrite Hctl in Hin'.
    destruct (server_events_listen f) as [Hs|[Ha Hs]]; rewrite Hs in Hin'.
    { in_list Hin'. }
    in_list Hin'. injection Hin' as <-.
    split; [exact Ha|]. split; [reflexivity|]. split; [exact Hone|].
    rewrite Hcalls, !count_events_app.
    rewrite (count_events_none is_listen configure_event t_conf),
      (count_events_none is_listen identify_event t_id),
      (count_events_none is_listen listers_event t_ls),
      (count_events_none is_listen provisioner_event t_pv),
      (count_events_none is_listen capacity_event t_cap),
      (count_events_none is_listen
         (fun ev => election_event ev || run_event ev) t_co);
      try eassumption; try (by intros []).
    by rewrite Hctl, Hs.
  - intros pre ev post Heq Hev Hset. rewrite Hcalls in Heq.
    apply (split_after assemble_event) in Heq as (pre' & -> & _);
      [|exact Hl | by apply coordinate_not_assemble].
    assert (Hs : server_events f
                 = [EvMuxHandle (metricsPath f); EvGoListenAndServe (addr f)]).
    { destruct (server_events_listen f) as [Hs|[_ Hs]]; [|exact Hs].
      exfalso. unfold server_events, addr in Hs.
      destruct (String.eqb_spec (metricsAddress f) "") as [Hm|Hm].
      - destruct Hset as [Hset|Hset]; [done|].
        by rewrite (proj2 (nonempty_true _) Hset) in Hs.
      - by rewrite (proj2 (nonempty_true _) Hm) in Hs. }
    rewrite Hctl, Hs. split; [|exists (addr f)]; in_calls.
Qed.

(** *** Exit statuses *)

Lemma configure_log_error f e w t r msg :
  configure_post f e w t r -> In (EvLogError msg) t ->
  r = inr (Exit 1) /\ msg = only_one_endpoint /\
  exists pre, t = (pre ++ [EvLogError msg])%list.
Proof.
  unfold configure_post. intros H Hin.
  destruct (SetFromMap w (featureGates f)).
  { destruct H as [-> _]. in_list Hin. }
  destruct (enableNodeDeployment f && _).
  { destruct H as [-> _]. in_list Hin. }
  destruct (showVersion f).
  { destruct H as [-> _]. in_list Hin. }
  destruct (nonempty (metricsAddress f) && _).
  - destruct H as [-> ->]. in_list Hin. injection Hin as <-.
    split; [reflexivity|]. split; [reflexivity|].
    by exists [EvSetFeatureGates (featureGates f); EvGetenv "NODE_NAME"].
  - destruct H as (t' & -> & Hk & _). apply in_app_or in Hin as [Hin|Hin].
    + in_list Hin.
    + by apply (only_In _ _ _ Hk) in Hin.
Qed.

Lemma configure_exit f e w t c :
  configure_post f e w t (inr (Exit c)) ->
  (c = 0 /\ showVersion f = true /\ In EvPrintVersion t) \/
  (c = 1 /\ In (EvLogError only_one_endpoint) t).
Proof.
  unfold configure_post. intros H.
  destruct (SetFromMap w (featureGates f)); [by destruct H|].
  destruct (enableNodeDeployment f && _); [by destruct H|].
  destruct (showVersion f).
  { destruct H as [-> [= <-]]. left. repeat split. in_calls. }
  destruct (nonempty (metricsAddress f) && _).
  - destruct H as [-> [= <-]]. right. split; [reflexivity|]. in_calls.
  - by destruct H as (t' & _ & _ & msg & ?).
Qed.

Lemma identify_log_error f w t r msg :
  identify_post f w t r -> In (EvLogError msg) t ->
  r = inr (Exit 1) /\
  (exists m, Connect w (csiEndpoint f) m = Some msg \/ Probe w m = Some msg) /\
  exists pre, t = (pre ++ [EvLogError msg])%list.
Proof.
  unfold identify_post, identify_base. intros H Hin.
  destruct (Connect w (csiEndpoint f) SidecarManager) eqn:Hc1.
  { destruct H as [-> ->]. in_list Hin. injection Hin as <-.
    split; [reflexivity|]. split; [exists SidecarManager; by left|].
    by eexists [_; _]. }
  destruct (Probe w SidecarManager) eqn:Hp1.
  { destruct H as [-> ->]. in_list Hin. injection Hin as <-.
    split; [reflexivity|]. split; [exists SidecarManager; by right|].
    by eexists [_; _; _]. }
  destruct (GetDriverName w SidecarManager) as [name|].
  2: { destruct H as [-> _]. in_list Hin. }
  destruct (IsMigratedCSIDriverByName w name).
  2: { destruct H as [-> _]. in_list Hin. }
  destruct (GetInTreeNameFromCSIName w name).
  2: { destruct H as [-> _]. in_list Hin. }
  destruct (Connect w (csiEndpoint f) MigratedManager) eqn:Hc2.
  { destruct H as [-> ->]. in_list Hin. injection Hin as <-.
    split; [reflexivity|]. split; [exists MigratedManager; by left|].
    by eexists [_; _; _; _; _; _; _]. }
  destruct (Probe w MigratedManager) eqn:Hp2.
  { destruct H as [-> ->]. in_list Hin. injection Hin as <-.
    split; [reflexivity|]. split; [exists MigratedManager; by right|].
    by eexists [_; _; _; _; _; _; _; _; _]. }
  destruct H as [-> _]. in_list Hin.
Qed.

Lemma identify_exit f w t c :
  identify_post f w t (inr (Exit c)) -> c = 1 /\ exists msg, In (EvLogError msg) t.
Proof.
  unfold identify_post, identify_base. intros H.
  destruct (Connect w (csiEndpoint f) SidecarManager).
  { destruct H as [-> [= <-]]. split; [reflexivity|]. eexists. in_calls. }
  destruct (Probe w SidecarManager).
  { destruct H as [-> [= <-]]. split; [reflexivity|]. eexists. in_calls. }
  destruct (GetDriverName w SidecarManager) as [name|]; [|by destruct H].
  destruct (IsMigratedCSIDriverByName w name); [|by destruct H].
  destruct (GetInTreeNameFromCSIName w name); [|by destruct H].
  destruct (Connect w (csiEndpoint f) MigratedManager).
  { destruct H as [-> [= <-]]. split; [reflexivity|]. eexists. in_calls. }
  destruct (Probe w MigratedManager).
  { destruct H as [-> [= <-]]. split; [reflexivity|]. eexists. in_calls. }
  by destruct H.
Qed.

Lemma listers_no_exit f w su dr t c :
  ~ listers_post f w su dr t (inr (Exit c)).
Proof.
  unfold listers_post. intros H.
  destruct (GetDriverCapabilities w (dr_grpcClient dr)) as [caps|];
    [|by destruct H].
  destruct (enableNodeDeployment f).
  - destruct (GetNodeInfo w (dr_grpcClient dr)); [|by destruct H].
    destruct (SupportsTopology w caps.1); by destruct H.
  - destruct (SupportsTopology w caps.1); by destruct H.
Qed.

Lemma capacity_no_exit f e w su dr ls pv t c :
  ~ capacity_post f e w su dr ls pv t (inr (Exit c)).
Proof.
  intros H. remember (inr (Exit c)) as r eqn:Hr.
  capacity_paths_of H f e w ls; discriminate Hr.
Qed.

Lemma coordinate_no_exit f w asm t c :
  ~ coordinate_post f w asm t (inr (Exit c)).
Proof.
  assert (Hrun : forall t' r', run_post f w asm t' r' ->
                               r' = inl tt \/ r' = inr (KlogFatal failed_to_sync)).
  { intros t' r' (rs & t_ns & res & t_loops & _ & _ & _ & _ & Hend).
    destruct (forallb snd res); destruct Hend as [-> _]; tauto. }
  unfold coordinate_post, le_result. intros H.
  destruct (enableLeaderElection f).
  2: { by destruct (Hrun _ _ H). }
  destruct (NewLeaderElectionClientset w); [by destruct H|].
  destruct H as (t_run & _ & H).
  destruct (le_invokes_run (LeaderElectionRun w)).
  - destruct H as (r' & Hr & Heq).
    destruct (Hrun _ _ Hr) as [-> | ->]; [|done].
    by destruct (le_error (LeaderElectionRun w)).
  - destruct H as [_ Heq]. by destruct (le_error (LeaderElectionRun w)).
Qed.

(** X3. [klog.Error] is only ever the last thing a run does before
    [os.Exit(1)]: the message is the one about the two endpoint flags, or
    the error that [ctrl.Connect] or [ctrl.Probe] returned.  A run that
    ends in [os.Exit] has status 0 after printing the version, and status
    1 after logging an error; nothing else calls [os.Exit]. *)
Theorem X3_error_log_then_exit_1 (f : Flags) (e : Env) (w : World) :
  (forall msg,
     In (EvLogError msg) (calls f e w) ->
     outcome f e w = inr (Exit 1) /\
     (exists pre, calls f e w = (pre ++ [EvLogError msg])%list) /\
     (msg = only_one_endpoint \/
      exists m, Connect w (csiEndpoint f) m = Some msg \/ Probe w m = Some msg)) /\
  (forall c,
     outcome f e w = inr (Exit c) ->
     (c = 0 /\ showVersion f = true /\ In EvPrintVersion (calls f e w)) \/
     (c = 1 /\ exists msg, In (EvLogError msg) (calls f e w))).
Proof.
  assert (Hconf : forall t su msg,
            configure_post f e w t (inl su) -> ~ In (EvLogError msg) t).
  { intros t su msg Hp Hin.
    by destruct (configure_log_error _ _ _ _ _ _ Hp Hin). }
  assert (Hid : forall t dr msg,
            identify_post f w t (inl dr) -> ~ In (EvLogError msg) t).
  { intros t dr msg Hp Hin.
    by destruct (identify_log_error _ _ _ _ _ Hp Hin). }
  pose proof (main_run f e w) as H. open_run H.
  - split.
    + intros msg Hin. rewrite Hcalls in Hin. in_parts Hin.
      * by destruct (Hconf _ _ _ P_conf Hin).
      * by destruct (Hid _ _ _ P_id Hin).
      * by apply (only_In _ _ _ (coordinate_only _ _ _ _ _ H)) in Hin.
    + intros c Hc. rewrite Hc in H. by destruct (coordinate_no_exit _ _ _ _ _ H).
  - split.
    + intros msg Hin. rewrite Hcalls in Hin. in_parts Hin.
      * by destruct (Hconf _ _ _ P_conf Hin).
      * by destruct (Hid _ _ _ P_id Hin).
    + intros c Hc. rewrite Hout in Hc. injection Hc as ->.
      by destruct (capacity_no_exit _ _ _ _ _ _ _ _ _ P_cap).
  - by destruct P_pv as [_ ?].
  - split.
    + intros msg Hin. rewrite Hcalls in Hin. in_parts Hin.
      * by destruct (Hconf _ _ _ P_conf Hin).
      * by destruct (Hid _ _ _ P_id Hin).
    + intros c Hc. rewrite Hout in Hc. injection Hc as ->.
      by destruct (listers_no_exit _ _ _ _ _ _ P_ls).
  - split.
    + intros msg Hin. rewrite Hcalls in Hin. in_parts Hin.
      * by destruct (Hconf _ _ _ P_conf Hin).
      * destruct (identify_log_error _ _ _ _ _ P_id Hin)
          as ([= ->] & Hm & pre & ->).
        rewrite Hout. split; [reflexivity|].
        split; [exists (t_conf ++ pre)%list; by rewrite Hcalls, app_assoc|].
        by right.
    + intros c Hc. rewrite Hout in Hc. injection Hc as ->.
      destruct (identify_exit _ _ _ _ P_id) as [-> [msg Hin]].
      right. split; [reflexivity|]. exists msg. rewrite Hcalls. in_calls.
  - split.
    + intros msg Hin. rewrite Hcalls in Hin.
      destruct (configure_log_error _ _ _ _ _ _ P_conf Hin)
        as ([= ->] & -> & pre & ->).
      rewrite Hout, Hcalls. split; [reflexivity|]. split; [by exists pre|].
      by left.
    + intros c Hc. rewrite Hout in Hc. injection Hc as ->. rewrite Hcalls.
      destruct (configure_exit _ _ _ _ _ P_conf) as [?|[-> Hin]]; [by left|].
      right. split; [reflexivity|]. by eexists.
  - split.
    + intros msg Hin. rewrite Hcalls in Hin. in_parts Hin.
      * by destruct (Hconf _ _ _ P_conf Hin).
      * by destruct (Hid _ _ _ P_id Hin).
    + intros c Hc. by rewrite Hout in Hc.
Qed.

(** *** The kube configuration and clients *)

Lemma configure_kube_cases f e w t r :
  configure_post f e w t r -> configure_kube_post f e w t r ->
  (Forall (fun ev => kube_event ev = false) t /\
   ~ In (EvGetenv "KUBECONFIG") t /\ exists h, r = inr h) \/
  (exists t',
     t = ([EvSetFeatureGates (featureGates f); EvGetenv "NODE_NAME";
           EvGetenv "KUBECONFIG"] ++ t')%list /\
     kube_path f e w t' r).
Proof.
  unfold configure_post. intros Hp Hk.
  destruct (SetFromMap w (featureGates f)) eqn:H1.
  { destruct Hp as [-> ->]. left. split; [by repeat constructor|].
    split; [|by eexists]. intros Hin. in_list Hin. }
  destruct (enableNodeDeployment f && _) eqn:H2.
  { destruct Hp as [-> ->]. left. split; [by repeat constructor|].
    split; [|by eexists]. intros Hin. in_list Hin. }
  destruct (showVersion f) eqn:H3.
  { destruct Hp as [-> ->]. left. split; [by repeat constructor|].
    split; [|by eexists]. intros Hin. in_list Hin. }
  destruct (nonempty (metricsAddress f) && _) eqn:H4.
  { destruct Hp as [-> ->]. left. split; [by repeat constructor|].
    split; [|by eexists]. intros Hin. in_list Hin. }
  right. exact (Hk H1 H2 H3 H4).
Qed.

Lemma kube_path_events f e w t r ev :
  kube_path f e w t r -> In ev t ->
  In ev [config_event f e; EvNewClientset (config_of f e);
         EvNewSnapshotClient (config_of f e); EvServerVersion].
Proof.
  unfold kube_path. intros H Hin.
  destruct (config_error f e w).
  { destruct H as [-> _]. in_list Hin. subst. in_calls. }
  destruct (NewClientset w).
  { destruct H as [-> _]. in_list Hin; subst; in_calls. }
  destruct (NewSnapshotClient w).
  { destruct H as [-> _]. in_list Hin; subst; in_calls. }
  destruct (ServerVersion w); destruct H as [-> _]; exact Hin.
Qed.

Lemma configure_kube_events f e w t r ev :
  configure_post f e w t r -> configure_kube_post f e w t r ->
  In ev t -> kube_event ev = true ->
  In ev [config_event f e; EvNewClientset (config_of f e);
         EvNewSnapshotClient (config_of f e); EvServerVersion].
Proof.
  intros Hp Hk Hin Hev.
  destruct (configure_kube_cases _ _ _ _ _ Hp Hk) as [[Hno _]|(t' & -> & Hpath)].
  { apply (proj1 (List.Forall_forall _ _) Hno) in Hin. congruence. }
  apply in_app_or in Hin as [Hin|Hin].
  - in_list Hin; by subst.
  - by eapply kube_path_events.
Qed.

Lemma out_of_cluster_spec f e :
  out_of_cluster f e = false <->
  master f = "" /\ kubeconfig f = "" /\ getenv_value e "KUBECONFIG" = "".
Proof.
  unfold out_of_cluster, kubeconfig_path, nonempty.
  destruct (String.eqb_spec (getenv_value e "KUBECONFIG") "") as [Hk|Hk];
    destruct (String.eqb_spec (master f) "") as [Hm|Hm]; cbn [negb orb].
  - destruct (String.eqb_spec (kubeconfig f) "") as [Hc|Hc]; cbn [negb];
      split; intros H; try discriminate H; tauto.
  - split; intros H; try discriminate H; tauto.
  - destruct (String.eqb_spec (getenv_value e "KUBECONFIG") ""); cbn [negb];
      split; intros H; try discriminate H; tauto.
  - split; intros H; try discriminate H; tauto.
Qed.

(** The events of the kube part in the whole log. *)
Lemma kube_events_of_run f e w ev :
  In ev (calls f e w) -> kube_event ev = true ->
  In ev [config_event f e; EvNewClientset (config_of f e);
         EvNewSnapshotClient (config_of f e); EvServerVersion].
Proof.
  intros Hin Hev. pose proof (main_full_run f e w) as H. open_full_run H.
  2-7: rewrite Hcalls in Hin;
       repeat (apply in_app_or in Hin as [Hin|Hin]);
       first [ destruct P_conf as [Pc Pk];
               by apply (configure_kube_events _ _ _ _ _ _ Pc Pk)
             | match goal with
               | Hq : only _ ?t, Hi : In _ ?t |- _ =>
                   apply (only_In _ _ _ Hq) in Hi; destruct ev; discriminate
               end ].
  destruct P_conf as [Pc Pk]. rewrite Hcalls in Hin.
  repeat (apply in_app_or in Hin as [Hin|Hin]).
  1: by apply (configure_kube_events _ _ _ _ _ _ Pc Pk).
  1-5: match goal with
       | Hq : only _ ?t, Hi : In _ ?t |- _ =>
           apply (only_In _ _ _ Hq) in Hi; destruct ev; discriminate
       end.
  destruct (configure_kube_returns _ _ _ _ _ Pc Pk)
    as (_ & _ & _ & _ & _ & Hcfg & _).
  assert (Hel : election_event ev = true).
  { apply (only_In _ _ _ (coordinate_only _ _ _ _ _ H)) in Hin.
    destruct ev; try discriminate; reflexivity. }
  destruct (coordinate_election_events _ _ _ _ _ _ H Hin Hel) as [_ Hle].
  unfold le_prefix in Hle. cbn [as_config] in Hle. rewrite Hcfg in Hle.
  destruct (nonempty (httpEndpoint f)), (nonempty (leaderElectionNamespace f));
    in_list Hle; subst; first [discriminate Hev | in_calls].
Qed.

(** X4. The kube configuration is built from [--master] and the
    kubeconfig path, where a non-empty KUBECONFIG variable replaces the
    value of [--kubeconfig]; the in-cluster configuration is used only when
    all three are empty.  Every clientset of a run (the main one, the
    snapshot one and the one of the leader election) is made from that one
    configuration, with the QPS and burst of the flags. *)
Theorem X4_kube_configuration_source (f : Flags) (e : Env) (w : World) :
  (forall m k,
     In (EvBuildConfigFromFlags m k) (calls f e w) ->
     m = master f /\
     (getenv_value e "KUBECONFIG" <> "" -> k = getenv_value e "KUBECONFIG") /\
     (getenv_value e "KUBECONFIG" = "" -> k = kubeconfig f) /\
     (m <> "" \/ k <> "") /\
     ~ In EvInClusterConfig (calls f e w)) /\
  (In EvInClusterConfig (calls f e w) ->
     master f = "" /\ kubeconfig f = "" /\ getenv_value e "KUBECONFIG" = "") /\
  (forall cfg,
     In (EvNewClientset cfg) (calls f e w) \/
     In (EvNewSnapshotClient cfg) (calls f e w) ->
     cfg_QPS cfg = kubeAPIQPS f /\ cfg_Burst cfg = kubeAPIBurst f /\
     (forall m k, cfg_source cfg = FromFlags m k <->
                  In (EvBuildConfigFromFlags m k) (calls f e w)) /\
     (cfg_source cfg = InCluster <-> In EvInClusterConfig (calls f e w))).
Proof.
  assert (Hpath : (getenv_value e "KUBECONFIG" <> "" ->
                   kubeconfig_path f e = getenv_value e "KUBECONFIG") /\
                  (getenv_value e "KUBECONFIG" = "" ->
                   kubeconfig_path f e = kubeconfig f)).
  { unfold kubeconfig_path. split; intros Hk.
    - by rewrite (proj2 (nonempty_true _) Hk).
    - by rewrite Hk. }
  assert (Hooc : out_of_cluster f e = true ->
                 master f <> "" \/ kubeconfig_path f e <> "").
  { unfold out_of_cluster. intros Ho. apply orb_true_iff in Ho as [Ho|Ho];
      apply nonempty_true in Ho; tauto. }
  assert (Hflags : forall m k,
            In (EvBuildConfigFromFlags m k) (calls f e w) ->
            out_of_cluster f e = true /\ m = master f /\ k = kubeconfig_path f e).
  { intros m k Hin. apply kube_events_of_run in Hin; [|reflexivity].
    unfold config_event in Hin. destruct (out_of_cluster f e); in_list Hin.
    by injection Hin as <- <-. }
  assert (Hin_cluster : In EvInClusterConfig (calls f e w) ->
                        out_of_cluster f e = false).
  { intros Hin. apply kube_events_of_run in Hin; [|reflexivity].
    unfold config_event in Hin. destruct (out_of_cluster f e); in_list Hin. }
  assert (Hcfg : forall cfg,
            In (EvNewClientset cfg) (calls f e w) \/
            In (EvNewSnapshotClient cfg) (calls f e w) ->
            cfg = config_of f e /\ In (config_event f e) (calls f e w)).
  { intros cfg Hin.
    assert (Hc : cfg = config_of f e).
    { destruct Hin as [Hin|Hin];
        (apply kube_events_of_run in Hin; [|reflexivity]);
        unfold config_event in Hin; destruct (out_of_cluster f e);
        in_list Hin; by injection Hin as <-. }
    split; [exact Hc|]. subst cfg.
    pose proof (main_full_run f e w) as H. open_full_run H.
    all: destruct P_conf as [Pc Pk].
    7: destruct (configure_kube_returns _ _ _ _ _ Pc Pk) as (-> & _);
       rewrite Hcalls; in_calls.
    1-5: destruct (configure_kube_returns _ _ _ _ _ Pc Pk) as (-> & _);
         rewrite Hcalls; in_calls.
    destruct (configure_kube_cases _ _ _ _ _ Pc Pk)
      as [[Hno _]|(t' & -> & Hp)].
    - rewrite Hcalls in Hin.
      destruct Hin as [Hin|Hin];
        by apply (proj1 (List.Forall_forall _ _) Hno) in Hin.
    - rewrite Hcalls. unfold kube_path in Hp.
      destruct (config_error f e w).
      { destruct Hp as [-> _]. in_calls. }
      destruct (NewClientset w).
      { destruct Hp as [-> _]. in_calls. }
      destruct (NewSnapshotClient w).
      { destruct Hp as [-> _]. in_calls. }
      destruct (ServerVersion w); destruct Hp as [-> _]; in_calls. }
  split; [|split].
  - intros m k Hin. destruct (Hflags _ _ Hin) as (Ho & -> & ->).
    split; [reflexivity|]. split; [apply Hpath|]. split; [apply Hpath|].
    split; [by apply Hooc|]. intros Hic. apply Hin_cluster in Hic. congruence.
  - intros Hin. by apply out_of_cluster_spec, Hin_cluster.
  - intros cfg Hin. destruct (Hcfg _ Hin) as [-> Hev].
    split; [reflexivity|]. split; [reflexivity|].
    unfold config_of, config_event in *. cbn [cfg_source].
    destruct (out_of_cluster f e) eqn:Ho; split.
    + intros m k. split.
      * by intros [= <- <-].
      * intros Hb. by destruct (Hflags _ _ Hb) as (_ & -> & ->).
    + split; [done|]. intros Hic. apply Hin_cluster in Hic. congruence.
    + intros m k. split; [done|]. intros Hb.
      destruct (Hflags _ _ Hb) as (? & _). congruence.
    + by split.
Qed.

Lemma identify_connect f w t r ep m :
  identify_post f w t r -> In (EvConnect ep m) t -> ep = csiEndpoint f.
Proof.
  unfold identify_post, identify_base. intros H Hin.
  destruct (Connect w (csiEndpoint f) SidecarManager).
  { destruct H as [-> _]. in_list Hin. by injection Hin. }
  destruct (Probe w SidecarManager).
  { destruct H as [-> _]. in_list Hin. by injection Hin. }
  destruct (GetDriverName w SidecarManager) as [name|].
  2: { destruct H as [-> _]. in_list Hin. by injection Hin. }
  destruct (IsMigratedCSIDriverByName w name).
  2: { destruct H as [-> _]. in_list Hin. by injection Hin. }
  destruct (GetInTreeNameFromCSIName w name).
  2: { destruct H as [-> _]. in_list Hin. by injection Hin. }
  destruct (Connect w (csiEndpoint f) MigratedManager).
  { destruct H as [-> _]. in_list Hin; by injection Hin. }
  destruct (Probe w MigratedManager);
    destruct H as [-> _]; in_list Hin; by injection Hin.
Qed.

(** X5. The driver is contacted only after the API server has answered:
    a run calls [ctrl.Connect] (on [--csi-address]) only if the feature
    gates were accepted, no [--version] was asked for, and the kube
    configuration, both clientsets and the server version were obtained.
    In a run that got as far as reading KUBECONFIG, the first of those
    four that fails ends the run with its own fatal message. *)
Theorem X5_driver_contacted_after_kube_clients
    (f : Flags) (e : Env) (w : World) :
  (forall ep m,
     In (EvConnect ep m) (calls f e w) ->
     ep = csiEndpoint f /\
     SetFromMap w (featureGates f) = None /\
     showVersion f = false /\
     config_error f e w = None /\
     NewClientset w = None /\
     NewSnapshotClient w = None /\
     exists gitVersion, ServerVersion w = Ok gitVersion) /\
  (In (EvGetenv "KUBECONFIG") (calls f e w) ->
     match config_error f e w, NewClientset w, NewSnapshotClient w,
           ServerVersion w with
     | Some err, _, _, _ =>
         outcome f e w = inr (KlogFatal ("Failed to create config: " +:+ err))
     | None, Some err, _, _ =>
         outcome f e w = inr (KlogFatal ("Failed to create client: " +:+ err))
     | None, None, Some err, _ =>
         outcome f e w
         = inr (KlogFatal ("Failed to create snapshot client: " +:+ err))
     | None, None, None, Err err =>
         outcome f e w
         = inr (KlogFatal ("Error getting server version: " +:+ err))
     | None, None, None, Ok _ =>
         In (EvConnect (csiEndpoint f) SidecarManager) (calls f e w)
     end).
Proof.
  assert (Hid : forall t r, identify_post f w t r ->
                            In (EvConnect (csiEndpoint f) SidecarManager) t).
  { unfold identify_post, identify_base. intros t r H.
    destruct (Connect w (csiEndpoint f) SidecarManager).
    { destruct H as [-> _]. in_calls. }
    destruct (Probe w SidecarManager).
    { destruct H as [-> _]. in_calls. }
    destruct (GetDriverName w SidecarManager) as [name|].
    2: { destruct H as [-> _]. in_calls. }
    destruct (IsMigratedCSIDriverByName w name).
    2: { destruct H as [-> _]. in_calls. }
    destruct (GetInTreeNameFromCSIName w name).
    2: { destruct H as [-> _]. in_calls. }
    destruct (Connect w (csiEndpoint f) MigratedManager).
    { destruct H as [-> _]. in_calls. }
    destruct (Probe w MigratedManager); destruct H as [-> _]; in_calls. }
  pose proof (main_full_run f e w) as H. open_full_run H.
  3: by destruct P_pv as [_ ?].
  all: destruct P_conf as [Pc Pk].
  all: swap 5 6.
  1-5: destruct (configure_kube_returns _ _ _ _ _ Pc Pk)
         as (_ & Hc1 & Hc2 & Hc3 & Hc4 & _);
       destruct (configure_returns _ _ _ _ _ Pc) as (Hg & Hv & _);
       (split;
        [ intros ep m Hin; rewrite Hcalls in Hin; in_parts Hin;
          try (by apply (only_In _ _ _ (coordinate_only _ _ _ _ _ H)) in Hin);
          (split; [by eapply identify_connect|]);
          repeat (split; [assumption|]); by eexists
        | intros _; rewrite Hc1, Hc2, Hc3, Hc4, Hcalls;
          repeat rewrite in_app_iff;
          first [ left; right; left; by eapply Hid
                | right; left; by eapply Hid
                | right; by eapply Hid ] ]).
  split.
  { intros ep m Hin. rewrite Hcalls in Hin.
    by apply (only_In _ _ _ O_conf) in Hin. }
  intros Hin. rewrite Hcalls in Hin. rewrite Hout.
  destruct (configure_kube_cases _ _ _ _ _ Pc Pk)
    as [(_ & Hno & _)|(t' & _ & Hp)]; [done|].
  unfold kube_path in Hp.
  destruct (config_error f e w); [by destruct Hp as [_ [= ->]]|].
  destruct (NewClientset w); [by destruct Hp as [_ [= ->]]|].
  destruct (NewSnapshotClient w); [by destruct Hp as [_ [= ->]]|].
  destruct (ServerVersion w); [by destruct Hp as [_ ?]|].
  by destruct Hp as [_ [= ->]].
Qed.

(** *** The connection to the driver *)

(** Takes a path description apart, case by case. *)
Ltac open_paths H :=
  repeat match type of H with
         | context [if ?b then _ else _] => destruct b eqn:?
         | context [match ?x with _ => _ end] => destruct x eqn:?
         end.

Lemma listers_conn f w su dr t r :
  listers_post f w su dr t r -> dr_grpcClient dr = MigratedManager ->
  only (without (uses_conn SidecarManager)) t.
Proof.
  unfold listers_post, listers_head, va_events, local_topology_events.
  intros H Hc. rewrite Hc in H.
  open_paths H; destruct H as [-> _]; only_tac.
Qed.

Lemma provisioner_conn f dr ls t r :
  provisioner_post f dr ls t r -> dr_grpcClient dr = MigratedManager ->
  only (without (uses_conn SidecarManager)) t /\
  forall pv, r = inl pv ->
             provisioner_uses SidecarManager (pv_csiProvisioner pv) = false.
Proof.
  intros [-> ->] Hc. split.
  - constructor; [reflexivity|]. constructor; [|constructor].
    unfold without. cbn. by rewrite Hc.
  - intros pv [= <-]. cbn. by rewrite Hc.
Qed.

Lemma capacity_conn f e w su dr ls pv t r :
  capacity_post f e w su dr ls pv t r -> dr_grpcClient dr = MigratedManager ->
  provisioner_uses SidecarManager (pv_csiProvisioner pv) = false ->
  only (without (uses_conn SidecarManager)) t /\
  forall cp, r = inl cp ->
             provisioner_uses SidecarManager (cp_csiProvisioner cp) = false.
Proof.
  intros H Hc Hpv.
  assert (Hargs : forall ns o ti,
            conn_eqb (ca_grpcClient (capacity_args f su dr ns o ti))
                     SidecarManager = false)
    by (intros; cbn; by rewrite Hc).
  capacity_paths_of H f e w ls.
  all: split; [|intros cp0 [= <-]; cbn [cp_csiProvisioner provisioner_uses];
                by rewrite ?Hpv, ?Hargs].
  all: unfold only; repeat (constructor; [first [reflexivity | apply negb_true_iff, Hargs]|]);
    constructor.
Qed.

Lemma controllers_conn f w su dr ls pv cp t r :
  controllers_post f w su dr ls pv cp t r ->
  provisioner_uses SidecarManager (cp_csiProvisioner cp) = false ->
  only (without (uses_conn SidecarManager)) t.
Proof.
  intros [-> _] Hcp. unfold server_events.
  destruct (nonempty (addr f)); cbn [app];
    (constructor; [unfold without; cbn; by rewrite Hcp|]);
    only_tac.
Qed.

Lemma controllers_panic_conn f su dr ls pv cp t r :
  controllers_panic_post f su dr ls pv cp t r ->
  provisioner_uses SidecarManager (cp_csiProvisioner cp) = false ->
  only (without (uses_conn SidecarManager)) t.
Proof.
  intros [-> _] Hcp.
  constructor; [unfold without; cbn; by rewrite Hcp|]. only_tac.
Qed.

Lemma identify_close f w t r :
  identify_post f w t r ->
  only (without is_close) t \/
  exists A B,
    t = (A ++ EvCloseConn SidecarManager :: B)%list /\
    only (without is_close) A /\
    In (EvConnect (csiEndpoint f) MigratedManager) A /\
    only (without (uses_conn SidecarManager)) B /\
    only (without is_close) B /\
    forall dr, r = inl dr -> dr_grpcClient dr = MigratedManager.
Proof.
  unfold identify_post, identify_base. intros H.
  open_paths H; destruct H as [-> Hr]; cbn [app].
  all: first
    [ solve [left; only_tac]
    | right;
      match goal with
      | |- exists A B, (?a :: ?b :: ?c :: ?d :: ?e1 :: ?g :: ?h :: ?x :: ?B0) = _ /\ _ =>
          exists [a; b; c; d; e1; g; h], B0
      end;
      (split; [reflexivity|]); (split; [only_tac|]); (split; [in_calls|]);
      (split; [only_tac|]); (split; [only_tac|]);
      intros dr0 Hd; rewrite Hr in Hd;
      first [discriminate Hd | by injection Hd as <-] ].
Qed.

Lemma close_core f w t_conf t_id rest r pre c post :
  only configure_event t_conf -> identify_post f w t_id r ->
  only (without is_close) rest ->
  (forall dr, r = inl dr -> dr_grpcClient dr = MigratedManager ->
              only (without (uses_conn SidecarManager)) rest) ->
  (forall h, r = inr h -> rest = []) ->
  (t_conf ++ t_id ++ rest)%list = (pre ++ EvCloseConn c :: post)%list ->
  c = SidecarManager /\
  In (EvConnect (csiEndpoint f) MigratedManager) pre /\
  Forall (fun ev => uses_conn c ev = false) post /\
  Forall (fun ev => is_close ev = false) post.
Proof.
  intros O_conf P_id Hclose Huses Hhalt Heq.
  assert (Hwo : forall p t, only (without p) t ->
                            Forall (fun ev => p ev = false) t).
  { intros p t Ht. eapply Forall_impl; [exact Ht|].
    intros ev Hev. by apply negb_true_iff. }
  assert (Hconf : only (without is_close) t_conf).
  { eapply only_without; [|exact O_conf]. by intros []. }
  destruct (identify_close _ _ _ _ P_id)
    as [Hid|(A & B & -> & HA & Hconn & HBu & HBc & Hdr)].
  { exfalso.
    assert (Hall : only (without is_close) (pre ++ EvCloseConn c :: post)).
    { rewrite <- Heq, !only_app. by repeat split. }
    apply only_app in Hall as [_ Hall]. by inversion Hall. }
  replace (t_conf ++ (A ++ EvCloseConn SidecarManager :: B) ++ rest)%list
    with ((t_conf ++ A) ++ EvCloseConn SidecarManager :: (B ++ rest))%list
    in Heq by (by rewrite <- !app_assoc).
  apply (split_at_unique is_close) in Heq as (-> & [= ->] & ->);
    [| by apply only_app | by apply only_app | reflexivity].
  split; [reflexivity|]. split; [in_calls|].
  assert (Hrest : only (without (uses_conn SidecarManager)) rest).
  { destruct r as [dr|h]; [by apply (Huses dr), Hdr|].
    rewrite (Hhalt h eq_refl). constructor. }
  split; apply Hwo, only_app; by split.
Qed.

(** X6. A connection that has been closed is not used again.  The only
    connection a run closes is the first one, after the connection with
    the migration metrics has been made; every later RPC ([Probe],
    [GetDriverCapabilities], [GetNodeInfo]) goes over the new connection,
    and the provisioner, the capacity controller and the provision
    controller are built on it. *)
Theorem X6_closed_connection_not_used
    (f : Flags) (e : Env) (w : World)
    (pre post : list Event) (c : Conn) :
  calls f e w = (pre ++ EvCloseConn c :: post)%list ->
  c = SidecarManager /\
  In (EvConnect (csiEndpoint f) MigratedManager) pre /\
  Forall (fun ev => uses_conn c ev = false) post /\
  Forall (fun ev => is_close ev = false) post.
Proof.
  intros Heq.
  assert (Hno : forall p t, (forall ev, p ev = true -> is_close ev = false) ->
                            only p t -> only (without is_close) t)
    by (intros p t; apply only_without).
  pose proof (main_run f e w) as H. open_run H.
  3: by destruct P_pv as [_ ?].
  all: rewrite Hcalls in Heq; rewrite <- ?app_assoc in Heq.
  - pose proof (coordinate_only _ _ _ _ _ H) as O_co.
    eapply (close_core f w t_conf t_id); [exact O_conf | exact P_id | .. | exact Heq].
    + rewrite !only_app. repeat split;
        (eapply Hno; [|eassumption]); by intros [].
    + intros dr0 [= <-] Hdr.
      destruct (provisioner_conn _ _ _ _ _ P_pv Hdr) as [Upv Hpv].
      destruct (capacity_conn _ _ _ _ _ _ _ _ _ P_cap Hdr (Hpv _ eq_refl))
        as [Ucap Hcp].
      rewrite !only_app. repeat split.
      * by eapply listers_conn.
      * exact Upv.
      * exact Ucap.
      * eapply controllers_conn; [exact P_ctl | by apply Hcp].
      * eapply only_without; [|exact O_co]. by intros [].
    + discriminate.
  - eapply (close_core f w t_conf t_id); [exact O_conf | exact P_id | .. | exact Heq].
    + rewrite !only_app. repeat split;
        (eapply Hno; [|eassumption]); by intros [].
    + intros dr0 [= <-] Hdr.
      destruct (provisioner_conn _ _ _ _ _ P_pv Hdr) as [Upv Hpv].
      destruct (capacity_conn _ _ _ _ _ _ _ _ _ P_cap Hdr (Hpv _ eq_refl))
        as [Ucap _].
      rewrite !only_app. repeat split; [by eapply listers_conn | exact Upv | exact Ucap].
    + discriminate.
  - eapply (close_core f w t_conf t_id); [exact O_conf | exact P_id | .. | exact Heq].
    + eapply Hno; [|eassumption]. by intros [].
    + intros dr0 [= <-] Hdr. by eapply listers_conn.
    + discriminate.
  - rewrite <- (app_nil_r t_id) in Heq.
    eapply (close_core f w t_conf t_id); [exact O_conf | exact P_id | .. | exact Heq].
    + constructor.
    + constructor.
    + reflexivity.
  - exfalso.
    assert (Hall : only configure_event (pre ++ EvCloseConn c :: post))
      by (by rewrite <- Heq).
    apply only_app in Hall as [_ Hall]. by inversion Hall.
  - eapply (close_core f w t_conf t_id); [exact O_conf | exact P_id | .. | exact Heq].
    + rewrite !only_app. repeat split;
        (eapply Hno; [|eassumption]); by intros [].
    + intros dr0 [= <-] Hdr.
      destruct (provisioner_conn _ _ _ _ _ P_pv Hdr) as [Upv Hpv].
      destruct (capacity_conn _ _ _ _ _ _ _ _ _ P_cap Hdr (Hpv _ eq_refl))
        as [Ucap Hcp].
      rewrite !only_app. repeat split.
      * by eapply listers_conn.
      * exact Upv.
      * exact Ucap.
      * eapply controllers_panic_conn; [exact P_ctl | by apply Hcp].
    + discriminate.
Qed.

(** *** The provision controller *)

Lemma capacity_provisioner f e w su dr ls pv t cp :
  capacity_post f e w su dr ls pv t (inl cp) ->
  if enableCapacity f
  then exists args,
         cp_csiProvisioner cp = ProvisionWrapper (pv_csiProvisioner pv) args /\
         cp_capacityController cp = Some args /\
         cp_factoryForNamespace cp = true /\
         In (EvNewCentralCapacityController args) t
  else cp_csiProvisioner cp = pv_csiProvisioner pv /\
       cp_capacityController cp = None /\
       cp_factoryForNamespace cp = false /\
       t = [].
Proof.
  intros H. remember (inl cp) as r eqn:Hr.
  capacity_paths_of H f e w ls; try discriminate Hr; injection Hr as <-.
  all: first [ by repeat split | eexists; repeat split; in_calls ].
Qed.

Lemma controllers_built f w su dr ls pv cp t r driver p gitVersion options :
  controllers_post f w su dr ls pv cp t r \/
  controllers_panic_post f su dr ls pv cp t r ->
  In (EvNewProvisionController driver p gitVersion options) t ->
  driver = dr_provisionerName dr /\ p = cp_csiProvisioner cp /\
  gitVersion = su_gitVersion su /\ options = pv_options pv.
Proof.
  intros [[-> _]|[-> _]] Hin.
  - unfold server_events in Hin.
    destruct (nonempty (addr f)); in_list Hin; by injection Hin as <- <- <- <-.
  - in_list Hin. by injection Hin as <- <- <- <-.
Qed.

(** X7. The provision controller is created for the driver name that the
    driver reported, with the version that the API server reported, and
    with the provisioner that [ctrl.NewCSIProvisioner] returned: as it is
    without [--enable-capacity], and with it wrapped by
    [capacity.NewProvisionWrapper] around the capacity controller that was
    built in this run. *)
Theorem X7_provision_controller_arguments
    (f : Flags) (e : Env) (w : World)
    (driver : string) (p : Provisioner) (gitVersion : string)
    (options : list ProvisionerOption) :
  In (EvNewProvisionController driver p gitVersion options) (calls f e w) ->
  GetDriverName w SidecarManager = Ok driver /\
  ServerVersion w = Ok gitVersion /\
  exists args,
    In (EvNewCSIProvisioner args) (calls f e w) /\
    pa_driverName args = driver /\
    if enableCapacity f
    then exists controller,
           p = ProvisionWrapper (CSIProvisioner args) controller /\
           In (EvNewCentralCapacityController controller) (calls f e w) /\
           In EvNewProvisionWrapper (calls f e w)
    else p = CSIProvisioner args /\
         ~ In EvNewProvisionWrapper (calls f e w).
Proof.
  intros Hin. pose proof (main_full_run f e w) as H. open_full_run H.
  2-6: rewrite Hcalls in Hin; in_parts Hin.
  (* the run whose assembly was completed, and the run in which
     [mux.Handle] panicked *)
  1: pose proof (coordinate_only _ _ _ _ _ H) as O_co.
  1: pose proof (fun d p v o =>
                   controllers_built f w su dr ls pv cp t_ctl _ d p v o
                     (or_introl P_ctl)) as Hbuilt.
  2: pose proof (fun d p v o =>
                   controllers_built f w su dr ls pv cp t_ctl _ d p v o
                     (or_intror P_ctl)) as Hbuilt.
  all: destruct P_conf as [Pc Pk].
  all: destruct (configure_kube_returns _ _ _ _ _ Pc Pk)
         as (_ & _ & _ & _ & Hv & _).
  all: destruct (identify_driver _ _ _ _ P_id) as [Hname _].
  all: assert (Hin' : In (EvNewProvisionController driver p gitVersion options)
                    t_ctl)
         by (rewrite Hcalls in Hin; in_parts Hin; exact Hin).
  all: destruct (Hbuilt _ _ _ _ Hin') as (-> & -> & -> & ->).
  all: split; [exact Hname|]; split; [exact Hv|].
  all: pose proof (capacity_provisioner _ _ _ _ _ _ _ _ _ P_cap) as Hcp.
  all: destruct P_pv as [-> [= ->]]; cbn [pv_csiProvisioner] in Hcp.
  all: exists (provisioner_args f dr ls).
  all: split; [rewrite Hcalls; in_calls|]; split; [reflexivity|].
  all: destruct (enableCapacity f) eqn:Hcap.
  1,3: destruct Hcp as (args & -> & _ & _ & Hargs); exists args;
       (split; [reflexivity|]); (split; [rewrite Hcalls; in_calls|]);
       rewrite Hcalls; unfold capacity_post in P_cap; rewrite Hcap in P_cap;
       assert (Hw : In EvNewProvisionWrapper t_cap)
         by (unfold capacity_built in P_cap;
             open_paths P_cap; destruct P_cap as [-> ?]; try discriminate;
             in_calls);
       in_calls.
  all: destruct Hcp as (-> & _ & _ & ->); (split; [reflexivity|]);
       rewrite Hcalls; intros Hw; in_parts Hw.
Qed.

Lemma provisioner_options_spec f dr ls claimInformer :
  (forall b, In (LeaderElection b) (provisioner_options f dr ls claimInformer)
             <-> b = false) /\
  (forall n, In (FailedProvisionThreshold n)
               (provisioner_options f dr ls claimInformer) <-> n = 0) /\
  (forall n, In (FailedDeleteThreshold n)
               (provisioner_options f dr ls claimInformer) <-> n = 0) /\
  (forall n, In (Threadiness n) (provisioner_options f dr ls claimInformer)
             <-> n = int_of_uint (workerThreads f)) /\
  (forall rl, In (RateLimiterOpt rl) (provisioner_options f dr ls claimInformer)
              <-> rl = ItemExponentialFailureRateLimiter
                         (retryIntervalStart f) (retryIntervalMax f)) /\
  (forall inf, In (ClaimsInformer inf)
                 (provisioner_options f dr ls claimInformer)
               <-> inf = claimInformer) /\
  (forall names, In (AdditionalProvisionerNames names)
                   (provisioner_options f dr ls claimInformer) <->
                 names = [dr_supportsMigrationFromInTreePluginName dr] /\
                 dr_supportsMigrationFromInTreePluginName dr <> "").
Proof.
  unfold provisioner_options, rate_limiter.
  destruct (nonempty (dr_supportsMigrationFromInTreePluginName dr)) eqn:Hne;
    cbn [app].
  all: repeat (split; [split; intros Hin;
                       [in_list Hin; by injection Hin | subst; in_calls]|]).
  all: split.
  - intros Hin. in_list Hin. injection Hin as <-.
    split; [reflexivity | by apply nonempty_true].
  - intros [-> _]. in_calls.
  - intros Hin. in_list Hin.
  - intros [_ Hin]. apply nonempty_true in Hin. congruence.
Qed.

(** X8. The options of the provision controller: the leader election of
    the provisioner library is always off (the election is done by [main]
    itself), both failure thresholds are 0, the rate limiter is built from
    the two retry intervals, the thread count is [--worker-threads], and
    the claim informer is the one of the shared factory.  The in-tree
    plugin name is passed as an additional provisioner name exactly when
    the driver is a migrated one with a non-empty in-tree name. *)
Theorem X8_provision_controller_options
    (f : Flags) (e : Env) (w : World)
    (driver : string) (p : Provisioner) (gitVersion : string)
    (options : list ProvisionerOption) :
  In (EvNewProvisionController driver p gitVersion options) (calls f e w) ->
  (forall b, In (LeaderElection b) options <-> b = false) /\
  (forall n, In (FailedProvisionThreshold n) options <-> n = 0) /\
  (forall n, In (FailedDeleteThreshold n) options <-> n = 0) /\
  (forall n, In (Threadiness n) options <-> n = int_of_uint (workerThreads f)) /\
  (forall rl, In (RateLimiterOpt rl) options <->
              rl = ItemExponentialFailureRateLimiter
                     (retryIntervalStart f) (retryIntervalMax f)) /\
  (forall inf, In (ClaimsInformer inf) options <->
               inf = (SharedFactory, PersistentVolumeClaims)) /\
  (forall names,
     In (AdditionalProvisionerNames names) options <->
     exists inTree,
       names = [inTree] /\ inTree <> "" /\
       IsMigratedCSIDriverByName w driver = true /\
       GetInTreeNameFromCSIName w driver = Ok inTree).
Proof.
  intros Hin. pose proof (main_run f e w) as H. open_run H.
  2-6: rewrite Hcalls in Hin; in_parts Hin.
  (* the run whose assembly was completed, and the run in which
     [mux.Handle] panicked *)
  1: pose proof (coordinate_only _ _ _ _ _ H) as O_co.
  1: pose proof (fun d p v o =>
                   controllers_built f w su dr ls pv cp t_ctl _ d p v o
                     (or_introl P_ctl)) as Hbuilt.
  2: pose proof (fun d p v o =>
                   controllers_built f w su dr ls pv cp t_ctl _ d p v o
                     (or_intror P_ctl)) as Hbuilt.
  all: assert (Hin' : In (EvNewProvisionController driver p gitVersion options)
                    t_ctl)
         by (rewrite Hcalls in Hin; in_parts Hin; exact Hin).
  all: destruct (Hbuilt _ _ _ _ Hin') as (-> & -> & -> & ->).
  all: destruct P_pv as [_ [= ->]]; cbn [pv_options].
  all: destruct (provisioner_options_spec f dr ls
                   (SharedFactory, PersistentVolumeClaims))
         as (H1 & H2 & H3 & H4 & H5 & H6 & H7).
  all: repeat (split; [assumption|]).
  all: intros names; rewrite H7.
  all: destruct (identify_driver _ _ _ _ P_id)
         as [_ [(Hm & _ & Hempty & _)|(Hm & _ & Htree)]].
  1,3: rewrite Hempty; (split; [by intros [_ ?]|]);
       intros (inTree & _ & _ & Hmig & _); congruence.
  all: split;
    [ intros [-> Hne]; by eexists
    | intros (inTree & -> & Hne & _ & Heq); rewrite Htree in Heq;
      by injection Heq as -> ].
Qed.

(** *** The capacity controller *)

Lemma capacity_factory f e w su dr ls pv t r fac ns sel :
  capacity_post f e w su dr ls pv t r ->
  In (EvNewInformerFactoryWithOptions fac ns sel) t ->
  fac = NamespaceFactory /\
  enableCapacity f = true /\
  ns = getenv_value e "NAMESPACE" /\
  ns <> "" /\
  sel = [(DriverNameLabel, dr_provisionerName dr);
         (ManagedByLabel, managed_by_id f su)] /\
  exists owner topo,
    In (EvNewCentralCapacityController (capacity_args f su dr ns owner topo)) t.
Proof.
  unfold capacity_post, capacity_built, topology_events. cbv zeta.
  intros H Hin.
  destruct (String.eqb_spec (getenv_value e "NAMESPACE") "") as [Hns|Hns].
  all: open_paths H; destruct H as [-> _]; in_list Hin.
  all: injection Hin as <- <- <-.
  all: repeat (split; [done|]).
  all: eexists _, _; in_calls.
Qed.

(** X9. The CSIStorageCapacity objects are watched through a factory of
    their own, restricted to the namespace named by NAMESPACE (which is
    not empty) and to the objects labelled with the name that the driver
    reported and with the managed-by id of this instance:
    [external-provisioner], followed by a dash and the node name under
    [--node-deployment].  The capacity controller is then built for that
    same namespace, driver name and id, over the informer of that factory. *)
Theorem X9_capacity_objects_selector
    (f : Flags) (e : Env) (w : World)
    (fac : Factory) (ns : string) (sel : list (LabelKey * string)) :
  In (EvNewInformerFactoryWithOptions fac ns sel) (calls f e w) ->
  fac = NamespaceFactory /\
  enableCapacity f = true /\
  ns = getenv_value e "NAMESPACE" /\
  ns <> "" /\
  exists driver managedBy,
    sel = [(DriverNameLabel, driver); (ManagedByLabel, managedBy)] /\
    GetDriverName w SidecarManager = Ok driver /\
    managedBy = (if enableNodeDeployment f
                 then "external-provisioner-" +:+ getenv_value e "NODE_NAME"
                 else "external-provisioner") /\
    exists args,
      In (EvNewCentralCapacityController args) (calls f e w) /\
      ca_namespace args = ns /\
      ca_driverName args = driver /\
      ca_managedByID args = managedBy /\
      ca_cInformer args = (NamespaceFactory, CSIStorageCapacities) /\
      ca_scInformer args = (SharedFactory, StorageClasses).
Proof.
  intros Hin. pose proof (main_run f e w) as H. open_run H.
  3-6: rewrite Hcalls in Hin; in_parts Hin.
  all: assert (Hin' : In (EvNewInformerFactoryWithOptions fac ns sel) t_cap)
         by (try pose proof (coordinate_only _ _ _ _ _ H);
             rewrite Hcalls in Hin; in_parts Hin; exact Hin).
  all: destruct (capacity_factory _ _ _ _ _ _ _ _ _ _ _ _ P_cap Hin')
         as (-> & Hcap & -> & Hns & -> & owner & topo & Hargs).
  all: destruct (configure_returns _ _ _ _ _ P_conf) as (_ & _ & _ & Hnode & _).
  all: destruct (identify_driver _ _ _ _ P_id) as [Hname _].
  all: repeat (split; [done|]).
  all: exists (dr_provisionerName dr), (managed_by_id f su).
  all: split; [reflexivity|]; split; [exact Hname|].
  all: split; [unfold managed_by_id; rewrite Hnode;
               by destruct (enableNodeDeployment f)|].
  all: exists (capacity_args f su dr (getenv_value e "NAMESPACE") owner topo).
  all: split; [rewrite Hcalls; in_calls | by repeat split].
Qed.

(** X10. With [--enable-capacity] and no NAMESPACE, no run completes.  A
    run that gets as far as reading NAMESPACE stops there with the fatal
    NAMESPACE message, after [ctrl.NewCSIProvisioner] has been called; and
    no run reads POD_NAME, looks up an owner, builds a topology or a
    controller, starts the diagnostics server or a factory, or creates an
    election. *)
Theorem X10_capacity_needs_namespace (f : Flags) (e : Env) (w : World) :
  enableCapacity f = true ->
  getenv_value e "NAMESPACE" = "" ->
  (exists h, outcome f e w = inr h) /\
  (In (EvGetenv "NAMESPACE") (calls f e w) ->
     outcome f e w = inr (KlogFatal need_NAMESPACE) /\
     exists pre args,
       calls f e w = (pre ++ [EvGetenv "NAMESPACE"])%list /\
       In (EvNewCSIProvisioner args) pre) /\
  Forall (fun ev =>
            (capacity_event ev = true -> ev = EvGetenv "NAMESPACE") /\
            controllers_event ev = false /\
            run_event ev = false /\
            election_only_event ev = false)
         (calls f e w).
Proof.
  intros Hcap Hns.
  assert (Hcp : forall su dr ls pv t r,
            capacity_post f e w su dr ls pv t r ->
            t = [EvGetenv "NAMESPACE"] /\ r = inr (KlogFatal need_NAMESPACE)).
  { intros su dr ls pv t r H. unfold capacity_post in H.
    by rewrite Hcap, Hns in H. }
  assert (Hquiet : forall p t,
            (forall ev, p ev = true ->
               capacity_event ev = false /\ controllers_event ev = false /\
               run_event ev = false /\ election_only_event ev = false) ->
            only p t ->
            Forall (fun ev =>
                      (capacity_event ev = true -> ev = EvGetenv "NAMESPACE") /\
                      controllers_event ev = false /\
                      run_event ev = false /\
                      election_only_event ev = false) t).
  { intros p t Hp Ht. eapply Forall_impl; [exact Ht|].
    intros ev Hev. destruct (Hp _ Hev) as (Hc & ? & ? & ?).
    repeat split; try done. intros Hc'. congruence. }
  assert (Hconf : forall ev, configure_event ev = true ->
            capacity_event ev = false /\ controllers_event ev = false /\
            run_event ev = false /\ election_only_event ev = false).
  { intros []; try done. simpl.
    destruct (String.eqb_spec name "NODE_NAME") as [->|]; [done|].
    destruct (String.eqb_spec name "KUBECONFIG") as [->|]; done. }
  pose proof (main_run f e w) as H. open_run H.
  7: by destruct (Hcp _ _ _ _ _ _ P_cap).
  1: by destruct (Hcp _ _ _ _ _ _ P_cap).
  2: by destruct P_pv as [_ ?].
  - destruct (Hcp _ _ _ _ _ _ P_cap) as [-> [= ->]].
    split; [by eexists|]. split.
    + intros _. split; [exact Hout|].
      destruct P_pv as [-> _].
      exists (t_conf ++ t_id ++ t_ls ++
              [EvInformerFor SharedFactory PersistentVolumeClaims;
               EvNewCSIProvisioner (provisioner_args f dr ls)])%list,
             (provisioner_args f dr ls).
      split; [rewrite Hcalls; by rewrite <- !app_assoc | in_calls].
    + rewrite Hcalls, !Forall_app. repeat split.
      1-4: (eapply Hquiet; [|eassumption]); first [exact Hconf | by intros []].
      by repeat constructor.
  - split; [by eexists|]. split.
    + intros Hin. rewrite Hcalls in Hin. in_parts Hin.
    + rewrite Hcalls, !Forall_app. repeat split;
        (eapply Hquiet; [|eassumption]); first [exact Hconf | by intros []].
  - split; [by eexists|]. split.
    + intros Hin. rewrite Hcalls in Hin. in_parts Hin.
    + rewrite Hcalls, !Forall_app. repeat split;
        (eapply Hquiet; [|eassumption]); first [exact Hconf | by intros []].
  - split; [by eexists|]. split.
    + intros Hin. rewrite Hcalls in Hin. in_parts Hin.
    + rewrite Hcalls. (eapply Hquiet; [|eassumption]); exact Hconf.
Qed.

(** *** Node-local deployment *)

Lemma segment_keys_spec (segments : gmap string string) :
  NoDup (segment_keys segments) /\
  forall k, In k (segment_keys segments) <-> is_Some (segments !! k).
Proof.
  unfold segment_keys. split.
  - apply (NoDup_fst_map_to_list segments).
  - intros k. rewrite in_map_iff. split.
    + intros ([k' v] & <- & Hin). exists v.
      by apply elem_of_map_to_list, list_elem_of_In.
    + intros [v Hv]. exists (k, v). split; [reflexivity|].
      by apply list_elem_of_In, elem_of_map_to_list.
Qed.

Lemma fixed_segment_spec (nd : NodeDeployment) :
  NoDup (map fst (fixed_segment nd)) /\
  forall k v,
    In (k, v) (fixed_segment nd) <->
    exists segments,
      AccessibleTopology (nd_NodeInfo nd) = Some segments /\
      segments !! k = Some v.
Proof.
  unfold fixed_segment.
  destruct (AccessibleTopology (nd_NodeInfo nd)) as [segments|]; split.
  - apply (NoDup_fst_map_to_list segments).
  - intros k v. split.
    + intros Hin. exists segments. split; [reflexivity|].
      by apply elem_of_map_to_list, list_elem_of_In.
    + intros (m & [= <-] & Hv).
      by apply list_elem_of_In, elem_of_map_to_list.
  - constructor.
  - intros k v. split; [intros [] | by intros (m & ? & _)].
Qed.

Lemma listers_with_node_deployment f w su dr t ls :
  listers_post f w su dr t (inl ls) ->
  enableNodeDeployment f = true ->
  exists nodeInfo,
    GetNodeInfo w (dr_grpcClient dr) = Ok nodeInfo /\
    In (EvGetNodeInfo (dr_grpcClient dr) (operationTimeout f)) t /\
    ls_nodeDeployment ls = Some (node_deployment f su nodeInfo) /\
    ls_nodeLister ls
    = (if SupportsTopology w (ls_pluginCapabilities ls)
       then Some (StoppedFactory, Nodes) else None) /\
    ls_csiNodeLister ls
    = (if SupportsTopology w (ls_pluginCapabilities ls)
       then Some (StoppedFactory, CSINodes) else None) /\
    forall fac res obj,
      In (EvStoreAdd fac res obj) t ->
      fac = StoppedFactory /\
      In (EvStoreAdd StoppedFactory CSINodes
            (fake_csi_node (dr_provisionerName dr)
               (node_deployment f su nodeInfo))) t /\
      In (EvStoreAdd StoppedFactory Nodes
            (fake_node (node_deployment f su nodeInfo))) t /\
      ((res = CSINodes /\
        obj = fake_csi_node (dr_provisionerName dr)
                (node_deployment f su nodeInfo)) \/
       (res = Nodes /\ obj = fake_node (node_deployment f su nodeInfo))).
Proof.
  unfold listers_post, listers_head, listers_of, listers_result,
    local_topology_events, va_events.
  intros H Hnd. rewrite Hnd in H.
  destruct (GetDriverCapabilities w (dr_grpcClient dr)) as [[pc cc]|];
    [|by destruct H].
  cbn [fst snd] in H.
  destruct (GetNodeInfo w (dr_grpcClient dr)) as [nodeInfo|]; [|by destruct H].
  exists nodeInfo. split; [reflexivity|].
  destruct (SupportsTopology w pc) eqn:Hst;
    destruct H as [-> Hr]; injection Hr as Hr; subst ls;
    cbn [ls_nodeDeployment ls_nodeLister ls_csiNodeLister ls_pluginCapabilities];
    rewrite Hst.
  all: split; [in_calls|].
  all: repeat (split; [reflexivity|]).
  all: intros fac res obj Hin;
    repeat (apply in_app_or in Hin as [Hin|Hin]);
    try (destruct (has_capability cc _)); in_list Hin.
  all: injection Hin as <- <- <-.
  all: split; [reflexivity|]; (split; [in_calls|]); (split; [in_calls|]);
    tauto.
Qed.

Lemma listers_local f w su dr t r :
  listers_post f w su dr t r -> enableNodeDeployment f = true ->
  only (without watches_nodes) t.
Proof.
  unfold listers_post, listers_head, local_topology_events, va_events.
  intros H Hnd. rewrite Hnd in H.
  open_paths H; destruct H as [-> _]; only_tac.
Qed.

Lemma capacity_local f e w su dr ls pv t r nd :
  capacity_post f e w su dr ls pv t r -> ls_nodeDeployment ls = Some nd ->
  only (without watches_nodes) t /\
  forall args,
    In (EvNewCentralCapacityController args) t ->
    ca_topologyInformer args = FixedNodeTopology (fixed_segment nd) /\
    ca_grpcClient args = dr_grpcClient dr /\
    In (EvNewFixedNodeTopology (fixed_segment nd)) t /\
    In (EvGoRunWorker (FixedNodeTopology (fixed_segment nd))) t.
Proof.
  unfold capacity_post, capacity_built, topology_events, topology_of.
  cbv zeta. intros H Hnd. rewrite Hnd in H.
  open_paths H; destruct H as [-> _].
  all: split; [only_tac|].
  all: intros args Hin; in_list Hin.
  all: injection Hin as <-; repeat split; in_calls.
Qed.

(** X11. With [--node-deployment], no run watches the Node or CSINode
    objects of the cluster: the shared factory is never asked for their
    informers and the live node topology is never built.  The provisioner
    gets the listers of the factory that holds the two static objects (or
    nil without topology support), and the capacity controller works on a
    fixed topology segment. *)
Theorem X11_node_deployment_watches_no_nodes
    (f : Flags) (e : Env) (w : World) :
  enableNodeDeployment f = true ->
  Forall (fun ev => watches_nodes ev = false) (calls f e w) /\
  (forall args,
     In (EvNewCSIProvisioner args) (calls f e w) ->
     pa_nodeLister args
     = (if SupportsTopology w (pa_pluginCapabilities args)
        then Some (StoppedFactory, Nodes) else None) /\
     pa_csiNodeLister args
     = (if SupportsTopology w (pa_pluginCapabilities args)
        then Some (StoppedFactory, CSINodes) else None)) /\
  (forall args,
     In (EvNewCentralCapacityController args) (calls f e w) ->
     exists segment,
       ca_topologyInformer args = FixedNodeTopology segment /\
       In (EvGoRunWorker (FixedNodeTopology segment)) (calls f e w)).
Proof.
  intros Hnd.
  assert (Hwo : forall t, only (without watches_nodes) t ->
                          Forall (fun ev => watches_nodes ev = false) t).
  { intros t Ht. eapply Forall_impl; [exact Ht|].
    intros ev Hev. by apply negb_true_iff. }
  assert (Hno : forall p t, (forall ev, p ev = true -> watches_nodes ev = false) ->
                            only p t -> only (without watches_nodes) t)
    by (intros p t; apply only_without).
  assert (Hpv : forall dr ls t r, provisioner_post f dr ls t r ->
                                  only (without watches_nodes) t).
  { intros dr ls t r [-> _]. only_tac. }
  pose proof (main_run f e w) as H. open_run H.
  3: by destruct P_pv as [_ ?].
  1-2: destruct (listers_with_node_deployment _ _ _ _ _ _ P_ls Hnd)
         as (nodeInfo & _ & _ & Hls & Hnl & Hcl & _);
       destruct (capacity_local _ _ _ _ _ _ _ _ _ _ P_cap Hls) as [Wcap Hargs];
       try pose proof (coordinate_only _ _ _ _ _ H) as O_co.
  1-2: split; [|split].
  - apply Hwo. rewrite Hcalls, !only_app. repeat split.
    + eapply Hno; [|exact O_conf]. by intros [].
    + eapply Hno; [|exact O_id]. by intros [].
    + by eapply listers_local.
    + by eapply Hpv.
    + exact Wcap.
    + eapply Hno; [|exact O_ctl]. by intros [].
    + eapply Hno; [|exact O_co]. by intros [].
  - intros args Hin. rewrite Hcalls in Hin. in_parts Hin.
    destruct P_pv as [-> _]. in_list Hin. injection Hin as <-.
    cbn [pa_nodeLister pa_csiNodeLister pa_pluginCapabilities]. by split.
  - intros args Hin. rewrite Hcalls in Hin. in_parts Hin.
    destruct (Hargs _ Hin) as (Ht & _ & _ & Hw).
    eexists. split; [exact Ht|]. rewrite Hcalls. in_calls.
  - apply Hwo. rewrite Hcalls, !only_app. repeat split.
    + eapply Hno; [|exact O_conf]. by intros [].
    + eapply Hno; [|exact O_id]. by intros [].
    + by eapply listers_local.
    + by eapply Hpv.
    + exact Wcap.
  - intros args Hin. rewrite Hcalls in Hin. in_parts Hin.
    destruct P_pv as [-> _]. in_list Hin. injection Hin as <-.
    cbn [pa_nodeLister pa_csiNodeLister pa_pluginCapabilities]. by split.
  - intros args Hin. rewrite Hcalls in Hin. in_parts Hin.
    destruct (Hargs _ Hin) as (Ht & _ & _ & Hw).
    eexists. split; [exact Ht|]. rewrite Hcalls. in_calls.
  - split; [|split].
    + apply Hwo. rewrite Hcalls, !only_app. repeat split.
      * eapply Hno; [|exact O_conf]. by intros [].
      * eapply Hno; [|exact O_id]. by intros [].
      * by eapply listers_local.
    + intros args Hin. rewrite Hcalls in Hin. in_parts Hin.
    + intros args Hin. rewrite Hcalls in Hin. in_parts Hin.
  - split; [|split].
    + apply Hwo. rewrite Hcalls, !only_app. repeat split.
      * eapply Hno; [|exact O_conf]. by intros [].
      * eapply Hno; [|exact O_id]. by intros [].
    + intros args Hin. rewrite Hcalls in Hin. in_parts Hin.
    + intros args Hin. rewrite Hcalls in Hin. in_parts Hin.
  - split; [|split].
    + apply Hwo. rewrite Hcalls. eapply Hno; [|exact O_conf]. by intros [].
    + intros args Hin. rewrite Hcalls in Hin.
      by apply (only_In _ _ _ O_conf) in Hin.
    + intros args Hin. rewrite Hcalls in Hin.
      by apply (only_In _ _ _ O_conf) in Hin.
  - destruct (listers_with_node_deployment _ _ _ _ _ _ P_ls Hnd)
      as (nodeInfo & _ & _ & Hls & Hnl & Hcl & _).
    destruct (capacity_local _ _ _ _ _ _ _ _ _ _ P_cap Hls) as [Wcap Hargs].
    split; [|split].
    + apply Hwo. rewrite Hcalls, !only_app. repeat split.
      * eapply Hno; [|exact O_conf]. by intros [].
      * eapply Hno; [|exact O_id]. by intros [].
      * by eapply listers_local.
      * by eapply Hpv.
      * exact Wcap.
      * eapply Hno; [|exact O_ctl]. by intros [].
    + intros args Hin. rewrite Hcalls in Hin. in_parts Hin.
      destruct P_pv as [-> _]. in_list Hin. injection Hin as <-.
      cbn [pa_nodeLister pa_csiNodeLister pa_pluginCapabilities]. by split.
    + intros args Hin. rewrite Hcalls in Hin. in_parts Hin.
      destruct (Hargs _ Hin) as (Ht & _ & _ & Hw).
      eexists. split; [exact Ht|]. rewrite Hcalls. in_calls.
Qed.

(** X12. The two static objects of a node-local deployment.  Objects are
    put into a store only under [--node-deployment] and only into the
    stores of the factory that is never started.  They are a CSINode and a
    Node, both named by NODE_NAME: the CSINode has one driver entry, with
    the name and the node id that the driver reported and with the keys of
    the reported topology segments (each key once) as topology keys; the
    Node has those segments as labels.  So every topology key of the
    CSINode is a label of the Node. *)
Theorem X12_static_topology_objects
    (f : Flags) (e : Env) (w : World)
    (fac : Factory) (res : Resource) (obj : FakeObject) :
  In (EvStoreAdd fac res obj) (calls f e w) ->
  fac = StoppedFactory /\
  enableNodeDeployment f = true /\
  exists c tmo nodeInfo driver keys,
    In (EvGetNodeInfo c tmo) (calls f e w) /\
    GetNodeInfo w c = Ok nodeInfo /\
    GetDriverName w SidecarManager = Ok driver /\
    let csiNode :=
      FakeCSINode (getenv_value e "NODE_NAME")
        [ {| drv_Name := driver; drv_NodeID := NodeId nodeInfo;
             drv_TopologyKeys := keys |} ] in
    let node :=
      FakeNode (getenv_value e "NODE_NAME") (AccessibleTopology nodeInfo) in
    In (EvStoreAdd StoppedFactory CSINodes csiNode) (calls f e w) /\
    In (EvStoreAdd StoppedFactory Nodes node) (calls f e w) /\
    ((res = CSINodes /\ obj = csiNode) \/ (res = Nodes /\ obj = node)) /\
    NoDup keys /\
    forall k,
      In k keys <->
      exists labels,
        AccessibleTopology nodeInfo = Some labels /\ is_Some (labels !! k).
Proof.
  intros Hin. pose proof (main_run f e w) as H. open_run H.
  3: by destruct P_pv as [_ ?].
  4-5: rewrite Hcalls in Hin; in_parts Hin.
  all: try pose proof (coordinate_only _ _ _ _ _ H) as O_co.
  all: assert (Hin' : In (EvStoreAdd fac res obj) t_ls)
         by (rewrite Hcalls in Hin; in_parts Hin; exact Hin).
  3: { exfalso. clear Hin Hcalls. revert Hin'.
       remember (inr h) as r eqn:Hr. unfold listers_post in P_ls.
       unfold listers_head, va_events, local_topology_events in P_ls.
       intros Hin. open_paths P_ls; destruct P_ls as [-> Hr'];
         try (rewrite Hr in Hr'; discriminate Hr');
         repeat (apply in_app_or in Hin as [Hin|Hin]); in_list Hin. }
  all: assert (Hnd : enableNodeDeployment f = true).
  1,3,5: destruct (enableNodeDeployment f) eqn:Hnd; [reflexivity|exfalso];
       unfold listers_post, listers_head, va_events in P_ls;
       rewrite Hnd in P_ls;
       open_paths P_ls; destruct P_ls as [-> _];
       repeat (apply in_app_or in Hin' as [Hin'|Hin']); in_list Hin'.
  all: destruct (listers_with_node_deployment _ _ _ _ _ _ P_ls Hnd)
         as (nodeInfo & Hinfo & Hrpc & _ & _ & _ & Hadd).
  all: destruct (Hadd _ _ _ Hin') as (-> & Hcsi & Hnode & Hobj).
  all: destruct (configure_returns _ _ _ _ _ P_conf) as (_ & _ & _ & Hname & _).
  all: destruct (identify_driver _ _ _ _ P_id) as [Hdriver _].
  all: split; [reflexivity|]; split; [exact Hnd|].
  all: exists (dr_grpcClient dr), (operationTimeout f), nodeInfo,
         (dr_provisionerName dr),
         (match AccessibleTopology nodeInfo with
          | Some segments => segment_keys segments
          | None => []
          end).
  all: split; [rewrite Hcalls; in_calls|].
  all: split; [exact Hinfo|]; split; [exact Hdriver|].
  all: unfold fake_csi_node, fake_node, node_deployment in Hcsi, Hnode, Hobj;
    cbn [nd_NodeName nd_NodeInfo] in Hcsi, Hnode, Hobj;
    rewrite Hname in Hcsi, Hnode, Hobj.
  all: cbv zeta.
  all: split; [rewrite Hcalls; in_calls|].
  all: split; [rewrite Hcalls; in_calls|].
  all: split; [exact Hobj|].
  all: destruct (AccessibleTopology nodeInfo) as [segments|].
  all: try (split; [constructor|]; intros k;
            split; [intros [] | by intros (? & ? & _)]).
  all: destruct (segment_keys_spec segments) as [Hnodup Hkeys].
  all: split; [exact Hnodup|]; intros k; rewrite Hkeys; split;
    [ intros Hk; by exists segments | by intros (? & [= <-] & ?) ].
Qed.

(** X13. Under [--node-deployment] the capacity controller is built on a
    fixed topology segment, whose worker is started before the controller
    is created.  The segment consists of the topology segments that the
    driver reported for this node in [GetNodeInfo], every key once; it is
    empty when the driver reported no accessible topology. *)
Theorem X13_fixed_topology_segment
    (f : Flags) (e : Env) (w : World) (args : CapacityArgs) :
  enableNodeDeployment f = true ->
  In (EvNewCentralCapacityController args) (calls f e w) ->
  exists nodeInfo segment,
    In (EvGetNodeInfo (ca_grpcClient args) (operationTimeout f)) (calls f e w) /\
    GetNodeInfo w (ca_grpcClient args) = Ok nodeInfo /\
    ca_topologyInformer args = FixedNodeTopology segment /\
    In (EvNewFixedNodeTopology segment) (calls f e w) /\
    In (EvGoRunWorker (FixedNodeTopology segment)) (calls f e w) /\
    NoDup (map fst segment) /\
    (forall k v,
       In (k, v) segment <->
       exists segments,
         AccessibleTopology nodeInfo = Some segments /\
         segments !! k = Some v) /\
    (AccessibleTopology nodeInfo = None -> segment = []).
Proof.
  intros Hnd Hin. pose proof (main_run f e w) as H. open_run H.
  3-6: rewrite Hcalls in Hin; in_parts Hin.
  all: try pose proof (coordinate_only _ _ _ _ _ H) as O_co.
  all: assert (Hin' : In (EvNewCentralCapacityController args) t_cap)
         by (rewrite Hcalls in Hin; in_parts Hin; exact Hin).
  all: destruct (listers_with_node_deployment _ _ _ _ _ _ P_ls Hnd)
         as (nodeInfo & Hinfo & Hrpc & Hls & _).
  all: destruct (capacity_local _ _ _ _ _ _ _ _ _ _ P_cap Hls) as [_ Hargs].
  all: destruct (Hargs _ Hin') as (Ht & Hc & Hnew & Hw).
  all: destruct (fixed_segment_spec (node_deployment f su nodeInfo))
         as [Hnodup Hentries].
  all: exists nodeInfo, (fixed_segment (node_deployment f su nodeInfo)).
  all: rewrite Hc.
  all: split; [rewrite Hcalls; in_calls|].
  all: split; [exact Hinfo|]; split; [exact Ht|].
  all: split; [rewrite Hcalls; in_calls|].
  all: split; [rewrite Hcalls; in_calls|].
  all: split; [exact Hnodup|]; split; [exact Hentries|].
  all: unfold fixed_segment, node_deployment; cbn [nd_NodeInfo]; by intros ->.
Qed.

(** *** The arguments of [ctrl.NewCSIProvisioner] *)

(** X14. [ctrl.NewCSIProvisioner] is called at most once, with what the
    driver reported: its name, the capabilities that were fetched over the
    connection the provisioner is given (the one with the migration
    metrics for a migrated driver, whose in-tree name is passed along),
    and, under [--node-deployment] only, a description of the node: the
    non-empty NODE_NAME, the node info fetched over the same connection,
    and the delays and the binding mode of the flags. *)
Theorem X14_provisioner_arguments
    (f : Flags) (e : Env) (w : World) (args : ProvisionerArgs) :
  In (EvNewCSIProvisioner args) (calls f e w) ->
  count_events is_new_provisioner (calls f e w) = 1%nat /\
  GetDriverName w SidecarManager = Ok (pa_driverName args) /\
  GetDriverCapabilities w (pa_grpcClient args)
  = Ok (pa_pluginCapabilities args, pa_controllerCapabilities args) /\
  (if IsMigratedCSIDriverByName w (pa_driverName args)
   then pa_grpcClient args = MigratedManager /\
        GetInTreeNameFromCSIName w (pa_driverName args)
        = Ok (pa_supportsMigrationFromInTreePluginName args)
   else pa_grpcClient args = SidecarManager /\
        pa_supportsMigrationFromInTreePluginName args = "") /\
  pa_timeout args = operationTimeout f /\
  match pa_nodeDeployment args with
  | None => enableNodeDeployment f = false
  | Some nd =>
      enableNodeDeployment f = true /\
      nd_NodeName nd = getenv_value e "NODE_NAME" /\
      nd_NodeName nd <> "" /\
      GetNodeInfo w (pa_grpcClient args) = Ok (nd_NodeInfo nd) /\
      nd_ClaimInformer nd = (SharedFactory, PersistentVolumeClaims) /\
      nd_ImmediateBinding nd = nodeDeploymentImmediateBinding f /\
      nd_BaseDelay nd = nodeDeploymentBaseDelay f /\
      nd_MaxDelay nd = nodeDeploymentMaxDelay f
  end.
Proof.
  intros Hin. pose proof (main_run f e w) as H. open_run H.
  3: by destruct P_pv as [_ ?].
  3-5: rewrite Hcalls in Hin; in_parts Hin.
  all: try pose proof (coordinate_only _ _ _ _ _ H) as O_co.
  all: assert (Hin' : In (EvNewCSIProvisioner args) t_pv)
         by (rewrite Hcalls in Hin; in_parts Hin; exact Hin).
  all: destruct P_pv as [Hpv _]; rewrite Hpv in Hin'; in_list Hin';
    injection Hin' as <-.
  all: split;
    [ rewrite Hcalls, !count_events_app;
      rewrite (count_events_none is_new_provisioner configure_event t_conf),
        (count_events_none is_new_provisioner identify_event t_id),
        (count_events_none is_new_provisioner listers_event t_ls),
        (count_events_none is_new_provisioner capacity_event t_cap),
        ?(count_events_none is_new_provisioner controllers_event t_ctl),
        ?(count_events_none is_new_provisioner
            (fun ev => election_event ev || run_event ev) t_co);
      try eassumption; try (by intros []); by rewrite Hpv |].
  all: destruct (identify_driver _ _ _ _ P_id) as [Hname Hmig].
  all: destruct (listers_capabilities _ _ _ _ _ _ P_ls)
         as (_ & _ & Hcaps & _).
  all: destruct (Hcaps _ eq_refl) as [Hcaps' _].
  all: destruct (configure_returns _ _ _ _ _ P_conf)
         as (_ & _ & _ & Hnode & Hnn & _).
  all: cbn [pa_driverName pa_grpcClient pa_pluginCapabilities
            pa_controllerCapabilities pa_supportsMigrationFromInTreePluginName
            pa_timeout pa_nodeDeployment provisioner_args].
  all: split; [exact Hname|]; split; [exact Hcaps'|].
  all: split;
    [ destruct Hmig as [(Hm & Hc & Hs & _)|(Hm & Hc & Hs)]; rewrite Hm;
      by split |].
  all: split; [reflexivity|].
  all: destruct (enableNodeDeployment f) eqn:Hnd.
  all: try (destruct (listers_without_node_deployment _ _ _ _ _ _ P_ls Hnd)
              as [-> _]; reflexivity).
  all: destruct (listers_with_node_deployment _ _ _ _ _ _ P_ls Hnd)
         as (nodeInfo & Hinfo & _ & -> & _).
  all: cbn [node_deployment nd_NodeName nd_NodeInfo nd_ClaimInformer
            nd_ImmediateBinding nd_BaseDelay nd_MaxDelay].
  all: rewrite Hnode; repeat split; try done.
  all: intros Hempty; rewrite Hempty in Hnn; discriminate Hnn.
Qed.

(** *** The [run] closure *)

Lemma coordinate_run f w asm t r ev :
  coordinate_full_post f w asm t r -> In ev t -> run_event ev = true ->
  exists pre t_run,
    t = (pre ++ t_run)%list /\ only election_event pre /\
    run_order f asm t_run /\ In ev t_run.
Proof.
  unfold coordinate_full_post, run_full_post. intros H Hin Hev.
  destruct (enableLeaderElection f).
  2: { exists [], t. destruct H as [_ Ho]. repeat split; try done. constructor. }
  destruct (NewLeaderElectionClientset w).
  { destruct H as [-> _]. in_list Hin. subst. discriminate Hev. }
  destruct H as (t_run & -> & H).
  pose proof (le_prefix_only f asm) as Hle.
  apply in_app_or in Hin as [Hin|Hin].
  { apply (only_In _ _ _ Hle) in Hin. destruct ev; discriminate. }
  destruct (le_invokes_run (LeaderElectionRun w)).
  - destruct H as (r' & [_ Ho] & _). by exists (le_prefix f asm), t_run.
  - destruct H as [-> _]. destruct Hin.
Qed.

Lemma run_order_loops f asm t ev :
  run_order f asm t -> In ev t -> is_controller_run ev = true ->
  In ev (run_loops f asm) /\
  exists head, t = (head ++ run_loops f asm)%list.
Proof.
  intros (rs & ns & res & t_loops & -> & Hl) Hin Hev.
  assert (Hin' : In ev t_loops).
  { destruct (as_factoryForNamespace asm); in_parts Hin;
      in_list Hin; subst; try discriminate Hev; exact Hin. }
  destruct Hl as [-> | ->]; [destruct Hin'|].
  split; [exact Hin'|]. eexists. by rewrite !app_assoc.
Qed.

Lemma run_order_tail f asm t ev :
  run_order f asm t -> In ev t -> is_controller_run ev = true ->
  exists head,
    t = (head ++ run_loops f asm)%list /\
    Forall (fun ev => is_controller_run ev = false) head.
Proof.
  intros (rs & ns & res & t_loops & -> & Hl) Hin Hev.
  assert (Hin' : In ev t_loops).
  { destruct (as_factoryForNamespace asm); in_parts Hin;
      in_list Hin; subst; try discriminate Hev; exact Hin. }
  destruct Hl as [-> | ->]; [destruct Hin'|].
  eexists. split; [by rewrite !app_assoc|].
  destruct (as_factoryForNamespace asm); by repeat constructor.
Qed.

(** X15. The run loops are the end of the log, in the order of lines
    541-547.  A run that starts any of them has by then constructed the
    cloning-protection controller and, with [--enable-capacity], the
    capacity controller, and has started no run loop; from there on its
    log is: the loop of the capacity controller, exactly with
    [--enable-capacity]; then the loop of the cloning-protection
    controller, exactly when its constructor returned a controller; then
    [provisionController.Run], and nothing after it.  The two loops get
    the thread counts of their flags. *)
Theorem X15_run_loops_of_built_controllers
    (f : Flags) (e : Env) (w : World) (ev : Event) :
  In ev (calls f e w) ->
  is_controller_run ev = true ->
  exists head caps,
    calls f e w
    = (head ++
       (if enableCapacity f
        then [EvGoCapacityControllerRun (int_of_uint (capacityThreads f))]
        else []) ++
       (if CloningProtectionControllerBuilt w caps
        then [EvGoCloningProtectionControllerRun
                (int_of_uint (finalizerThreads f))]
        else []) ++
       [EvProvisionControllerRun])%list /\
    Forall (fun ev => is_controller_run ev = false) head /\
    In (EvNewCloningProtectionController caps) head /\
    (enableCapacity f = true ->
     exists args, In (EvNewCentralCapacityController args) head).
Proof.
  intros Hin Hev. pose proof (main_full_run f e w) as H. open_full_run H.
  2-7: assert (Hl : only assemble_event (calls f e w))
         by (rewrite Hcalls; assembly_only);
       apply (only_In _ _ _ Hl) in Hin; destruct ev; discriminate.
  pose proof (coordinate_only _ _ _ _ _ H) as O_co.
  pose proof (capacity_provisioner _ _ _ _ _ _ _ _ _ P_cap) as Hcp.
  assert (Hl : only assemble_event
                 (t_conf ++ t_id ++ t_ls ++ t_pv ++ t_cap ++ t_ctl))
    by assembly_only.
  assert (Hin' : In ev t_co).
  { rewrite Hcalls in Hin. apply in_app_or in Hin as [Hin|Hin]; [|exact Hin].
    apply (only_In _ _ _ Hl) in Hin. destruct ev; discriminate. }
  destruct (coordinate_run _ _ _ _ _ _ Hfull Hin')
    as (pre & t_run & -> & Hpre & Ho & Hr);
    [destruct ev; try discriminate; reflexivity|].
  destruct (run_order_tail _ _ _ _ Ho Hr Hev) as (head & -> & Hhead).
  exists ((t_conf ++ t_id ++ t_ls ++ t_pv ++ t_cap ++ t_ctl) ++ pre ++ head)%list,
         (ls_controllerCapabilities ls).
  split; [|split; [|split]].
  - rewrite Hcalls, <- !app_assoc. unfold run_loops.
    cbn [as_capacityController as_csiClaimController].
    destruct (enableCapacity f).
    + destruct Hcp as (args & _ & -> & _).
      by rewrite bool_decide_eq_true_2 by by eexists.
    + destruct Hcp as (_ & -> & _).
      by rewrite bool_decide_eq_false_2 by by intros [? ?].
  - rewrite Forall_app. split; [|rewrite Forall_app; split; [|exact Hhead]].
    + eapply Forall_impl; [exact Hl|]. by intros [].
    + eapply Forall_impl; [exact Hpre|]. by intros [].
  - destruct P_ctl as [-> _]. in_calls.
  - intros Hcap. rewrite Hcap in Hcp. destruct Hcp as (args & _ & _ & _ & Ha).
    exists args. in_calls.
Qed.

Lemma coordinate_shape f w asm t r :
  coordinate_full_post f w asm t r ->
  only election_event t \/
  exists pre t_run,
    t = (pre ++ t_run)%list /\ only election_event pre /\
    run_order f asm t_run.
Proof.
  unfold coordinate_full_post, run_full_post. intros H.
  destruct (enableLeaderElection f).
  2: { right. exists [], t. destruct H as [_ Ho]. repeat split; try done.
       constructor. }
  destruct (NewLeaderElectionClientset w).
  { destruct H as [-> _]. left. only_tac. }
  destruct H as (t_run & -> & H).
  pose proof (le_prefix_only f asm) as Hle.
  destruct (le_invokes_run (LeaderElectionRun w)).
  - destruct H as (r' & [_ Ho] & _). right. by exists (le_prefix f asm), t_run.
  - destruct H as [-> _]. left. by rewrite app_nil_r.
Qed.

(** X16. The factories in [run].  The shared factory is started first;
    with [--enable-capacity] the factory of the capacity objects is
    started right after it, and without it that factory is never started;
    then the caches of the shared factory are waited for, and only run
    loops follow.  No run waits for the caches of another factory, and the
    factory that holds the static Node and CSINode objects is never
    started. *)
Theorem X16_factories_started_in_order (f : Flags) (e : Env) (w : World) :
  (forall fac rs,
     In (EvFactoryStart fac rs) (calls f e w) ->
     fac = SharedFactory \/ (fac = NamespaceFactory /\ enableCapacity f = true)) /\
  (forall fac res,
     In (EvWaitForCacheSync fac res) (calls f e w) -> fac = SharedFactory) /\
  (forall pre rs post,
     calls f e w = (pre ++ EvFactoryStart SharedFactory rs :: post)%list ->
     only before_run pre /\
     exists ns res t_loops,
       post = ((if enableCapacity f
                then [EvFactoryStart NamespaceFactory ns] else []) ++
               [EvWaitForCacheSync SharedFactory res] ++ t_loops)%list /\
       only is_controller_run t_loops).
Proof.
  pose proof (main_full_run f e w) as H. open_full_run H.
  2-7: assert (Hl : only assemble_event (calls f e w))
         by (rewrite Hcalls; assembly_only);
       (split; [|split]);
       [ intros fac rs Hin; by apply (only_In _ _ _ Hl) in Hin
       | intros fac res Hin; by apply (only_In _ _ _ Hl) in Hin
       | intros pre rs post Heq; rewrite Heq in Hl;
         apply only_app in Hl as [_ Hl]; by inversion Hl ].
  assert (Hl : only assemble_event
                 (t_conf ++ t_id ++ t_ls ++ t_pv ++ t_cap ++ t_ctl))
    by assembly_only.
  pose proof (capacity_provisioner _ _ _ _ _ _ _ _ _ P_cap) as Hcp.
  assert (Hns : cp_factoryForNamespace cp = enableCapacity f).
  { destruct (enableCapacity f).
    - by destruct Hcp as (args & _ & _ & ? & _).
    - by destruct Hcp as (_ & _ & ? & _). }
  destruct (coordinate_shape _ _ _ _ _ Hfull)
    as [Hel|(pre_el & t_run & -> & Hel & rs0 & ns & res & t_loops & -> & Hloops)].
  { assert (Hall : only before_run (calls f e w)).
    { rewrite Hcalls, only_app. split.
      - eapply only_impl; [apply assemble_before_run | exact Hl].
      - eapply only_impl; [apply election_before_run | exact Hel]. }
    split; [|split].
    - intros fac rs Hin. by apply (only_In _ _ _ Hall) in Hin.
    - intros fac res0 Hin. by apply (only_In _ _ _ Hall) in Hin.
    - intros pre rs post Heq. rewrite Heq in Hall.
      apply only_app in Hall as [_ Hall]. by inversion Hall. }
  cbn [as_factoryForNamespace] in Hcalls. rewrite Hns in Hcalls.
  assert (Hloops' : only is_controller_run t_loops).
  { destruct Hloops as [-> | ->]; [constructor | apply run_loops_only]. }
  assert (Hpre : only before_run
                   ((t_conf ++ t_id ++ t_ls ++ t_pv ++ t_cap ++ t_ctl) ++ pre_el)).
  { rewrite only_app. split.
    - eapply only_impl; [apply assemble_before_run | exact Hl].
    - eapply only_impl; [apply election_before_run | exact Hel]. }
  split; [|split].
  - intros fac rs Hin. rewrite Hcalls in Hin.
    apply in_app_or in Hin as [Hin|Hin].
    { by apply (only_In _ _ _ Hl) in Hin. }
    apply in_app_or in Hin as [Hin|Hin].
    { by apply (only_In _ _ _ Hel) in Hin. }
    destruct (enableCapacity f); in_list Hin;
      try (injection Hin as <- <-; tauto);
      by apply (only_In _ _ _ Hloops') in Hin.
  - intros fac res0 Hin. rewrite Hcalls in Hin.
    apply in_app_or in Hin as [Hin|Hin].
    { by apply (only_In _ _ _ Hl) in Hin. }
    apply in_app_or in Hin as [Hin|Hin].
    { by apply (only_In _ _ _ Hel) in Hin. }
    destruct (enableCapacity f); in_list Hin;
      try (by injection Hin as <- <-);
      by apply (only_In _ _ _ Hloops') in Hin.
  - intros pre rs post Heq. rewrite Hcalls, app_assoc in Heq. cbn [app] in Heq.
    apply (split_at_unique is_shared_start) in Heq as (-> & [= ->] & ->);
      [ | eapply only_without; [|exact Hpre];
          intros ev Hev; destruct ev; try reflexivity; discriminate
        | | reflexivity ].
    + split; [exact Hpre|]. by exists ns, res, t_loops.
    + rewrite only_app. split.
      * destruct (enableCapacity f); only_tac.
      * constructor; [reflexivity|].
        eapply only_without; [|exact Hloops']. by intros [].
Qed.

(** *** The [--version] flag *)

Lemma configure_version f e w t r :
  configure_post f e w t r ->
  (In EvPrintVersion t ->
     showVersion f = true /\
     SetFromMap w (featureGates f) = None /\
     enableNodeDeployment f && String.eqb (getenv_value e "NODE_NAME") "" = false /\
     r = inr (Exit 0) /\
     t = [EvSetFeatureGates (featureGates f); EvGetenv "NODE_NAME";
          EvPrintVersion]) /\
  (showVersion f = true -> ~ In EvPrintVersion t ->
     (exists err, SetFromMap w (featureGates f) = Some err /\
                  r = inr (KlogFatal err)) \/
     (enableNodeDeployment f && String.eqb (getenv_value e "NODE_NAME") "" = true /\
      r = inr (KlogFatal need_NODE_NAME))) /\
  (showVersion f = true -> SetFromMap w (featureGates f) = None ->
   enableNodeDeployment f && String.eqb (getenv_value e "NODE_NAME") "" = false ->
   In EvPrintVersion t).
Proof.
  unfold configure_post. intros H.
  destruct (SetFromMap w (featureGates f)) as [err|].
  { destruct H as [-> ->]. split; [intros Hin; in_list Hin|].
    split; [|done]. intros _ _. left. by exists err. }
  destruct (enableNodeDeployment f && _).
  { destruct H as [-> ->]. split; [intros Hin; in_list Hin|].
    split; [|done]. intros _ _. by right. }
  destruct (showVersion f).
  { destruct H as [-> ->]. split; [done|].
    split; [|intros _ _ _; in_calls].
    intros _ Hno. exfalso. apply Hno. in_calls. }
  split; [|done].
  destruct (nonempty (metricsAddress f) && _).
  { destruct H as [-> _]. intros Hin. in_list Hin. }
  destruct H as (t' & -> & Hk & _). intros Hin.
  apply in_app_or in Hin as [Hin|Hin]; [in_list Hin|].
  by apply (only_In _ _ _ Hk) in Hin.
Qed.

(** X17. [--version] does not come first.  The version is printed exactly
    when the flag is given, the feature gates were accepted and, under
    [--node-deployment], NODE_NAME is set; the run then ends with status 0
    and has done nothing else.  With the flag given, a run that does not
    print the version ended with the fatal error of one of those two
    earlier checks. *)
Theorem X17_version_after_two_checks (f : Flags) (e : Env) (w : World) :
  (In EvPrintVersion (calls f e w) <->
   showVersion f = true /\
   SetFromMap w (featureGates f) = None /\
   (enableNodeDeployment f = true -> getenv_value e "NODE_NAME" <> "")) /\
  (In EvPrintVersion (calls f e w) ->
   outcome f e w = inr (Exit 0) /\
   calls f e w = [EvSetFeatureGates (featureGates f); EvGetenv "NODE_NAME";
                  EvPrintVersion]) /\
  (showVersion f = true -> ~ In EvPrintVersion (calls f e w) ->
   (exists err, SetFromMap w (featureGates f) = Some err /\
                outcome f e w = inr (KlogFatal err)) \/
   (enableNodeDeployment f = true /\ getenv_value e "NODE_NAME" = "" /\
    outcome f e w = inr (KlogFatal need_NODE_NAME))).
Proof.
  assert (Hnode : forall b,
            enableNodeDeployment f && String.eqb (getenv_value e "NODE_NAME") "" = b ->
            if b then enableNodeDeployment f = true /\
                      getenv_value e "NODE_NAME" = ""
            else enableNodeDeployment f = true ->
                 getenv_value e "NODE_NAME" <> "").
  { intros b <-. destruct (enableNodeDeployment f); [|done]. cbn [andb].
    destruct (String.eqb_spec (getenv_value e "NODE_NAME") "");
      [by split | by intros _]. }
  assert (Hcore : forall t r,
            configure_post f e w t r ->
            (In EvPrintVersion t <->
             showVersion f = true /\
             SetFromMap w (featureGates f) = None /\
             (enableNodeDeployment f = true ->
              getenv_value e "NODE_NAME" <> ""))).
  { intros t r Hp. destruct (configure_version _ _ _ _ _ Hp) as (H1 & _ & H3).
    split.
    - intros Hin. destruct (H1 Hin) as (Hv & Hg & Hn & _).
      repeat split; try done. exact (Hnode _ Hn).
    - intros (Hv & Hg & Hn). apply H3; try done.
      destruct (enableNodeDeployment f); [|done]. cbn [andb].
      destruct (String.eqb_spec (getenv_value e "NODE_NAME") ""); [|done].
      by destruct Hn. }
  pose proof (main_run f e w) as H. open_run H.
  3: by destruct P_pv as [_ ?].
  all: swap 5 6.
  1-5: destruct (configure_returns _ _ _ _ _ P_conf) as (_ & Hv & _);
       destruct (configure_version _ _ _ _ _ P_conf) as (H1 & _ & _);
       assert (Hno : ~ In EvPrintVersion (calls f e w))
         by (try pose proof (coordinate_only _ _ _ _ _ H);
             rewrite Hcalls; intros Hin; in_parts Hin;
             by destruct (H1 Hin) as (_ & _ & _ & ? & _));
       (split; [|split]);
       [ split; [done | intros (Hv' & _); congruence]
       | done
       | intros Hv'; congruence ].
  rewrite Hcalls, Hout.
  destruct (configure_version _ _ _ _ _ P_conf) as (H1 & H2 & _).
  split; [|split].
  - by apply (Hcore _ _ P_conf).
  - intros Hin. by destruct (H1 Hin) as (_ & _ & _ & [= ->] & ->).
  - intros Hv Hno.
    destruct (H2 Hv Hno) as [(err & Hg & [= ->])|[Hn [= ->]]].
    + left. by exists err.
    + right. destruct (Hnode _ Hn) as [Hnd Hempty]. by repeat split.
Qed.

(** *** Thread counts *)

Lemma int_of_uint_spec (u : Z) :
  0 <= u < 2 ^ 64 ->
  (u < 2 ^ 63 -> int_of_uint u = u) /\
  (2 ^ 63 <= u -> int_of_uint u = u - 2 ^ 64 /\ int_of_uint u < 0).
Proof.
  intros Hu. unfold int_of_uint. split.
  - intros Hs. rewrite Z.mod_small by lia. lia.
  - intros Hl.
    assert (Hm : (u + 2 ^ 63) `mod` 2 ^ 64 = u + 2 ^ 63 - 2 ^ 64).
    { symmetry. apply (Z.mod_unique_pos _ _ 1); lia. }
    rewrite Hm. lia.
Qed.

Lemma controller_run_threads f e w ev :
  In ev (calls f e w) ->
  match ev with
  | EvGoCapacityControllerRun n => n = int_of_uint (capacityThreads f)
  | EvGoCloningProtectionControllerRun n => n = int_of_uint (finalizerThreads f)
  | EvNewProvisionController _ _ _ options =>
      forall n, In (Threadiness n) options -> n = int_of_uint (workerThreads f)
  | _ => True
  end.
Proof.
  intros Hin.
  destruct ev; try exact I.
  - pose proof (main_run f e w) as H. open_run H.
    2-6: rewrite Hcalls in Hin; in_parts Hin.
    1: pose proof (coordinate_only _ _ _ _ _ H) as O_co.
    all: rewrite Hcalls in Hin; in_parts Hin.
    1: destruct (controllers_built f w _ _ _ _ _ _ _ _ _ _ _
                   (or_introl P_ctl) Hin) as (_ & _ & _ & ->).
    2: destruct (controllers_built f w _ _ _ _ _ _ _ _ _ _ _
                   (or_intror P_ctl) Hin) as (_ & _ & _ & ->).
    all: destruct P_pv as [_ [= ->]]; cbn [pv_options].
    all: intros n Hn; by apply provisioner_options_spec in Hn.
  - pose proof (main_full_run f e w) as H. open_full_run H.
    2-7: rewrite Hcalls in Hin; in_parts Hin;
         by apply (only_In _ _ _ O_conf) in Hin.
    rewrite Hcalls in Hin. in_parts Hin.
    destruct (coordinate_run _ _ _ _ _ _ Hfull Hin eq_refl)
      as (pre & t_run & _ & _ & Ho & Hr).
    destruct (run_order_loops _ _ _ _ Ho Hr eq_refl) as [Hl _].
    unfold run_loops in Hl.
    destruct (bool_decide _), (as_csiClaimController _); in_list Hl;
      by injection Hl.
  - pose proof (main_full_run f e w) as H. open_full_run H.
    2-7: rewrite Hcalls in Hin; in_parts Hin;
         by apply (only_In _ _ _ O_conf) in Hin.
    rewrite Hcalls in Hin. in_parts Hin.
    destruct (coordinate_run _ _ _ _ _ _ Hfull Hin eq_refl)
      as (pre & t_run & _ & _ & Ho & Hr).
    destruct (run_order_loops _ _ _ _ Ho Hr eq_refl) as [Hl _].
    unfold run_loops in Hl.
    destruct (bool_decide _), (as_csiClaimController _); in_list Hl;
      by injection Hl.
Qed.

(** X18. The three thread counts are unsigned flags converted with
    [int(...)].  A value below 2^63 is passed on unchanged, to the
    provision controller as its threadiness and to the run loops of the
    capacity and cloning-protection controllers; a value of 2^63 or more
    arrives as a negative number, the value minus 2^64. *)
Theorem X18_thread_counts_wrap_around (f : Flags) (e : Env) (w : World) :
  (forall driver p gitVersion options n,
     In (EvNewProvisionController driver p gitVersion options) (calls f e w) ->
     In (Threadiness n) options ->
     wraps (workerThreads f) n) /\
  (forall n,
     In (EvGoCapacityControllerRun n) (calls f e w) ->
     wraps (capacityThreads f) n) /\
  (forall n,
     In (EvGoCloningProtectionControllerRun n) (calls f e w) ->
     wraps (finalizerThreads f) n).
Proof.
  unfold wraps. split; [|split].
  - intros driver p gitVersion options n Hin Hn Hu.
    pose proof (controller_run_threads f e w _ Hin) as Heq. cbv beta iota in Heq.
    rewrite (Heq n Hn). by apply int_of_uint_spec.
  - intros n Hin Hu.
    pose proof (controller_run_threads f e w _ Hin) as Heq. cbv beta iota in Heq.
    rewrite Heq. by apply int_of_uint_spec.
  - intros n Hin Hu.
    pose proof (controller_run_threads f e w _ Hin) as Heq. cbv beta iota in Heq.
    rewrite Heq. by apply int_of_uint_spec.
Qed.

(** *** A run in which nothing fails *)

Lemma run_post_synced f w asm t r :
  run_post f w asm t r -> (forall x, CacheSynced w x = true) ->
  r = inl tt /\ exists pre, t = (pre ++ [EvProvisionControllerRun])%list.
Proof.
  intros (rs & t_ns & res & t_loops & -> & _ & _ & Hflags & Hend) Hsync.
  assert (Hall : forallb snd res = true).
  { apply forallb_forall. intros [x b] Hin. cbn.
    rewrite (Hflags _ _ Hin). apply Hsync. }
  rewrite Hall in Hend. destruct Hend as [-> ->]. split; [reflexivity|].
  unfold run_loops. eexists. rewrite !app_assoc. reflexivity.
Qed.

Lemma configure_healthy f e w t h :
  configure_post f e w t (inr h) -> configure_kube_post f e w t (inr h) ->
  showVersion f = false ->
  nonempty (metricsAddress f) && nonempty (httpEndpoint f) = false ->
  enableNodeDeployment f && String.eqb (getenv_value e "NODE_NAME") "" = false ->
  healthy f e w ->
  False.
Proof.
  intros _ Pk Hv Hboth Hnd
    (Hg & Hcfg & Hc1 & Hc2 & [v Hsv] & _).
  destruct (Pk Hg Hnd Hv Hboth) as (t' & _ & Hp). unfold kube_path in Hp.
  rewrite Hcfg, Hc1, Hc2, Hsv in Hp. by destruct Hp as [_ ?].
Qed.

Lemma identify_healthy f e w t h :
  identify_post f w t (inr h) -> healthy f e w -> False.
Proof.
  intros P_id
    (_ & _ & _ & _ & _ & Hconn & Hprobe & [name Hname] & Htree & _).
  unfold identify_post in P_id. rewrite Hconn, Hprobe, Hname in P_id.
  destruct (Htree name) as [inTree Ht]. rewrite Ht, Hconn, Hprobe in P_id.
  destruct (IsMigratedCSIDriverByName w name); by destruct P_id as [_ ?].
Qed.

Lemma listers_healthy f e w su dr t h :
  listers_post f w su dr t (inr h) -> healthy f e w -> False.
Proof.
  intros P_ls
    (_ & _ & _ & _ & _ & _ & _ & _ & _ & Hcaps & Hinfo & _).
  unfold listers_post in P_ls.
  destruct (Hcaps (dr_grpcClient dr)) as [caps Hc]. rewrite Hc in P_ls.
  destruct (Hinfo (dr_grpcClient dr)) as [ni Hi]. rewrite Hi in P_ls.
  destruct (enableNodeDeployment f), (SupportsTopology w caps.1);
    by destruct P_ls as [_ ?].
Qed.

(** X19. Without a diagnostics server, when nothing fails, the provision
    controller is run: if neither [--metrics-address] nor
    [--http-endpoint] is set, the flags and the environment pass the
    checks of [main], every call to the API server and to the driver
    succeeds, every cache syncs and, with leader election, this instance
    gets the lease, then the run is not ended by an exit, a fatal error or
    a panic, and [provisionController.Run] is the last call of
    its log. *)
Theorem X19_healthy_run_starts_provisioning
    (f : Flags) (e : Env) (w : World) :
  well_configured f e w -> healthy f e w ->
  outcome f e w = inl tt /\
  exists pre, calls f e w = (pre ++ [EvProvisionControllerRun])%list.
Proof.
  intros (Hv & Hma & Hhe & Hnode & Hcap) Hhealthy.
  pose proof Hhealthy as
    (Hg & Hcfg & Hc1 & Hc2 & [v Hsv] & Hconn & Hprobe & [name Hname] &
     Htree & Hcaps & Hinfo & Hsync & Hle & Hrun & Herr).
  assert (Hnd : enableNodeDeployment f && String.eqb (getenv_value e "NODE_NAME") ""
                = false).
  { destruct (enableNodeDeployment f); [|done]. cbn [andb].
    destruct (String.eqb_spec (getenv_value e "NODE_NAME") ""); [|done].
    by destruct Hnode. }
  assert (Hboth : nonempty (metricsAddress f) && nonempty (httpEndpoint f) = false)
    by (by rewrite Hma).
  pose proof (main_full_run f e w) as H. open_full_run H.
  - rewrite Hcalls. unfold coordinate_post in H.
    destruct (enableLeaderElection f).
    + rewrite Hle in H. destruct H as (t_run & -> & H). rewrite Hrun in H.
      destruct H as (r' & Hr & ->).
      destruct (run_post_synced _ _ _ _ _ Hr Hsync) as [-> [pre ->]].
      unfold le_result. rewrite Herr. split; [reflexivity|].
      eexists. rewrite !app_assoc. reflexivity.
    + destruct (run_post_synced _ _ _ _ _ H Hsync) as [-> [pre ->]].
      split; [reflexivity|]. eexists. rewrite !app_assoc. reflexivity.
  - exfalso. remember (inr h) as r eqn:Hr.
    assert (Hc : enableCapacity f = true).
    { unfold capacity_post in P_cap. destruct (enableCapacity f); [done|].
      destruct P_cap as [_ ->]. discriminate Hr. }
    destruct (Hcap Hc) as [Hns Hown]. unfold owner_resolves in Hown.
    unfold capacity_post, capacity_built in P_cap. rewrite Hc in P_cap.
    destruct (String.eqb_spec (getenv_value e "NAMESPACE") ""); [done|].
    destruct (Z.leb_spec 0 (capacityOwnerrefLevel f)) as [Hlevel|Hlevel].
    2: { destruct P_cap as [_ ->]. discriminate Hr. }
    destruct Hown as [Hlt|[Hp (c & Hc')]]; [lia|].
    destruct (String.eqb_spec (getenv_value e "POD_NAME") ""); [done|].
    rewrite Hc' in P_cap. destruct P_cap as [_ ->]. discriminate Hr.
  - by destruct P_pv as [_ ?].
  - by destruct (listers_healthy _ _ _ _ _ _ _ P_ls Hhealthy).
  - by destruct (identify_healthy _ _ _ _ _ P_id Hhealthy).
  - destruct P_conf as [Pc Pk].
    by destruct (configure_healthy _ _ _ _ _ Pc Pk Hv Hboth Hnd Hhealthy).
  - exfalso. unfold mux_panics, addr in Hmux. by rewrite Hma, Hhe in Hmux.
Qed.

(** *** The topology source of the capacity controller *)

(** C10. With capacity publishing on and node deployment off, the live
    node topology (over the Node and CSINode informers of the shared
    factory) is constructed and its worker is started right after, in
    every run in which the calls that come before line 427 succeed, the
    namespace is set and the owner can be resolved; the capacity
    controller is then built over that topology.  Every run that has
    constructed the provisioner, with a namespace and a resolvable owner,
    goes on to do so; every provision controller is constructed after
    that, over the wrapper of that capacity controller; and a capacity
    controller is never built over anything else.  No condition on the
    topology support of the driver is involved: that check only selects
    the node and CSINode listers handed to [ctrl.NewCSIProvisioner]. *)
Theorem C10_capacity_topology_ignores_topology_support
    (f : Flags) (e : Env) (w : World) :
  enableCapacity f = true ->
  enableNodeDeployment f = false ->
  (forall args,
     In (EvNewCentralCapacityController args) (calls f e w) ->
     exists driver,
       ca_topologyInformer args = live_topology driver /\
       In (EvNewNodeTopology driver (SharedFactory, Nodes)
             (SharedFactory, CSINodes)) (calls f e w) /\
       In (EvGoRunWorker (live_topology driver)) (calls f e w)) /\
  (In (EvGetenv "NAMESPACE") (calls f e w) ->
   getenv_value e "NAMESPACE" <> "" ->
   owner_resolves f e w ->
   exists driver,
     In (EvNewNodeTopology driver (SharedFactory, Nodes)
           (SharedFactory, CSINodes)) (calls f e w) /\
     In (EvGoRunWorker (live_topology driver)) (calls f e w)) /\
  (forall args,
     In (EvNewCSIProvisioner args) (calls f e w) ->
     pa_nodeLister args
     = (if SupportsTopology w (pa_pluginCapabilities args)
        then Some (SharedFactory, Nodes) else None) /\
     pa_csiNodeLister args
     = (if SupportsTopology w (pa_pluginCapabilities args)
        then Some (SharedFactory, CSINodes) else None)) /\
  (forall pargs,
     In (EvNewCSIProvisioner pargs) (calls f e w) ->
     getenv_value e "NAMESPACE" <> "" ->
     owner_resolves f e w ->
     exists before after cargs,
       starts_live_topology (pa_driverName pargs) before after (calls f e w) /\
       In (EvNewCSIProvisioner pargs) before /\
       In (EvNewCentralCapacityController cargs) after /\
       ca_topologyInformer cargs = live_topology (pa_driverName pargs)) /\
  (forall driver p gitVersion options,
     In (EvNewProvisionController driver p gitVersion options) (calls f e w) ->
     exists pargs cargs before after,
       p = ProvisionWrapper (CSIProvisioner pargs) cargs /\
       ca_topologyInformer cargs = live_topology driver /\
       starts_live_topology driver before after (calls f e w) /\
       In (EvNewCentralCapacityController cargs) after /\
       In (EvNewProvisionController driver p gitVersion options) after) /\
  (showVersion f = false ->
   metricsAddress f = "" \/ httpEndpoint f = "" ->
   getenv_value e "NAMESPACE" <> "" ->
   owner_resolves f e w ->
   healthy f e w ->
   exists driver pargs before after cargs,
     GetDriverName w SidecarManager = Ok driver /\
     starts_live_topology driver before after (calls f e w) /\
     In (EvNewCSIProvisioner pargs) before /\
     pa_driverName pargs = driver /\
     In (EvNewCentralCapacityController cargs) after /\
     ca_topologyInformer cargs = live_topology driver).
Proof.
  intros Hcap Hnd.
  assert (Hnode : enableNodeDeployment f &&
                  String.eqb (getenv_value e "NODE_NAME") "" = false)
    by (by rewrite Hnd).
  assert (Hboth : metricsAddress f = "" \/ httpEndpoint f = "" ->
            nonempty (metricsAddress f) && nonempty (httpEndpoint f) = false).
  { unfold nonempty. intros [-> | ->]; [done|]. by rewrite andb_false_r. }
  pose proof (main_full_run f e w) as H. open_full_run H.
  4-6: (split; [|split; [|split; [|split; [|split]]]]);
    [ intros args Hin; rewrite Hcalls in Hin; in_parts Hin
    | intros Hin; rewrite Hcalls in Hin; in_parts Hin
    | intros args Hin; rewrite Hcalls in Hin; in_parts Hin
    | intros pargs Hin; rewrite Hcalls in Hin; in_parts Hin
    | intros driver p gitVersion options Hin; rewrite Hcalls in Hin;
      in_parts Hin
    | intros Hv Hone Hns Hown Hhealthy; exfalso ].
  4: by destruct (listers_healthy _ _ _ _ _ _ _ P_ls Hhealthy).
  4: by destruct (identify_healthy _ _ _ _ _ P_id Hhealthy).
  4: { destruct P_conf as [Pc Pk].
       by destruct (configure_healthy _ _ _ _ _ Pc Pk Hv (Hboth Hone) Hnode
                      Hhealthy). }
  3: by destruct P_pv as [_ ?].
  1: apply coordinate_only in H.
  all: destruct (listers_without_node_deployment _ _ _ _ _ _ P_ls Hnd)
         as (Hnone & Hnl & Hcl).
  all: destruct (capacity_live_topology _ _ _ _ _ _ _ _ _ P_cap Hnone)
         as [Hbuilt Hreach].
  all: destruct (capacity_live_built _ _ _ _ _ _ _ _ _ P_cap Hnone Hcap)
         as [Hreturns Hlive].
  all: destruct (identify_driver _ _ _ _ P_id) as [Hname _].
  all: destruct P_pv as [Epv [= Hpv]].
  all: split; [|split; [|split; [|split; [|split]]]].
  (* the run whose assembly was completed *)
  - intros args Hin. rewrite Hcalls in Hin. in_parts Hin.
    destruct (Hbuilt _ Hin) as (Ht & Hn & Hw).
    exists (dr_provisionerName dr). split; [exact Ht|].
    split; rewrite Hcalls; in_calls.
  - intros _ Hns Hown. destruct (Hreach Hcap Hns Hown) as [Hn Hw].
    exists (dr_provisionerName dr). split; rewrite Hcalls; in_calls.
  - intros args Hin. rewrite Hcalls in Hin. in_parts Hin.
    rewrite Epv in Hin. in_list Hin. injection Hin as <-. cbn. by split.
  - intros pargs Hin _ _. rewrite Hcalls in Hin. in_parts Hin.
    rewrite Epv in Hin. in_list Hin. injection Hin as <-. cbn.
    destruct (Hlive _ eq_refl) as (head & tail & cargs & Ht & Hc & Ha & _).
    exists (t_conf ++ t_id ++ t_ls ++ t_pv ++ head)%list,
           (tail ++ t_ctl ++ t_co)%list, cargs.
    split; [|split; [|split]]; [|rewrite Epv; in_calls|in_calls|exact Ha].
    unfold starts_live_topology in *. rewrite Hcalls, Ht.
    by rewrite <- !app_assoc.
  - intros driver p gitVersion options Hin. rewrite Hcalls in Hin.
    in_parts Hin. destruct P_ctl as [Ectl _]. pose proof Hin as Hin'.
    rewrite Ectl in Hin. apply in_app_or in Hin as [Hin|Hin];
      [|unfold server_events in Hin; destruct (nonempty (addr f)); in_list Hin].
    in_list Hin. injection Hin as <- <- <- <-.
    destruct (Hlive _ eq_refl) as (head & tail & cargs & Ht & Hc & Ha & Hp).
    exists (provisioner_args f dr ls), cargs,
           (t_conf ++ t_id ++ t_ls ++ t_pv ++ head)%list,
           (tail ++ t_ctl ++ t_co)%list.
    split; [by rewrite Hp, Hpv|]. split; [exact Ha|].
    split; [|split; in_calls].
    unfold starts_live_topology in *. rewrite Hcalls, Ht.
    by rewrite <- !app_assoc.
  - intros _ _ _ _ _.
    destruct (Hlive _ eq_refl) as (head & tail & cargs & Ht & Hc & Ha & _).
    exists (dr_provisionerName dr), (provisioner_args f dr ls),
           (t_conf ++ t_id ++ t_ls ++ t_pv ++ head)%list,
           (tail ++ t_ctl ++ t_co)%list, cargs.
    split; [exact Hname|].
    split; [|split; [|split; [|split]]];
      [|rewrite Epv; in_calls|reflexivity|in_calls|exact Ha].
    unfold starts_live_topology in *. rewrite Hcalls, Ht.
    by rewrite <- !app_assoc.
  (* the run that stopped in the capacity part *)
  - intros args Hin. rewrite Hcalls in Hin. in_parts Hin.
    destruct (Hbuilt _ Hin) as (Ht & Hn & Hw).
    exists (dr_provisionerName dr). split; [exact Ht|].
    split; rewrite Hcalls; in_calls.
  - intros _ Hns Hown. destruct (Hreach Hcap Hns Hown) as [Hn Hw].
    exists (dr_provisionerName dr). split; rewrite Hcalls; in_calls.
  - intros args Hin. rewrite Hcalls in Hin. in_parts Hin.
    rewrite Epv in Hin. in_list Hin. injection Hin as <-. cbn. by split.
  - intros pargs _ Hns Hown. by destruct (Hreturns Hns Hown).
  - intros driver p gitVersion options Hin. rewrite Hcalls in Hin.
    in_parts Hin.
  - intros _ _ Hns Hown _. by destruct (Hreturns Hns Hown).
  (* the run in which [mux.Handle] panicked *)
  - intros args Hin. rewrite Hcalls in Hin. in_parts Hin.
    destruct (Hbuilt _ Hin) as (Ht & Hn & Hw).
    exists (dr_provisionerName dr). split; [exact Ht|].
    split; rewrite Hcalls; in_calls.
  - intros _ Hns Hown. destruct (Hreach Hcap Hns Hown) as [Hn Hw].
    exists (dr_provisionerName dr). split; rewrite Hcalls; in_calls.
  - intros args Hin. rewrite Hcalls in Hin. in_parts Hin.
    rewrite Epv in Hin. in_list Hin. injection Hin as <-. cbn. by split.
  - intros pargs Hin _ _. rewrite Hcalls in Hin. in_parts Hin.
    rewrite Epv in Hin. in_list Hin. injection Hin as <-. cbn.
    destruct (Hlive _ eq_refl) as (head & tail & cargs & Ht & Hc & Ha & _).
    exists (t_conf ++ t_id ++ t_ls ++ t_pv ++ head)%list,
           (tail ++ t_ctl)%list, cargs.
    split; [|split; [|split]]; [|rewrite Epv; in_calls|in_calls|exact Ha].
    unfold starts_live_topology in *. rewrite Hcalls, Ht.
    by rewrite <- !app_assoc.
  - intros driver p gitVersion options Hin. rewrite Hcalls in Hin.
    in_parts Hin. destruct P_ctl as [Ectl _]. pose proof Hin as Hin'.
    rewrite Ectl in Hin. in_list Hin. injection Hin as <- <- <- <-.
    destruct (Hlive _ eq_refl) as (head & tail & cargs & Ht & Hc & Ha & Hp).
    exists (provisioner_args f dr ls), cargs,
           (t_conf ++ t_id ++ t_ls ++ t_pv ++ head)%list,
           (tail ++ t_ctl)%list.
    split; [by rewrite Hp, Hpv|]. split; [exact Ha|].
    split; [|split; in_calls].
    unfold starts_live_topology in *. rewrite Hcalls, Ht.
    by rewrite <- !app_assoc.
  - intros _ _ _ _ _.
    destruct (Hlive _ eq_refl) as (head & tail & cargs & Ht & Hc & Ha & _).
    exists (dr_provisionerName dr), (provisioner_args f dr ls),
           (t_conf ++ t_id ++ t_ls ++ t_pv ++ head)%list,
           (tail ++ t_ctl)%list, cargs.
    split; [exact Hname|].
    split; [|split; [|split; [|split]]];
      [|rewrite Epv; in_calls|reflexivity|in_calls|exact Ha].
    unfold starts_live_topology in *. rewrite Hcalls, Ht.
    by rewrite <- !app_assoc.
Qed.

(** *** The set-up of the election *)

(** X20. The election is configured before it is run.  [le.Run()] is
    called at most once; by then the election has been created, the health
    check has been registered if [--http-endpoint] is set, and the
    namespace of [--leader-election-namespace] has been applied if that is
    set.  The namespace is never overridden with another value, and after
    [le.Run()] nothing but the calls of [run] is logged. *)
Theorem X20_election_configured_before_run (f : Flags) (e : Env) (w : World) :
  (forall ns,
     In (EvWithNamespace ns) (calls f e w) ->
     ns = leaderElectionNamespace f /\ ns <> "" /\
     enableLeaderElection f = true) /\
  (forall pre post,
     calls f e w = (pre ++ EvLeaderElectionRun :: post)%list ->
     enableLeaderElection f = true /\
     Forall (fun ev => is_election_run ev = false) pre /\
     (exists lockName, In (EvNewLeaderElection lockName) pre) /\
     (httpEndpoint f <> "" -> In EvPrepareHealthCheck pre) /\
     (leaderElectionNamespace f <> "" ->
      In (EvWithNamespace (leaderElectionNamespace f)) pre) /\
     only run_event post).
Proof.
  pose proof (main_run f e w) as H. open_run H.
  2-7: assert (Hl : only assemble_event (calls f e w))
         by (rewrite Hcalls; assembly_only);
       (split;
        [ intros ns Hin; by apply (only_In _ _ _ Hl) in Hin
        | intros pre post Heq; rewrite Heq in Hl;
          apply only_app in Hl as [_ Hl]; by inversion Hl ]).
  assert (Hl : only assemble_event
                 (t_conf ++ t_id ++ t_ls ++ t_pv ++ t_cap ++ t_ctl))
    by assembly_only.
  match type of H with
  | coordinate_post _ _ ?a _ _ => set (asm := a) in *
  end.
  split.
  - intros ns Hin. rewrite Hcalls in Hin. apply in_app_or in Hin as [Hin|Hin].
    { by apply (only_In _ _ _ Hl) in Hin. }
    destruct (coordinate_election_events _ _ _ _ _ _ H Hin eq_refl)
      as [Hle Hpre].
    unfold le_prefix in Hpre.
    destruct (nonempty (httpEndpoint f)),
      (nonempty (leaderElectionNamespace f)) eqn:Hns;
      in_list Hpre; injection Hpre as <-;
      (split; [reflexivity|]); (split; [by apply nonempty_true | exact Hle]).
  - intros pre post Heq.
    assert (Hin : In EvLeaderElectionRun t_co).
    { assert (Hi : In EvLeaderElectionRun (calls f e w))
        by (rewrite Heq; in_calls).
      rewrite Hcalls in Hi. apply in_app_or in Hi as [Hi|Hi]; [|exact Hi].
      by apply (only_In _ _ _ Hl) in Hi. }
    destruct (coordinate_election_events _ _ _ _ _ _ H Hin eq_refl)
      as [Hle _].
    split; [exact Hle|].
    unfold coordinate_post in H. rewrite Hle in H.
    destruct (NewLeaderElectionClientset w).
    { destruct H as [-> _]. in_list Hin. }
    destruct H as (t_run & -> & H).
    assert (Hrun : only run_event t_run).
    { destruct (le_invokes_run (LeaderElectionRun w)).
      - destruct H as (r' & Hr & _). by eapply run_post_only.
      - destruct H as [-> _]. constructor. }
    set (head := ([EvNewClientset (as_config asm);
                   EvNewLeaderElection (replace_slash (as_provisionerName asm))] ++
                  (if nonempty (httpEndpoint f) then [EvPrepareHealthCheck]
                   else []) ++
                  (if nonempty (leaderElectionNamespace f)
                   then [EvWithNamespace (leaderElectionNamespace f)]
                   else []))%list).
    assert (Hpre : le_prefix f asm = (head ++ [EvLeaderElectionRun])%list).
    { unfold le_prefix, head. by rewrite <- !app_assoc. }
    assert (Hhead : only (without is_election_run) head).
    { unfold head. destruct (nonempty (httpEndpoint f)),
        (nonempty (leaderElectionNamespace f)); only_tac. }
    rewrite Hcalls, Hpre in Heq.
    replace (((t_conf ++ t_id ++ t_ls ++ t_pv ++ t_cap ++ t_ctl) ++
              (head ++ [EvLeaderElectionRun]) ++ t_run)%list)
      with (((t_conf ++ t_id ++ t_ls ++ t_pv ++ t_cap ++ t_ctl) ++ head) ++
            EvLeaderElectionRun :: t_run)%list in Heq
      by (by rewrite <- !app_assoc).
    apply (split_at_unique is_election_run) in Heq as (-> & _ & ->);
      [ | apply only_app; split; [|exact Hhead];
          eapply only_without; [|exact Hl]; by intros []
        | eapply only_without; [|exact Hrun]; by intros []
        | reflexivity ].
    split.
    { apply Forall_app. split.
      - eapply Forall_impl; [exact Hl|]. by intros [].
      - eapply Forall_impl; [exact Hhead|]. intros ev Hev.
        by apply negb_true_iff. }
    split; [eexists; apply in_or_app; right; unfold head; in_calls|].
    split; [|split; [|exact Hrun]].
    + intros Hne. apply in_or_app. right. unfold head.
      rewrite (proj2 (nonempty_true _) Hne). in_calls.
    + intros Hne. apply in_or_app. right. unfold head.
      rewrite (proj2 (nonempty_true _) Hne). in_calls.
Qed.

(** *** The registration of the metrics path *)

Lemma configure_no_panic f e w t msg :
  ~ configure_post f e w t (inr (Panic msg)).
Proof.
  unfold configure_post. intros H.
  destruct (SetFromMap w (featureGates f)); [by destruct H|].
  destruct (enableNodeDeployment f && _); [by destruct H|].
  destruct (showVersion f); [by destruct H|].
  destruct (nonempty (metricsAddress f) && _); [by destruct H|].
  by destruct H as (t' & _ & _ & msg' & ?).
Qed.

Lemma identify_no_panic f w t msg :
  ~ identify_post f w t (inr (Panic msg)).
Proof.
  unfold identify_post. intros H. open_paths H; by destruct H.
Qed.

Lemma listers_no_panic f w su dr t msg :
  ~ listers_post f w su dr t (inr (Panic msg)).
Proof.
  unfold listers_post. intros H. open_paths H; by destruct H.
Qed.

Lemma capacity_no_panic f e w su dr ls pv t msg :
  ~ capacity_post f e w su dr ls pv t (inr (Panic msg)).
Proof.
  intros H. remember (inr (Panic msg)) as r eqn:Hr.
  capacity_paths_of H f e w ls; discriminate Hr.
Qed.

Lemma coordinate_no_panic f w asm t msg :
  ~ coordinate_post f w asm t (inr (Panic msg)).
Proof.
  assert (Hrun : forall t' r', run_post f w asm t' r' ->
                               r' = inl tt \/ r' = inr (KlogFatal failed_to_sync)).
  { intros t' r' (rs & t_ns & res & t_loops & _ & _ & _ & _ & Hend).
    destruct (forallb snd res); destruct Hend as [-> _]; tauto. }
  unfold coordinate_post, le_result. intros H.
  destruct (enableLeaderElection f).
  2: { by destruct (Hrun _ _ H). }
  destruct (NewLeaderElectionClientset w); [by destruct H|].
  destruct H as (t_run & _ & H).
  destruct (le_invokes_run (LeaderElectionRun w)).
  - destruct H as (r' & Hr & Heq).
    destruct (Hrun _ _ Hr) as [-> | ->]; [|done].
    by destruct (le_error (LeaderElectionRun w)).
  - destruct H as [_ Heq]. by destruct (le_error (LeaderElectionRun w)).
Qed.

(** X21. [main] calls [mux.Handle] at most once (line 514), with
    [--metrics-path] as the pattern, only when the diagnostics server has
    an address, and after the provision controller has been constructed.  With a pattern
    that is not empty, the go statement of the server is the next call.
    With the empty pattern the call panics: it is the last call of the
    run, so that no server, no election and no factory is started.  A run
    ends in that panic only in this way. *)
Theorem X21_empty_metrics_path_panics (f : Flags) (e : Env) (w : World) :
  (forall pattern pre post,
     calls f e w = (pre ++ EvMuxHandle pattern :: post)%list ->
     pattern = metricsPath f /\
     addr f <> "" /\
     Forall (fun ev => is_mux_handle ev = false) (pre ++ post) /\
     (exists driver p gitVersion options,
        In (EvNewProvisionController driver p gitVersion options) pre) /\
     if String.eqb pattern ""
     then post = [] /\ outcome f e w = inr (Panic invalid_pattern)
     else exists rest, post = EvGoListenAndServe (addr f) :: rest) /\
  (outcome f e w = inr (Panic invalid_pattern) ->
     metricsPath f = "" /\
     addr f <> "" /\
     exists pre, calls f e w = (pre ++ [EvMuxHandle ""])%list).
Proof.
  assert (Hwo : forall t, only (without is_mux_handle) t ->
                          Forall (fun ev => is_mux_handle ev = false) t).
  { intros t Ht. eapply Forall_impl; [exact Ht|].
    intros ev Hev. by apply negb_true_iff. }
  pose proof (main_run f e w) as H. open_run H.
  (* the runs that stopped before line 486 *)
  2-6: split;
    [ intros pattern pre post Heq;
      assert (Hin : In (EvMuxHandle pattern) (calls f e w))
        by (rewrite Heq; in_calls);
      rewrite Hcalls in Hin; in_parts Hin
    | intros Hp; rewrite Hout in Hp; injection Hp as -> ].
  2: by destruct (capacity_no_panic _ _ _ _ _ _ _ _ _ P_cap).
  2: by destruct P_pv as [_ ?].
  2: by destruct (listers_no_panic _ _ _ _ _ _ P_ls).
  2: by destruct (identify_no_panic _ _ _ _ P_id).
  2: by destruct (configure_no_panic _ _ _ _ _ P_conf).
  all: assert (HA : only (without is_mux_handle)
                 (t_conf ++ t_id ++ t_ls ++ t_pv ++ t_cap ++
                  [EvNewProvisionController (dr_provisionerName dr)
                     (cp_csiProvisioner cp) (su_gitVersion su) (pv_options pv);
                   EvNewCloningProtectionController
                     (ls_controllerCapabilities ls)]))
         by (rewrite !only_app; repeat split; try only_tac;
             (eapply only_without; [|eassumption]); by intros []).
  all: destruct P_ctl as [Ectl _]; unfold mux_panics in Hmux.
  (* the run whose assembly was completed *)
  - pose proof (coordinate_only _ _ _ _ _ H) as O_co.
    split; [|intros Hp; rewrite Hp in H;
             by destruct (coordinate_no_panic _ _ _ _ _ H)].
    intros pattern pre post Heq. unfold server_events in Ectl.
    destruct (nonempty (addr f)) eqn:Haddr.
    2: { exfalso.
         assert (Hin : In (EvMuxHandle pattern) (calls f e w))
           by (rewrite Heq; in_calls).
         rewrite Hcalls in Hin. in_parts Hin. rewrite Ectl in Hin.
         in_list Hin. }
    cbn [andb] in Hmux.
    assert (HB : only (without is_mux_handle)
                   (EvGoListenAndServe (addr f) :: t_co)).
    { constructor; [reflexivity|].
      eapply only_without; [|exact O_co]. by intros []. }
    rewrite Hcalls, Ectl in Heq.
    replace ((t_conf ++ t_id ++ t_ls ++ t_pv ++ t_cap ++
              [EvNewProvisionController (dr_provisionerName dr)
                 (cp_csiProvisioner cp) (su_gitVersion su) (pv_options pv);
               EvNewCloningProtectionController (ls_controllerCapabilities ls)] ++
              [EvMuxHandle (metricsPath f); EvGoListenAndServe (addr f)]) ++
             t_co)%list
      with ((t_conf ++ t_id ++ t_ls ++ t_pv ++ t_cap ++
             [EvNewProvisionController (dr_provisionerName dr)
                (cp_csiProvisioner cp) (su_gitVersion su) (pv_options pv);
              EvNewCloningProtectionController (ls_controllerCapabilities ls)]) ++
            EvMuxHandle (metricsPath f) ::
            (EvGoListenAndServe (addr f) :: t_co))%list in Heq
      by (rewrite <- !app_assoc; reflexivity).
    destruct (split_at_unique is_mux_handle _ _ _
                pre (EvMuxHandle pattern) post HA HB eq_refl Heq)
      as (-> & [= ->] & ->).
    split; [reflexivity|]. split; [by apply nonempty_true|].
    split; [apply Forall_app; split; by apply Hwo|].
    split; [do 4 eexists; in_calls|].
    rewrite Hmux. by eexists.
  (* the run in which [mux.Handle] panicked *)
  - apply andb_prop in Hmux as [Haddr Hpath].
    apply nonempty_true in Haddr.
    apply String.eqb_eq in Hpath.
    assert (Hsplit :
      calls f e w
      = ((t_conf ++ t_id ++ t_ls ++ t_pv ++ t_cap ++
          [EvNewProvisionController (dr_provisionerName dr)
             (cp_csiProvisioner cp) (su_gitVersion su) (pv_options pv);
           EvNewCloningProtectionController (ls_controllerCapabilities ls)]) ++
         EvMuxHandle (metricsPath f) :: [])%list)
      by (rewrite Hcalls, Ectl, <- !app_assoc; reflexivity).
    split.
    + intros pattern pre post Heq. rewrite Hsplit in Heq.
      destruct (split_at_unique is_mux_handle _ _ _
                  pre (EvMuxHandle pattern) post HA
                  ltac:(constructor) eq_refl Heq)
        as (-> & [= ->] & ->).
      split; [reflexivity|]. split; [exact Haddr|].
      split; [rewrite app_nil_r; by apply Hwo|].
      split; [do 4 eexists; in_calls|].
      rewrite Hpath. cbn. by split.
    + intros _.
      split; [exact Hpath|]. split; [exact Haddr|].
      eexists. rewrite Hsplit, Hpath. reflexivity.
Qed.
(** ** The properties at concrete runs *)

Lemma plain_flags_are_the_defaults : plain_flags = default_flags.
Proof. reflexivity. Qed.

(** Decides a membership in the log of a concrete run. *)
Ltac in_run := vm_compute; repeat (first [left; reflexivity | right]).

(** C1 at a run whose StorageClass cache does not sync. *)
Lemma C1_witness :
  outcome plain_flags empty_env unsynced_world = inr (KlogFatal failed_to_sync) /\
  Forall (fun ev => is_controller_run ev = false)
         (calls plain_flags empty_env unsynced_world).
Proof.
  apply (proj2 (C1_controllers_wait_for_cache_sync
                  plain_flags empty_env unsynced_world)
               [StorageClasses; PersistentVolumeClaims] StorageClasses).
  - in_run.
  - by left.
  - reflexivity.
Defined.

(** C2 as stated fails: with capacity publishing on, level 1 and no
    POD_NAME, the run ends with the fatal POD_NAME message only after it
    has sent Probe, GetDriverName and GetDriverCapabilities. *)
Lemma C2_counterexample :
  enableCapacity capacity_flags = true /\
  capacityOwnerrefLevel capacity_flags = 1%Z /\
  getenv_value namespace_env "POD_NAME" = "" /\
  outcome capacity_flags namespace_env hostpath_world
  = inr (KlogFatal need_POD_NAME) /\
  List.filter is_backend_rpc (calls capacity_flags namespace_env hostpath_world)
  = [ EvProbe SidecarManager 10000000000;
      EvGetDriverName SidecarManager 10000000000;
      EvGetDriverCapabilities SidecarManager 10000000000 ].
Proof. vm_compute. repeat split. Qed.

Lemma C2_witness :
  (enableCapacity capacity_flags = true /\
   capacityOwnerrefLevel capacity_flags = 1%Z /\
   getenv_value namespace_env "POD_NAME" = "") /\
  exists h, outcome capacity_flags namespace_env hostpath_world = inr h.
Proof.
  split; [repeat split|].
  apply (C2_pod_name_checked_after_rpcs capacity_flags namespace_env
           hostpath_world); reflexivity.
Defined.


(** C4 as stated fails: the driver has no topology support, yet the run
    builds the live node topology over the Node and CSINode informers of
    the shared factory, which then starts and waits for both caches. *)
Lemma C4_counterexample :
  (forall pluginCaps, SupportsTopology hostpath_world pluginCaps = false) /\
  In (EvNewNodeTopology "hostpath.csi.k8s.io"
        (SharedFactory, Nodes) (SharedFactory, CSINodes))
     (calls ownerless_flags namespace_env hostpath_world) /\
  In (EvFactoryStart SharedFactory
        [StorageClasses; PersistentVolumeClaims; Nodes; CSINodes])
     (calls ownerless_flags namespace_env hostpath_world) /\
  existsb topology_cache_event
    (calls ownerless_flags namespace_env hostpath_world) = true.
Proof.
  split; [reflexivity|]. split; [in_run|]. split; [in_run|].
  vm_compute. reflexivity.
Qed.

Lemma C4_witness :
  (calls plain_flags empty_env hostpath_world
   = (before_provisioner (calls plain_flags empty_env hostpath_world) ++
      EvNewCSIProvisioner hostpath_args ::
      after_provisioner (calls plain_flags empty_env hostpath_world))%list /\
   SupportsTopology hostpath_world (pa_pluginCapabilities hostpath_args) = false) /\
  pa_csiNodeLister hostpath_args = None /\
  pa_nodeLister hostpath_args = None.
Proof.
  assert (Hcalls :
    calls plain_flags empty_env hostpath_world
    = (before_provisioner (calls plain_flags empty_env hostpath_world) ++
       EvNewCSIProvisioner hostpath_args ::
       after_provisioner (calls plain_flags empty_env hostpath_world))%list)
    by (vm_compute; reflexivity).
  split; [split; [exact Hcalls | reflexivity]|].
  destruct (C4_no_topology_support_nil_listers plain_flags empty_env
              hostpath_world hostpath_args _ _ Hcalls eq_refl)
    as (Hc & Hn & _).
  by split.
Defined.

Lemma C5_witness :
  (In (EvGetDriverCapabilities SidecarManager 10000000000)
      (calls plain_flags empty_env attaching_world) /\
   GetDriverCapabilities attaching_world SidecarManager
   = Ok (∅, {[ ControllerServiceCapability_RPC_PUBLISH_UNPUBLISH_VOLUME := true ]})) /\
  (In (EvInformerFor SharedFactory VolumeAttachments)
      (calls plain_flags empty_env attaching_world) <->
   has_capability
     {[ ControllerServiceCapability_RPC_PUBLISH_UNPUBLISH_VOLUME := true ]}
     ControllerServiceCapability_RPC_PUBLISH_UNPUBLISH_VOLUME = true).
Proof.
  assert (Hin : In (EvGetDriverCapabilities SidecarManager 10000000000)
                   (calls plain_flags empty_env attaching_world)) by in_run.
  split; [split; [exact Hin | reflexivity]|].
  apply (proj1 (C5_attachment_lister_follows_capability
                  plain_flags empty_env attaching_world)
               SidecarManager 10000000000 ∅ _ Hin eq_refl).
Defined.

Lemma C6_witness :
  (enableLeaderElection election_flags = true /\
   In EvLeaderElectionRun (calls election_flags empty_env no_lease_world) /\
   le_error (LeaderElectionRun no_lease_world) = Some "no lease") /\
  exists msg,
    outcome election_flags empty_env no_lease_world = inr (KlogFatal msg) /\
    (le_invokes_run (LeaderElectionRun no_lease_world) = false ->
     msg = "failed to initialize leader election: " +:+ "no lease").
Proof.
  assert (Hin : In EvLeaderElectionRun
                   (calls election_flags empty_env no_lease_world)) by in_run.
  split; [split; [reflexivity | split; [exact Hin | reflexivity]]|].
  apply (proj2 (C6_run_directly_or_under_election
                  election_flags empty_env no_lease_world) eq_refl);
    [exact Hin | reflexivity].
Defined.

Lemma C7_witness :
  In (EvSetDriverName SidecarManager "pd.csi.storage.gke.io")
     (calls plain_flags empty_env gce_pd_world) /\
  migration_outcome plain_flags gce_pd_world "pd.csi.storage.gke.io"
    (calls plain_flags empty_env gce_pd_world)
    (outcome plain_flags empty_env gce_pd_world).
Proof.
  assert (Hin : In (EvSetDriverName SidecarManager "pd.csi.storage.gke.io")
                   (calls plain_flags empty_env gce_pd_world)) by in_run.
  split; [exact Hin|].
  apply (C7_migrated_driver_reconnects plain_flags empty_env gce_pd_world
           "pd.csi.storage.gke.io" Hin).
Defined.

(** C8 as stated fails: with neither endpoint flag set the run is not
    ended by any exit or fatal error, and it starts the controllers. *)
Lemma C8_counterexample :
  metricsAddress plain_flags = "" /\
  httpEndpoint plain_flags = "" /\
  outcome plain_flags empty_env hostpath_world = inl tt /\
  In EvProvisionControllerRun (calls plain_flags empty_env hostpath_world).
Proof.
  split; [reflexivity|]. split; [reflexivity|].
  split; [vm_compute; reflexivity | in_run].
Qed.

Lemma C8_witness :
  (metricsAddress both_endpoints_flags <> "" /\
   httpEndpoint both_endpoints_flags <> "") /\
  only early_event (calls both_endpoints_flags empty_env hostpath_world) /\
  exists h,
    outcome both_endpoints_flags empty_env hostpath_world = inr h /\
    (showVersion both_endpoints_flags = false -> exit_code h <> 0%Z).
Proof.
  assert (Hm : metricsAddress both_endpoints_flags <> "") by discriminate.
  assert (Hh : httpEndpoint both_endpoints_flags <> "") by discriminate.
  split; [by split|].
  destruct (proj1 (C8_both_endpoints_exit_neither_continues
                     both_endpoints_flags empty_env hostpath_world) Hm Hh)
    as (Hearly & h & Hout & Hcode & _).
  split; [exact Hearly|]. exists h. by split.
Defined.

Lemma C9_witness :
  metricsAddress metrics_election_flags <> "" /\
  ~ In EvPrepareHealthCheck
       (calls metrics_election_flags empty_env hostpath_world) /\
  In (EvMuxHandle "/metrics")
     (calls metrics_election_flags empty_env hostpath_world) /\
  In (EvGoListenAndServe ":8080")
     (calls metrics_election_flags empty_env hostpath_world).
Proof.
  assert (Hm : metricsAddress metrics_election_flags <> "") by discriminate.
  split; [exact Hm|].
  destruct (proj2 (C9_health_check_needs_http_endpoint
                     metrics_election_flags empty_env hostpath_world) Hm)
    as [Hno Hserved].
  split; [exact Hno|]. apply Hserved. in_run.
Defined.

Lemma C10_witness :
  (enableCapacity ownerless_flags = true /\
   enableNodeDeployment ownerless_flags = false) /\
  (forall caps, SupportsTopology hostpath_world caps = false) /\
  exists driver pargs before after cargs,
    GetDriverName hostpath_world SidecarManager = Ok driver /\
    starts_live_topology driver before after
      (calls ownerless_flags namespace_env hostpath_world) /\
    In (EvNewCSIProvisioner pargs) before /\
    pa_driverName pargs = driver /\
    In (EvNewCentralCapacityController cargs) after /\
    ca_topologyInformer cargs = live_topology driver.
Proof.
  split; [by split|]. split; [reflexivity|].
  destruct (C10_capacity_topology_ignores_topology_support
              ownerless_flags namespace_env hostpath_world eq_refl eq_refl)
    as (_ & _ & _ & _ & _ & Hlive).
  apply Hlive.
  - reflexivity.
  - left. reflexivity.
  - vm_compute. discriminate.
  - left. reflexivity.
  - repeat (split; [first [reflexivity | by eexists | by intros; eexists]|]).
    reflexivity.
Defined.

(** ** The further properties at concrete runs *)

(** Decides a membership in the log of a concrete run, at position [n]. *)
Ltac in_run_at n := apply (nth_error_In _ n); vm_compute; reflexivity.

Lemma X1_witness :
  In (EvNewLeaderElection "example.com-hostpath")
     (calls election_flags empty_env slash_world) /\
  exists name,
    GetDriverName slash_world SidecarManager = Ok name /\
    "example.com-hostpath" = replace_slash name /\
    String.length "example.com-hostpath" = String.length name /\
    ~ In "/"%char (String.list_ascii_of_string "example.com-hostpath") /\
    (~ In "/"%char (String.list_ascii_of_string name) ->
     "example.com-hostpath" = name).
Proof.
  assert (Hin : In (EvNewLeaderElection "example.com-hostpath")
                   (calls election_flags empty_env slash_world)) by in_run.
  split; [exact Hin|].
  exact (X1_election_lock_name election_flags empty_env slash_world _ Hin).
Defined.

Lemma X2_witness :
  In (EvGoListenAndServe ":8080")
     (calls metrics_election_flags empty_env hostpath_world) /\
  count_events is_listen
    (calls metrics_election_flags empty_env hostpath_world) = 1%nat.
Proof.
  assert (Hin : In (EvGoListenAndServe ":8080")
                   (calls metrics_election_flags empty_env hostpath_world))
    by in_run.
  split; [exact Hin|].
  by destruct (proj1 (X2_server_started_before_coordination
                        metrics_election_flags empty_env hostpath_world)
                     ":8080" Hin) as (_ & _ & _ & ?).
Defined.

Lemma X3_witness :
  In (EvLogError only_one_endpoint)
     (calls both_endpoints_flags empty_env hostpath_world) /\
  outcome both_endpoints_flags empty_env hostpath_world = inr (Exit 1).
Proof.
  assert (Hin : In (EvLogError only_one_endpoint)
                   (calls both_endpoints_flags empty_env hostpath_world))
    by in_run.
  split; [exact Hin|].
  by destruct (proj1 (X3_error_log_then_exit_1
                        both_endpoints_flags empty_env hostpath_world)
                     _ Hin) as [? _].
Defined.

Lemma X4_witness :
  In (EvBuildConfigFromFlags "" "/home/dev/.kube/config")
     (calls plain_flags kubeconfig_env hostpath_world) /\
  "/home/dev/.kube/config" = getenv_value kubeconfig_env "KUBECONFIG" /\
  ~ In EvInClusterConfig (calls plain_flags kubeconfig_env hostpath_world).
Proof.
  assert (Hin : In (EvBuildConfigFromFlags "" "/home/dev/.kube/config")
                   (calls plain_flags kubeconfig_env hostpath_world))
    by in_run.
  split; [exact Hin|].
  destruct (proj1 (X4_kube_configuration_source
                     plain_flags kubeconfig_env hostpath_world) _ _ Hin)
    as (_ & Henv & _ & _ & Hno).
  split; [|exact Hno]. apply Henv. discriminate.
Defined.

Lemma X5_witness :
  In (EvConnect "/run/csi/socket" SidecarManager)
     (calls plain_flags empty_env hostpath_world) /\
  "/run/csi/socket" = csiEndpoint plain_flags /\
  exists gitVersion, ServerVersion hostpath_world = Ok gitVersion.
Proof.
  assert (Hin : In (EvConnect "/run/csi/socket" SidecarManager)
                   (calls plain_flags empty_env hostpath_world)) by in_run.
  split; [exact Hin|].
  destruct (proj1 (X5_driver_contacted_after_kube_clients
                     plain_flags empty_env hostpath_world) _ _ Hin)
    as (Hep & _ & _ & _ & _ & _ & Hv).
  by split.
Defined.

Lemma X6_witness :
  calls plain_flags empty_env gce_pd_world
  = (firstn 14 (calls plain_flags empty_env gce_pd_world) ++
     EvCloseConn SidecarManager ::
     skipn 15 (calls plain_flags empty_env gce_pd_world))%list /\
  Forall (fun ev => uses_conn SidecarManager ev = false)
         (skipn 15 (calls plain_flags empty_env gce_pd_world)).
Proof.
  assert (Hcalls :
    calls plain_flags empty_env gce_pd_world
    = (firstn 14 (calls plain_flags empty_env gce_pd_world) ++
       EvCloseConn SidecarManager ::
       skipn 15 (calls plain_flags empty_env gce_pd_world))%list)
    by (vm_compute; reflexivity).
  split; [exact Hcalls|].
  by destruct (X6_closed_connection_not_used plain_flags empty_env gce_pd_world
                 _ _ _ Hcalls) as (_ & _ & ? & _).
Defined.

Lemma X7_witness :
  In (EvNewProvisionController "hostpath.csi.k8s.io"
        (CSIProvisioner hostpath_args) "v1.19.0" hostpath_options)
     (calls plain_flags empty_env hostpath_world) /\
  GetDriverName hostpath_world SidecarManager = Ok "hostpath.csi.k8s.io" /\
  ServerVersion hostpath_world = Ok "v1.19.0".
Proof.
  assert (Hin : In (EvNewProvisionController "hostpath.csi.k8s.io"
                      (CSIProvisioner hostpath_args) "v1.19.0" hostpath_options)
                   (calls plain_flags empty_env hostpath_world)) by in_run.
  split; [exact Hin|].
  destruct (X7_provision_controller_arguments plain_flags empty_env
              hostpath_world _ _ _ _ Hin) as (Hname & Hv & _).
  by split.
Defined.

Lemma X8_witness :
  In (EvNewProvisionController "hostpath.csi.k8s.io"
        (CSIProvisioner hostpath_args) "v1.19.0" hostpath_options)
     (calls plain_flags empty_env hostpath_world) /\
  forall b, In (LeaderElection b) hostpath_options <-> b = false.
Proof.
  assert (Hin : In (EvNewProvisionController "hostpath.csi.k8s.io"
                      (CSIProvisioner hostpath_args) "v1.19.0" hostpath_options)
                   (calls plain_flags empty_env hostpath_world)) by in_run.
  split; [exact Hin|].
  by destruct (X8_provision_controller_options plain_flags empty_env
                 hostpath_world _ _ _ _ Hin) as [? _].
Defined.

Lemma X9_witness :
  In (EvNewInformerFactoryWithOptions NamespaceFactory "kube-system"
        [(DriverNameLabel, "hostpath.csi.k8s.io");
         (ManagedByLabel, "external-provisioner")])
     (calls ownerless_flags namespace_env hostpath_world) /\
  "kube-system" = getenv_value namespace_env "NAMESPACE".
Proof.
  assert (Hin : In (EvNewInformerFactoryWithOptions NamespaceFactory
                      "kube-system"
                      [(DriverNameLabel, "hostpath.csi.k8s.io");
                       (ManagedByLabel, "external-provisioner")])
                   (calls ownerless_flags namespace_env hostpath_world))
    by in_run.
  split; [exact Hin|].
  by destruct (X9_capacity_objects_selector ownerless_flags namespace_env
                 hostpath_world _ _ _ Hin) as (_ & _ & ? & _).
Defined.

Lemma X10_witness :
  (enableCapacity capacity_flags = true /\
   getenv_value empty_env "NAMESPACE" = "") /\
  exists h, outcome capacity_flags empty_env hostpath_world = inr h.
Proof.
  split; [by split|].
  by destruct (X10_capacity_needs_namespace capacity_flags empty_env
                 hostpath_world eq_refl eq_refl) as [? _].
Defined.

Lemma X11_witness :
  enableNodeDeployment node_capacity_flags = true /\
  Forall (fun ev => watches_nodes ev = false)
         (calls node_capacity_flags node_env local_world).
Proof.
  split; [reflexivity|].
  by destruct (X11_node_deployment_watches_no_nodes node_capacity_flags
                 node_env local_world eq_refl) as [? _].
Defined.

Lemma X12_witness :
  In (EvStoreAdd StoppedFactory Nodes
        (FakeNode "node-1" (AccessibleTopology local_node_info)))
     (calls node_flags node_env local_world) /\
  enableNodeDeployment node_flags = true.
Proof.
  assert (Hin : In (EvStoreAdd StoppedFactory Nodes
                      (FakeNode "node-1" (AccessibleTopology local_node_info)))
                   (calls node_flags node_env local_world))
    by in_run_at 21%nat.
  split; [exact Hin|].
  by destruct (X12_static_topology_objects node_flags node_env local_world
                 _ _ _ Hin) as (_ & ? & _).
Defined.

Lemma X13_witness :
  (enableNodeDeployment node_capacity_flags = true /\
   In (EvNewCentralCapacityController local_capacity_args)
      (calls node_capacity_flags node_env local_world)) /\
  exists nodeInfo segment,
    GetNodeInfo local_world (ca_grpcClient local_capacity_args) = Ok nodeInfo /\
    ca_topologyInformer local_capacity_args = FixedNodeTopology segment /\
    NoDup (map fst segment).
Proof.
  assert (Hin : In (EvNewCentralCapacityController local_capacity_args)
                   (calls node_capacity_flags node_env local_world))
    by in_run_at 30%nat.
  split; [by split|].
  destruct (X13_fixed_topology_segment node_capacity_flags node_env
              local_world _ eq_refl Hin)
    as (nodeInfo & segment & _ & Hinfo & Ht & _ & _ & Hnd & _).
  exists nodeInfo, segment.
  split; [exact Hinfo|]. split; [exact Ht | exact Hnd].
Defined.

Lemma X14_witness :
  In (EvNewCSIProvisioner hostpath_args)
     (calls plain_flags empty_env hostpath_world) /\
  count_events is_new_provisioner (calls plain_flags empty_env hostpath_world)
  = 1%nat.
Proof.
  assert (Hin : In (EvNewCSIProvisioner hostpath_args)
                   (calls plain_flags empty_env hostpath_world)) by in_run.
  split; [exact Hin|].
  by destruct (X14_provisioner_arguments plain_flags empty_env hostpath_world
                 _ Hin) as [? _].
Defined.

Lemma X15_witness :
  In (EvGoCapacityControllerRun 1)
     (calls ownerless_flags namespace_env hostpath_world) /\
  exists head,
    calls ownerless_flags namespace_env hostpath_world
    = (head ++ [EvGoCapacityControllerRun 1;
                EvGoCloningProtectionControllerRun 1;
                EvProvisionControllerRun])%list /\
    Forall (fun ev => is_controller_run ev = false) head.
Proof.
  assert (Hin : In (EvGoCapacityControllerRun 1)
                   (calls ownerless_flags namespace_env hostpath_world))
    by in_run.
  split; [exact Hin|].
  destruct (X15_run_loops_of_built_controllers ownerless_flags
              namespace_env hostpath_world _ Hin eq_refl)
    as (head & caps & Heq & Hhead & _).
  exists head. split; [exact Heq | exact Hhead].
Defined.

Lemma X16_witness :
  In (EvFactoryStart NamespaceFactory [CSIStorageCapacities])
     (calls ownerless_flags namespace_env hostpath_world) /\
  enableCapacity ownerless_flags = true.
Proof.
  assert (Hin : In (EvFactoryStart NamespaceFactory [CSIStorageCapacities])
                   (calls ownerless_flags namespace_env hostpath_world))
    by in_run.
  split; [exact Hin|].
  destruct (proj1 (X16_factories_started_in_order ownerless_flags
                     namespace_env hostpath_world) _ _ Hin)
    as [Hsh|[_ Hcap]]; [discriminate Hsh | exact Hcap].
Defined.

Lemma X17_witness :
  (showVersion version_flags = true /\
   SetFromMap hostpath_world (featureGates version_flags) = None /\
   (enableNodeDeployment version_flags = true ->
    getenv_value empty_env "NODE_NAME" <> "")) /\
  In EvPrintVersion (calls version_flags empty_env hostpath_world).
Proof.
  assert (Hpre : showVersion version_flags = true /\
                 SetFromMap hostpath_world (featureGates version_flags) = None /\
                 (enableNodeDeployment version_flags = true ->
                  getenv_value empty_env "NODE_NAME" <> ""))
    by (split; [reflexivity|]; split; [reflexivity | discriminate]).
  split; [exact Hpre|].
  exact (proj2 (proj1 (X17_version_after_two_checks version_flags empty_env
                         hostpath_world)) Hpre).
Defined.

Lemma X18_witness :
  (In (EvNewProvisionController "hostpath.csi.k8s.io"
         (CSIProvisioner hostpath_args) "v1.19.0" wide_options)
      (calls wide_threads_flags empty_env hostpath_world) /\
   In (Threadiness (-1)) wide_options /\
   0 <= workerThreads wide_threads_flags < 2 ^ 64 /\
   2 ^ 63 <= workerThreads wide_threads_flags) /\
  -1 = workerThreads wide_threads_flags - 2 ^ 64.
Proof.
  assert (Hin : In (EvNewProvisionController "hostpath.csi.k8s.io"
                      (CSIProvisioner hostpath_args) "v1.19.0" wide_options)
                   (calls wide_threads_flags empty_env hostpath_world))
    by in_run.
  assert (Hn : In (Threadiness (-1)) wide_options)
    by (do 4 right; by left).
  assert (Hu : 0 <= workerThreads wide_threads_flags < 2 ^ 64)
    by (vm_compute; split; [discriminate | reflexivity]).
  assert (Hl : 2 ^ 63 <= workerThreads wide_threads_flags)
    by (vm_compute; discriminate).
  split; [split; [exact Hin | split; [exact Hn | split; [exact Hu | exact Hl]]]|].
  exact (proj1 (proj2 (proj1 (X18_thread_counts_wrap_around wide_threads_flags
                                empty_env hostpath_world)
                             _ _ _ _ _ Hin Hn Hu) Hl)).
Defined.

Lemma X19_witness :
  (well_configured plain_flags empty_env hostpath_world /\
   healthy plain_flags empty_env hostpath_world) /\
  outcome plain_flags empty_env hostpath_world = inl tt /\
  exists pre,
    calls plain_flags empty_env hostpath_world
    = (pre ++ [EvProvisionControllerRun])%list.
Proof.
  assert (Hw : well_configured plain_flags empty_env hostpath_world).
  { split; [reflexivity|]. split; [reflexivity|]. split; [reflexivity|].
    split; discriminate. }
  assert (Hh : healthy plain_flags empty_env hostpath_world).
  { repeat (split; [first [reflexivity | by eexists | by intros; eexists]|]).
    reflexivity. }
  split; [by split|].
  exact (X19_healthy_run_starts_provisioning plain_flags empty_env
           hostpath_world Hw Hh).
Defined.

Lemma X20_witness :
  calls election_flags empty_env hostpath_world
  = (firstn 22 (calls election_flags empty_env hostpath_world) ++
     EvLeaderElectionRun ::
     skipn 23 (calls election_flags empty_env hostpath_world))%list /\
  only run_event (skipn 23 (calls election_flags empty_env hostpath_world)).
Proof.
  assert (Hcalls :
    calls election_flags empty_env hostpath_world
    = (firstn 22 (calls election_flags empty_env hostpath_world) ++
       EvLeaderElectionRun ::
       skipn 23 (calls election_flags empty_env hostpath_world))%list)
    by (vm_compute; reflexivity).
  split; [exact Hcalls|].
  by destruct (proj2 (X20_election_configured_before_run election_flags
                        empty_env hostpath_world) _ _ Hcalls)
    as (_ & _ & _ & _ & _ & ?).
Defined.

Lemma X21_witness :
  outcome empty_path_flags empty_env hostpath_world
  = inr (Panic invalid_pattern) /\
  exists pre,
    calls empty_path_flags empty_env hostpath_world
    = (pre ++ [EvMuxHandle ""])%list.
Proof.
  assert (Hout : outcome empty_path_flags empty_env hostpath_world
                 = inr (Panic invalid_pattern))
    by (vm_compute; reflexivity).
  split; [exact Hout|].
  by destruct (proj2 (X21_empty_metrics_path_panics empty_path_flags
                        empty_env hostpath_world) Hout)
    as (_ & _ & ?).
Defined.
